(** * lightNVR: the segmented MP4 recorder of [src/video/mp4_writer.c]

    A shallow embedding of [record_segment], [mp4_writer_rtsp_thread] and
    [mp4_writer_is_recording].  Calls into libavformat, the recordings
    database, the clock and the shutdown coordinator are environment inputs:
    every call site reads its result from an event record, and every call
    that has an effect is appended to a trace. *)

From Stdlib Require Import ZArith List Bool String Ascii Lia.
Import ListNotations.
Local Open Scope Z_scope.

(* ================================================================== *)
(** * Machine integers *)

(** [int64_t] and [int] arithmetic, two's complement. *)
Definition wrap64 (z : Z) : Z := (z + 2 ^ 63) mod 2 ^ 64 - 2 ^ 63.
Definition wrap32 (z : Z) : Z := (z + 2 ^ 31) mod 2 ^ 32 - 2 ^ 31.

Definition INT_MAX : Z := 2 ^ 31 - 1.

(** [AV_NOPTS_VALUE] is [INT64_MIN]. *)
Definition AV_NOPTS_VALUE : Z := - 2 ^ 63.

(** [AV_PKT_FLAG_KEY] *)
Definition AV_PKT_FLAG_KEY : Z := 1.

(** The two limits of the overflow guard, [0x7fffffff] and [0x70000000]. *)
Definition MP4_DTS_LIMIT : Z := 0x7fffffff.
Definition MP4_DTS_SAFE : Z := 0x70000000.

Definition is_nopts (t : Z) : bool := t =? AV_NOPTS_VALUE.
Definition has_ts (t : Z) : bool := negb (t =? AV_NOPTS_VALUE).

(* ================================================================== *)
(** * Data model *)

(** [AVRational] *)
Record AVRational := mkRational { num : Z; den : Z }.

Definition av_inv_q (q : AVRational) : AVRational :=
  mkRational (den q) (num q).

Inductive AVMediaType := AVMEDIA_TYPE_VIDEO | AVMEDIA_TYPE_AUDIO | AVMEDIA_TYPE_OTHER.

(** The fields of [AVStream] and its [codecpar] that the recorder reads. *)
Record AVStream := mkStream {
  codec_type : AVMediaType;
  avg_frame_rate : AVRational;
  time_base : AVRational;
  sample_rate : Z;
  channels : Z;
  bits_per_coded_sample : Z
}.

(** An open input [AVFormatContext]: its streams. *)
Record AVFormatContext := mkInput { streams : list AVStream }.

(** [AVPacket] *)
Record AVPacket := mkPacket {
  stream_index : Z;
  flags : Z;
  dts : Z;
  pts : Z;
  duration : Z;
  size : Z
}.

Definition set_dts (p : AVPacket) (v : Z) : AVPacket :=
  mkPacket (stream_index p) (flags p) v (pts p) (duration p) (size p).
Definition set_pts (p : AVPacket) (v : Z) : AVPacket :=
  mkPacket (stream_index p) (flags p) (dts p) v (duration p) (size p).
Definition set_duration (p : AVPacket) (v : Z) : AVPacket :=
  mkPacket (stream_index p) (flags p) (dts p) (pts p) v (size p).
Definition set_stream_index (p : AVPacket) (v : Z) : AVPacket :=
  mkPacket v (flags p) (dts p) (pts p) (duration p) (size p).

(** [segment_info_t] *)
Record segment_info_t := mkSegInfo {
  segment_index : Z;
  has_audio : bool;
  last_frame_was_key : bool
}.

(* ================================================================== *)
(** * Timestamp rebasing

    [record_segment] repeats the same blocks for the final video frame, for
    a copied video frame and for an audio frame; each block is one
    definition here and the three paths below assemble them in the order of
    the source. *)

(** "Initialize first DTS if not set": returns the pair
    [(first_dts, first_pts)]. *)
Definition init_first (first_dts first_pts : Z) (p : AVPacket) : Z * Z :=
  if is_nopts first_dts && has_ts (dts p)
  then (dts p, if has_ts (pts p) then pts p else dts p)
  else (first_dts, first_pts).

(** "Handle timestamps based on segment index". *)
Definition rebase_by_index (seg_index first_dts first_pts : Z) (p : AVPacket)
  : AVPacket :=
  if seg_index =? 0 then
    let p1 :=
      if has_ts (dts p) && has_ts first_dts then
        let d := wrap64 (dts p - first_dts) in
        set_dts p (if d <? 0 then 0 else d)
      else p in
    if has_ts (pts p1) && has_ts first_pts then
      let t := wrap64 (pts p1 - first_pts) in
      set_pts p1 (if t <? 0 then 0 else t)
    else p1
  else
    let p1 :=
      if has_ts (dts p) && has_ts first_dts then
        let relative_dts := wrap64 (dts p - first_dts) in
        set_dts p (wrap64 (relative_dts + 1))
      else p in
    if has_ts (pts p1) && has_ts first_pts then
      let relative_pts := wrap64 (pts p1 - first_pts) in
      set_pts p1 (wrap64 (relative_pts + 1))
    else p1.

(** "Ensure PTS >= DTS". *)
Definition fix_pts_ge_dts (p : AVPacket) : AVPacket :=
  if has_ts (pts p) && has_ts (dts p) && (pts p <? dts p)
  then set_pts p (dts p) else p.

(** "Ensure DTS values don't exceed MP4 format limits (0x7fffffff)".  The
    difference [pts_dts_diff] is taken after [pkt.dts] was assigned 1000. *)
Definition overflow_guard (p : AVPacket) : AVPacket :=
  if has_ts (dts p) then
    let p1 :=
      if dts p >? MP4_DTS_LIMIT then
        let q := set_dts p 1000 in
        if has_ts (pts q) then
          let pts_dts_diff := wrap64 (pts q - dts q) in
          if pts_dts_diff >=? 0
          then set_pts q (wrap64 (dts q + pts_dts_diff))
          else set_pts q (dts q)
        else set_pts q (dts q)
      else p in
    if dts p1 >? MP4_DTS_SAFE then
      let q := set_dts p1 1000 in
      if has_ts (pts q)
      then set_pts q (wrap64 (dts q + 1))
      else set_pts q (dts q)
    else p1
  else p.

(** "Ensure monotonic increase of timestamps" (audio only). *)
Definition audio_monotonic (audio_packet_count last_audio_dts last_audio_pts : Z)
  (p : AVPacket) : AVPacket :=
  if audio_packet_count >? 0 then
    let p1 :=
      if has_ts (dts p) && (dts p <=? last_audio_dts)
      then set_dts p (wrap64 (last_audio_dts + 1)) else p in
    let p2 :=
      if has_ts (pts p1) && (pts p1 <=? last_audio_pts)
      then set_pts p1 (wrap64 (last_audio_pts + 1)) else p1 in
    if has_ts (pts p2) && has_ts (dts p2) && (pts p2 <? dts p2)
    then set_pts p2 (dts p2) else p2
  else p.

(** "Ensure packet duration is within reasonable limits". *)
Definition cap_duration (p : AVPacket) : AVPacket :=
  if duration p >? 10000000 then set_duration p 90000 else p.

(* ================================================================== *)
(** * The environment of one [record_segment] call *)

(** [AVERROR_EOF] is [-MKTAG('E','O','F',' ')], [AVERROR(EAGAIN)] is [-11]. *)
Definition AVERROR_EOF : Z := -541478725.
Definition AVERROR_EAGAIN : Z := -11.

(** One iteration of the [while (1)] loop: the value every external call
    of the iteration returns, should the iteration reach it. *)
Record loop_event := mkEvent {
  ev_shutdown : bool;   (* is_shutdown_initiated() *)
  ev_t_limit : Z;       (* av_gettime() of the duration check *)
  ev_read_ret : Z;      (* av_read_frame *)
  ev_pkt : AVPacket;    (* the packet it read *)
  ev_t_first : Z;       (* av_gettime() resetting start_time *)
  ev_t_wait0 : Z;       (* av_gettime() initialising waiting_start_time *)
  ev_t_wait : Z;        (* av_gettime() of wait_time *)
  ev_write_ret : Z      (* av_interleaved_write_frame *)
}.

(** The three places that submit a packet to the muxer. *)
Inductive write_path := VideoFinal | VideoCopy | AudioCopy.

(** Effects of [record_segment], in program order. *)
Inductive io_op :=
| OpOpenInput (r : Z)
| OpFindStreamInfo (r : Z)
| OpAllocOutput (r : Z)
| OpAvioOpen (r : Z)
| OpWriteHeader (r : Z)
| OpSleep (usec : Z)
| OpWriteFrame (w : write_path) (p : AVPacket) (r : Z)
| OpWriteTrailer (r : Z)
| OpAvioClose
| OpFreeOutput.

Record seg_env := mkSegEnv {
  se_open_input : Z * AVFormatContext;  (* avformat_open_input *)
  se_find_stream_info : Z;
  se_alloc_output : Z * bool;           (* return value, output_ctx != NULL *)
  se_new_video_stream : bool;           (* avformat_new_stream != NULL *)
  se_copy_video_params : Z;
  se_new_audio_stream : bool;
  se_copy_audio_params : Z;
  se_avio_open : Z;
  se_write_header : Z;
  se_t_start : Z;                       (* av_gettime() before the loop *)
  se_events : list loop_event;
  se_write_trailer : Z;                 (* av_write_trailer after the loop *)
  se_cleanup_trailer : Z;               (* av_write_trailer under cleanup: *)
  se_stale_trailer_written : bool       (* trailer_written when a goto
                                           jumped over its initialiser *)
}.

(** What the loop reads but never writes. *)
Record loop_ctx := mkCtx {
  lc_input : AVFormatContext;
  lc_video_stream_idx : Z;
  lc_audio_stream_idx : Z;
  lc_has_audio : Z;            (* the int parameter has_audio *)
  lc_out_audio_stream : bool;  (* out_audio_stream != NULL *)
  lc_duration : Z;
  lc_segment_index : Z
}.

(** The locals of [record_segment] that the loop updates, the struct behind
    [prev_segment_info] ([None] for a NULL pointer), the function-static
    [waiting_start_time], and the effects so far. *)
Record loop_state := mkState {
  first_video_dts : Z;
  first_video_pts : Z;
  first_audio_dts : Z;
  first_audio_pts : Z;
  last_video_dts : Z;
  last_video_pts : Z;
  last_audio_dts : Z;
  last_audio_pts : Z;
  audio_packet_count : Z;
  video_packet_count : Z;
  start_time : Z;
  found_first_keyframe : bool;
  waiting_for_final_keyframe : bool;
  shutdown_detected : bool;
  ret : Z;
  prev_segment_info : option segment_info_t;
  waiting_start_time : Z;
  trace : list io_op
}.

Definition set_first_video (s : loop_state) (fd fp : Z) : loop_state :=
  mkState fd fp (first_audio_dts s) (first_audio_pts s)
    (last_video_dts s) (last_video_pts s) (last_audio_dts s) (last_audio_pts s)
    (audio_packet_count s) (video_packet_count s) (start_time s)
    (found_first_keyframe s) (waiting_for_final_keyframe s) (shutdown_detected s)
    (ret s) (prev_segment_info s) (waiting_start_time s) (trace s).

Definition set_first_audio (s : loop_state) (fd fp : Z) : loop_state :=
  mkState (first_video_dts s) (first_video_pts s) fd fp
    (last_video_dts s) (last_video_pts s) (last_audio_dts s) (last_audio_pts s)
    (audio_packet_count s) (video_packet_count s) (start_time s)
    (found_first_keyframe s) (waiting_for_final_keyframe s) (shutdown_detected s)
    (ret s) (prev_segment_info s) (waiting_start_time s) (trace s).

Definition set_last_video (s : loop_state) (ld lp : Z) : loop_state :=
  mkState (first_video_dts s) (first_video_pts s) (first_audio_dts s) (first_audio_pts s)
    ld lp (last_audio_dts s) (last_audio_pts s)
    (audio_packet_count s) (video_packet_count s) (start_time s)
    (found_first_keyframe s) (waiting_for_final_keyframe s) (shutdown_detected s)
    (ret s) (prev_segment_info s) (waiting_start_time s) (trace s).

Definition set_last_audio (s : loop_state) (ld lp : Z) : loop_state :=
  mkState (first_video_dts s) (first_video_pts s) (first_audio_dts s) (first_audio_pts s)
    (last_video_dts s) (last_video_pts s) ld lp
    (audio_packet_count s) (video_packet_count s) (start_time s)
    (found_first_keyframe s) (waiting_for_final_keyframe s) (shutdown_detected s)
    (ret s) (prev_segment_info s) (waiting_start_time s) (trace s).

Definition set_counts (s : loop_state) (ac vc : Z) : loop_state :=
  mkState (first_video_dts s) (first_video_pts s) (first_audio_dts s) (first_audio_pts s)
    (last_video_dts s) (last_video_pts s) (last_audio_dts s) (last_audio_pts s)
    ac vc (start_time s)
    (found_first_keyframe s) (waiting_for_final_keyframe s) (shutdown_detected s)
    (ret s) (prev_segment_info s) (waiting_start_time s) (trace s).

Definition set_found_first (s : loop_state) (t : Z) : loop_state :=
  mkState (first_video_dts s) (first_video_pts s) (first_audio_dts s) (first_audio_pts s)
    (last_video_dts s) (last_video_pts s) (last_audio_dts s) (last_audio_pts s)
    (audio_packet_count s) (video_packet_count s) t
    true (waiting_for_final_keyframe s) (shutdown_detected s)
    (ret s) (prev_segment_info s) (waiting_start_time s) (trace s).

Definition set_waiting (s : loop_state) (sd : bool) : loop_state :=
  mkState (first_video_dts s) (first_video_pts s) (first_audio_dts s) (first_audio_pts s)
    (last_video_dts s) (last_video_pts s) (last_audio_dts s) (last_audio_pts s)
    (audio_packet_count s) (video_packet_count s) (start_time s)
    (found_first_keyframe s) true sd
    (ret s) (prev_segment_info s) (waiting_start_time s) (trace s).

Definition set_ret (s : loop_state) (r : Z) : loop_state :=
  mkState (first_video_dts s) (first_video_pts s) (first_audio_dts s) (first_audio_pts s)
    (last_video_dts s) (last_video_pts s) (last_audio_dts s) (last_audio_pts s)
    (audio_packet_count s) (video_packet_count s) (start_time s)
    (found_first_keyframe s) (waiting_for_final_keyframe s) (shutdown_detected s)
    r (prev_segment_info s) (waiting_start_time s) (trace s).

Definition set_prev (s : loop_state) (pi : option segment_info_t) : loop_state :=
  mkState (first_video_dts s) (first_video_pts s) (first_audio_dts s) (first_audio_pts s)
    (last_video_dts s) (last_video_pts s) (last_audio_dts s) (last_audio_pts s)
    (audio_packet_count s) (video_packet_count s) (start_time s)
    (found_first_keyframe s) (waiting_for_final_keyframe s) (shutdown_detected s)
    (ret s) pi (waiting_start_time s) (trace s).

Definition set_waiting_start (s : loop_state) (t : Z) : loop_state :=
  mkState (first_video_dts s) (first_video_pts s) (first_audio_dts s) (first_audio_pts s)
    (last_video_dts s) (last_video_pts s) (last_audio_dts s) (last_audio_pts s)
    (audio_packet_count s) (video_packet_count s) (start_time s)
    (found_first_keyframe s) (waiting_for_final_keyframe s) (shutdown_detected s)
    (ret s) (prev_segment_info s) t (trace s).

Definition emit (s : loop_state) (op : io_op) : loop_state :=
  mkState (first_video_dts s) (first_video_pts s) (first_audio_dts s) (first_audio_pts s)
    (last_video_dts s) (last_video_pts s) (last_audio_dts s) (last_audio_pts s)
    (audio_packet_count s) (video_packet_count s) (start_time s)
    (found_first_keyframe s) (waiting_for_final_keyframe s) (shutdown_detected s)
    (ret s) (prev_segment_info s) (waiting_start_time s) (trace s ++ [op]).

(** [prev_segment_info->last_frame_was_key = b], guarded by the NULL test. *)
Definition store_last_frame_was_key (pi : option segment_info_t) (b : bool)
  : option segment_info_t :=
  match pi with
  | Some i => Some (mkSegInfo (segment_index i) (has_audio i) b)
  | None => None
  end.

(** [prev_segment_info && prev_segment_info->last_frame_was_key] *)
Definition prev_last_frame_was_key (pi : option segment_info_t) : bool :=
  match pi with
  | Some i => last_frame_was_key i
  | None => false
  end.

(** [input_ctx->streams[i]]; the index was found by the search below, so
    the default is never returned. *)
Definition null_stream : AVStream :=
  mkStream AVMEDIA_TYPE_OTHER (mkRational 0 0) (mkRational 0 0) 0 0 0.
Definition stream_at (ctx : AVFormatContext) (i : Z) : AVStream :=
  nth (Z.to_nat i) (streams ctx) null_stream.

(** "Find video and audio streams": the first of each kind, [-1] for none. *)
Definition find_streams_step (acc : Z * Z * Z) (st : AVStream) : Z * Z * Z :=
  let '(video_stream_idx, audio_stream_idx, i) := acc in
  match codec_type st with
  | AVMEDIA_TYPE_VIDEO =>
      if video_stream_idx <? 0 then (i, audio_stream_idx, i + 1)
      else (video_stream_idx, audio_stream_idx, i + 1)
  | AVMEDIA_TYPE_AUDIO =>
      if audio_stream_idx <? 0 then (video_stream_idx, i, i + 1)
      else (video_stream_idx, audio_stream_idx, i + 1)
  | AVMEDIA_TYPE_OTHER => (video_stream_idx, audio_stream_idx, i + 1)
  end.

Definition find_streams (ctx : AVFormatContext) : Z * Z :=
  fst (fold_left find_streams_step (streams ctx) (-1, -1, 0)).

(** [avformat_new_stream] numbers the streams of the output in creation
    order: video is 0 and audio, when present, is 1. *)
Definition out_video_index : Z := 0.
Definition out_audio_index : Z := 1.

(* ================================================================== *)
(** * [record_segment] *)

Section RecordSegment.

(** libavutil's [av_rescale_q(a, bq, cq)], which is not part of the
    repository. *)
Variable av_rescale_q : Z -> AVRational -> AVRational -> Z.

(** "Explicitly set duration" of a video packet. *)
Definition video_duration (st : AVStream) (p : AVPacket) : AVPacket :=
  if (duration p =? 0) || (duration p =? AV_NOPTS_VALUE) then
    if (num (avg_frame_rate st) >? 0) && (den (avg_frame_rate st) >? 0)
    then set_duration p
           (av_rescale_q 1 (av_inv_q (avg_frame_rate st)) (time_base st))
    else set_duration p 1
  else p.

(** "Explicitly set duration" of an audio packet. *)
Definition audio_duration (audio_stream : AVStream) (p : AVPacket) : AVPacket :=
  if (duration p =? 0) || (duration p =? AV_NOPTS_VALUE) then
    if sample_rate audio_stream >? 0 then
      let nb_samples :=
        if (channels audio_stream >? 0) && (bits_per_coded_sample audio_stream >? 0)
        then
          let bytes_per_sample := Z.quot (bits_per_coded_sample audio_stream) 8 in
          if bytes_per_sample >? 0
          then wrap32 (Z.quot (size p)
                         (wrap32 (channels audio_stream * bytes_per_sample)))
          else 0
        else 0 in
      if nb_samples >? 0
      then set_duration p
             (av_rescale_q nb_samples
                (mkRational 1 (sample_rate audio_stream)) (time_base audio_stream))
      else set_duration p
             (av_rescale_q 1024
                (mkRational 1 (sample_rate audio_stream)) (time_base audio_stream))
    else set_duration p 1
  else p.

(** [last_video_dts], [last_video_pts] follow the packet when it has them. *)
Definition update_last_video (s : loop_state) (p : AVPacket) : loop_state :=
  set_last_video s
    (if has_ts (dts p) then dts p else last_video_dts s)
    (if has_ts (pts p) then pts p else last_video_pts s).

Definition update_last_audio (s : loop_state) (p : AVPacket) : loop_state :=
  set_last_audio s
    (if has_ts (dts p) then dts p else last_audio_dts s)
    (if has_ts (pts p) then pts p else last_audio_pts s).

(** The timestamps of the packet that ends the recording (lines 366-462). *)
Definition rebase_video_final (c : loop_ctx) (fd fp : Z) (pkt : AVPacket)
  : AVPacket :=
  cap_duration
    (overflow_guard
       (fix_pts_ge_dts (rebase_by_index (lc_segment_index c) fd fp pkt))).

(** The timestamps of a copied video packet (lines 495-539). *)
Definition rebase_video_copy (c : loop_ctx) (fd fp : Z) (pkt : AVPacket)
  : AVPacket :=
  fix_pts_ge_dts (rebase_by_index (lc_segment_index c) fd fp pkt).

(** The timestamps of an audio packet (lines 589-672). *)
Definition rebase_audio (c : loop_ctx) (s : loop_state) (fd fp : Z)
  (pkt : AVPacket) : AVPacket :=
  overflow_guard
    (audio_monotonic (audio_packet_count s) (last_audio_dts s) (last_audio_pts s)
       (rebase_by_index (lc_segment_index c) fd fp pkt)).

(** "Process this final frame and then break the loop". *)
Definition final_video_frame (c : loop_ctx) (e : loop_event) (s : loop_state)
  (pkt : AVPacket) (is_keyframe : bool) : loop_state :=
  let s1 := set_prev s (store_last_frame_was_key (prev_segment_info s) is_keyframe) in
  let '(fd, fp) := init_first (first_video_dts s1) (first_video_pts s1) pkt in
  let s2 := set_first_video s1 fd fp in
  let p1 := rebase_video_final c fd fp pkt in
  let s3 := update_last_video s2 p1 in
  let p2 := video_duration (stream_at (lc_input c) (lc_video_stream_idx c)) p1 in
  let p3 := set_stream_index p2 out_video_index in
  emit (set_ret s3 (ev_write_ret e)) (OpWriteFrame VideoFinal p3 (ev_write_ret e)).

(** A video packet that is copied and does not end the loop. *)
Definition video_copy (c : loop_ctx) (e : loop_event) (s : loop_state)
  (pkt : AVPacket) : loop_state :=
  let '(fd, fp) := init_first (first_video_dts s) (first_video_pts s) pkt in
  let s1 := set_first_video s fd fp in
  let p1 := rebase_video_copy c fd fp pkt in
  let s2 := update_last_video s1 p1 in
  let p2 := video_duration (stream_at (lc_input c) (lc_video_stream_idx c)) p1 in
  let p3 := set_stream_index p2 out_video_index in
  let s3 := emit (set_ret s2 (ev_write_ret e))
                 (OpWriteFrame VideoCopy p3 (ev_write_ret e)) in
  if ev_write_ret e <? 0 then s3
  else set_counts s3 (audio_packet_count s3) (wrap32 (video_packet_count s3 + 1)).

(** "Process video packets"; the boolean is [true] when the loop breaks. *)
Definition video_packet (c : loop_ctx) (e : loop_event) (s : loop_state)
  (pkt : AVPacket) : loop_state * bool :=
  let is_keyframe := negb (Z.land (flags pkt) AV_PKT_FLAG_KEY =? 0) in
  let accepted :=
    if negb (found_first_keyframe s) then
      if prev_last_frame_was_key (prev_segment_info s) && (lc_segment_index c >? 0)
      then Some (set_found_first s (ev_t_first e))
      else if is_keyframe then Some (set_found_first s (ev_t_first e))
      else None
    else Some s in
  match accepted with
  | None => (s, false)
  | Some s1 =>
      if waiting_for_final_keyframe s1 then
        let s2 :=
          if waiting_start_time s1 =? 0
          then set_waiting_start s1 (ev_t_wait0 e) else s1 in
        let wait_time :=
          Z.quot (wrap64 (ev_t_wait e - waiting_start_time s2)) 1000000 in
        if is_keyframe || (wait_time >? 2)
        then (final_video_frame c e s2 pkt is_keyframe, true)
        else (video_copy c e s2 pkt, false)
      else (video_copy c e s1 pkt, false)
  end.

(** "Process audio packets". *)
Definition audio_packet (c : loop_ctx) (e : loop_event) (s : loop_state)
  (pkt : AVPacket) : loop_state :=
  if negb (found_first_keyframe s) then s
  else
    let '(fd, fp) := init_first (first_audio_dts s) (first_audio_pts s) pkt in
    let s1 := set_first_audio s fd fp in
    let p1 := rebase_audio c s1 fd fp pkt in
    let s2 := update_last_audio s1 p1 in
    let p2 := audio_duration (stream_at (lc_input c) (lc_audio_stream_idx c)) p1 in
    let p3 := set_stream_index p2 out_audio_index in
    let s3 := emit (set_ret s2 (ev_write_ret e))
                   (OpWriteFrame AudioCopy p3 (ev_write_ret e)) in
    if ev_write_ret e <? 0 then s3
    else set_counts s3 (wrap32 (audio_packet_count s3 + 1)) (video_packet_count s3).

(** The two checks at the top of the loop body. *)
Definition check_shutdown (e : loop_event) (s : loop_state) : loop_state :=
  if negb (shutdown_detected s) && negb (waiting_for_final_keyframe s)
     && ev_shutdown e
  then set_waiting s true else s.

Definition check_duration (c : loop_ctx) (e : loop_event) (s : loop_state)
  : loop_state :=
  if (lc_duration c >? 0) && negb (waiting_for_final_keyframe s)
     && negb (shutdown_detected s) then
    let elapsed_seconds := Z.quot (wrap64 (ev_t_limit e - start_time s)) 1000000 in
    if elapsed_seconds >=? lc_duration c then set_waiting s (shutdown_detected s)
    else if elapsed_seconds >=? lc_duration c - 1
         then set_waiting s (shutdown_detected s)
         else s
  else s.

(** One iteration of the main recording loop. *)
Definition loop_iter (c : loop_ctx) (e : loop_event) (s : loop_state)
  : loop_state * bool :=
  let s1 := check_duration c e (check_shutdown e s) in
  let s2 := set_ret s1 (ev_read_ret e) in
  if ev_read_ret e <? 0 then
    if ev_read_ret e =? AVERROR_EOF then (s2, true)
    else if negb (ev_read_ret e =? AVERROR_EAGAIN) then (s2, true)
    else (emit s2 (OpSleep 10000), false)
  else
    let pkt := ev_pkt e in
    if stream_index pkt =? lc_video_stream_idx c then video_packet c e s2 pkt
    else if negb (lc_has_audio c =? 0) && (lc_audio_stream_idx c >=? 0)
            && (stream_index pkt =? lc_audio_stream_idx c)
            && lc_out_audio_stream c
    then (audio_packet c e s2 pkt, false)
    else (s2, false).

(** The loop over the iterations the environment supplies.  The boolean is
    [true] when a [break] was taken and [false] when the loop is still
    running after the last supplied iteration. *)
Fixpoint copy_loop (c : loop_ctx) (evs : list loop_event) (s : loop_state)
  : loop_state * bool :=
  match evs with
  | [] => (s, false)
  | e :: evs' =>
      let '(s', brk) := loop_iter c e s in
      if brk then (s', true) else copy_loop c evs' s'
  end.

(** Everything up to and including [avformat_write_header]: either a
    [goto cleanup] with the return value, the input slot, whether
    [output_ctx] and [output_ctx->pb] are set, and the effects; or the loop
    is reached. *)
Inductive setup_result :=
| SetupFailed (r : Z) (slot : option AVFormatContext)
    (output_ctx pb : bool) (tr : list io_op)
| SetupReady (input_ctx : AVFormatContext) (video_stream_idx audio_stream_idx : Z)
    (out_audio_stream : bool) (tr : list io_op).

Definition setup_output (env : seg_env) (input_ctx : AVFormatContext)
  (has_audio_flag : Z) (tr : list io_op) : setup_result :=
  let slot := Some input_ctx in
  let '(video_stream_idx, audio_stream_idx) := find_streams input_ctx in
  if video_stream_idx <? 0 then SetupFailed (-1) slot false false tr
  else
    let '(r_alloc, output_ctx) := se_alloc_output env in
    let tr1 := tr ++ [OpAllocOutput r_alloc] in
    if (r_alloc <? 0) || negb output_ctx
    then SetupFailed r_alloc slot output_ctx false tr1
    else if negb (se_new_video_stream env)
    then SetupFailed (-1) slot true false tr1
    else if se_copy_video_params env <? 0
    then SetupFailed (se_copy_video_params env) slot true false tr1
    else
      let with_audio := (audio_stream_idx >=? 0) && negb (has_audio_flag =? 0) in
      if with_audio && negb (se_new_audio_stream env)
      then SetupFailed (-1) slot true false tr1
      else if with_audio && (se_copy_audio_params env <? 0)
      then SetupFailed (se_copy_audio_params env) slot true false tr1
      else
        let tr2 := tr1 ++ [OpAvioOpen (se_avio_open env)] in
        if se_avio_open env <? 0
        then SetupFailed (se_avio_open env) slot true false tr2
        else
          let tr3 := tr2 ++ [OpWriteHeader (se_write_header env)] in
          if se_write_header env <? 0
          then SetupFailed (se_write_header env) slot true true tr3
          else SetupReady input_ctx video_stream_idx audio_stream_idx
                 with_audio tr3.

Definition setup (env : seg_env) (input_ctx_ptr : option AVFormatContext)
  (has_audio_flag : Z) : setup_result :=
  match input_ctx_ptr with
  | Some input_ctx => setup_output env input_ctx has_audio_flag []
  | None =>
      let '(r_open, input_ctx) := se_open_input env in
      if r_open <? 0
      then SetupFailed r_open None false false [OpOpenInput r_open]
      else
        let r_info := se_find_stream_info env in
        let tr := [OpOpenInput r_open; OpFindStreamInfo r_info] in
        if r_info <? 0 then SetupFailed r_info None false false tr
        else setup_output env input_ctx has_audio_flag tr
  end.

(** The code under the [cleanup:] label. *)
Definition cleanup (env : seg_env) (output_ctx pb : bool) (r : Z)
  (trailer_written : bool) (tr : list io_op) : list io_op :=
  if output_ctx then
    let tr1 :=
      if pb && (r >=? 0) && negb trailer_written
      then tr ++ [OpWriteTrailer (se_cleanup_trailer env)] else tr in
    let tr2 := if pb then tr1 ++ [OpAvioClose] else tr1 in
    tr2 ++ [OpFreeOutput]
  else tr.

(** "Initialize segment index if previous segment info is provided". *)
Definition next_segment_index (prev : option segment_info_t) : Z :=
  match prev with
  | Some i => wrap32 (segment_index i + 1)
  | None => 0
  end.

Definition initial_state (env : seg_env) (prev : option segment_info_t)
  (static_waiting_start_time : Z) (tr : list io_op) : loop_state :=
  mkState AV_NOPTS_VALUE AV_NOPTS_VALUE AV_NOPTS_VALUE AV_NOPTS_VALUE
    0 0 0 0 0 0 (se_t_start env) false false false (se_write_header env)
    prev static_waiting_start_time tr.

(** "Save segment info for the next segment if needed". *)
Definition save_segment_info (pi : option segment_info_t) (seg_index : Z)
  (has_audio_flag audio_stream_idx : Z) : option segment_info_t :=
  match pi with
  | Some i =>
      Some (mkSegInfo seg_index
              (negb (has_audio_flag =? 0) && (audio_stream_idx >=? 0))
              (last_frame_was_key i))
  | None => None
  end.

(** What a call leaves behind: its return value, [*input_ctx_ptr],
    [*prev_segment_info], the static [waiting_start_time] and its effects. *)
Record seg_result := mkSegResult {
  r_ret : Z;
  r_input_ctx : option AVFormatContext;
  r_prev_segment_info : option segment_info_t;
  r_waiting_start_time : Z;
  r_trace : list io_op
}.

(** The loop of a call, when the call reaches it: its context, the state
    after the supplied iterations and whether it has left the loop. *)
Definition segment_loop (env : seg_env) (duration_s : Z)
  (input_ctx_ptr : option AVFormatContext) (has_audio_flag : Z)
  (prev : option segment_info_t) (static_waiting_start_time : Z)
  : option (loop_ctx * (loop_state * bool)) :=
  match setup env input_ctx_ptr has_audio_flag with
  | SetupFailed _ _ _ _ _ => None
  | SetupReady input_ctx video_stream_idx audio_stream_idx out_audio tr =>
      let c := mkCtx input_ctx video_stream_idx audio_stream_idx has_audio_flag
                 out_audio duration_s (next_segment_index prev) in
      Some (c, copy_loop c (se_events env)
                 (initial_state env prev static_waiting_start_time tr))
  end.

(** [record_segment]; [None] when the supplied iterations never leave the
    loop, that is, the call has not returned yet. *)
Definition record_segment (env : seg_env) (duration_s : Z)
  (input_ctx_ptr : option AVFormatContext) (has_audio_flag : Z)
  (prev : option segment_info_t) (static_waiting_start_time : Z)
  : option seg_result :=
  match setup env input_ctx_ptr has_audio_flag with
  | SetupFailed r slot output_ctx pb tr =>
      Some (mkSegResult r slot prev static_waiting_start_time
              (cleanup env output_ctx pb r (se_stale_trailer_written env) tr))
  | SetupReady input_ctx video_stream_idx audio_stream_idx out_audio tr =>
      let c := mkCtx input_ctx video_stream_idx audio_stream_idx has_audio_flag
                 out_audio duration_s (next_segment_index prev) in
      let '(s, brk) :=
        copy_loop c (se_events env)
          (initial_state env prev static_waiting_start_time tr) in
      if brk then
        let output_ctx := true in
        let pb := true in
        let r := if output_ctx && pb then se_write_trailer env else ret s in
        let trailer_written := output_ctx && pb && negb (r <? 0) in
        let tr1 :=
          if output_ctx && pb then trace s ++ [OpWriteTrailer r] else trace s in
        Some (mkSegResult r (Some input_ctx)
                (save_segment_info (prev_segment_info s) (lc_segment_index c)
                   has_audio_flag audio_stream_idx)
                (waiting_start_time s)
                (cleanup env output_ctx pb r trailer_written tr1))
      else None
  end.

(** The packets submitted to [av_interleaved_write_frame], oldest first. *)
Fixpoint written (tr : list io_op) : list (write_path * AVPacket) :=
  match tr with
  | [] => []
  | OpWriteFrame w p _ :: tr' => (w, p) :: written tr'
  | _ :: tr' => written tr'
  end.

(** The packets a call has submitted after the supplied iterations, whether
    or not it has returned. *)
Definition segment_written (env : seg_env) (duration_s : Z)
  (input_ctx_ptr : option AVFormatContext) (has_audio_flag : Z)
  (prev : option segment_info_t) (static_waiting_start_time : Z)
  : list (write_path * AVPacket) :=
  match segment_loop env duration_s input_ctx_ptr has_audio_flag prev
          static_waiting_start_time with
  | Some (_, (s, _)) => written (trace s)
  | None => []
  end.

(** The same submissions, each with what [av_interleaved_write_frame]
    returned for it. *)
Fixpoint submitted (tr : list io_op) : list (write_path * AVPacket * Z) :=
  match tr with
  | [] => []
  | OpWriteFrame w p r :: tr' => (w, p, r) :: submitted tr'
  | _ :: tr' => submitted tr'
  end.

Definition segment_submitted (env : seg_env) (duration_s : Z)
  (input_ctx_ptr : option AVFormatContext) (has_audio_flag : Z)
  (prev : option segment_info_t) (static_waiting_start_time : Z)
  : list (write_path * AVPacket * Z) :=
  match segment_loop env duration_s input_ctx_ptr has_audio_flag prev
          static_waiting_start_time with
  | Some (_, (s, _)) => submitted (trace s)
  | None => []
  end.

End RecordSegment.

(* ================================================================== *)
(** * The writer, its worker context and the catalog *)

(** [mp4_writer_thread_t], the fields that are read. *)
Record mp4_writer_thread_t := mkThread {
  th_running : Z;
  th_shutdown_requested : Z;
  th_rtsp_url : string
}.

(** [mp4_writer_t]: the fields [mp4_writer.c] uses of the struct declared
    in [video/mp4_writer.h]. *)
Record mp4_writer_t := mkWriter {
  w_stream_name : string;
  w_output_dir : string;
  w_output_path : string;
  w_segment_duration : Z;
  w_has_audio : Z;
  w_last_rotation_time : Z;
  w_last_packet_time : Z;
  w_current_recording_id : Z;
  w_is_rotating : Z;
  w_thread_ctx : option mp4_writer_thread_t;
  w_shutdown_component_id : Z
}.

(** [stream_config_t], the two fields the worker reads. *)
Record stream_config_t := mkConfig {
  cfg_segment_duration : Z;
  cfg_record_audio : bool
}.

(** [recording_metadata_t] *)
Record recording_metadata_t := mkMetadata {
  md_stream_name : string;
  md_file_path : string;
  md_start_time : Z;
  md_end_time : Z;
  md_size_bytes : Z;
  md_is_complete : bool
}.

(** "Check if the recording thread is running". *)
Definition mp4_writer_is_recording (writer : option mp4_writer_t) : Z :=
  match writer with
  | None => 0
  | Some w =>
      if negb (w_is_rotating w =? 0) then 1
      else match w_thread_ctx w with
           | None => 0
           | Some thread_ctx => th_running thread_ctx
           end
  end.

(** The function-static variables of the file.  They belong to the process:
    every worker thread and every call reads and writes the same three
    cells. *)
Record statics := mkStatics {
  segment_retry_count : Z;
  last_segment_retry_time : Z;
  static_waiting_start_time : Z
}.

(** Effects of the worker, in program order. *)
Inductive sup_op :=
| CatAdd (m : recording_metadata_t) (id : Z)
| CatUpdate (id end_time size_bytes : Z) (is_complete : bool)
| SegCall (output_file : string) (duration_s has_audio_flag : Z)
    (prev : segment_info_t)
| SegReturn (res : seg_result)
| SupSleep (usec : Z)
| CloseInput.

(** One iteration of the worker's loop: what its external calls return. *)
Record sup_event := mkSupEvent {
  sv_stop : bool;                      (* mp4_writer_stop_recording_thread
                                          signalled before the loop test *)
  sv_shutdown : bool;                  (* is_shutdown_initiated() *)
  sv_now : Z;                          (* time(NULL), current_time *)
  sv_db_config : option stream_config_t; (* get_stream_config_by_name == 0 *)
  sv_timestamp : string;               (* strftime of localtime(current_time) *)
  sv_add_id : Z;                       (* add_recording_metadata *)
  sv_stat_rotate : string -> option Z; (* stat() during rotation: st_size *)
  sv_seg : seg_env;                    (* the record_segment call *)
  sv_retry_time : Z;                   (* time(NULL) of the retry record *)
  sv_now_after : Z;                    (* time(NULL) after the segment *)
  sv_stat_after : string -> option Z   (* stat() after the segment *)
}.

(** What happens before the loop. *)
Record sup_init := mkSupInit {
  si_start_time : Z;   (* time(NULL) *)
  si_add_id : Z;       (* add_recording_metadata of the initial record *)
  si_stop : bool       (* stop signalled during initialisation *)
}.

(** The worker's view: its context, its writer, its locals and effects. *)
Record sup_state := mkSup {
  sp_thread : mp4_writer_thread_t;
  sp_writer : mp4_writer_t;
  sp_input_ctx : option AVFormatContext;
  sp_segment_info : segment_info_t;
  sp_trace : list sup_op
}.

Inductive sup_status :=
| SupContinue   (* the iteration ended, the loop test comes next *)
| SupExit       (* the loop was left *)
| SupInSegment. (* record_segment has not returned *)

Definition signal_stop (t : mp4_writer_thread_t) : mp4_writer_thread_t :=
  mkThread 0 1 (th_rtsp_url t).

Definition set_running (t : mp4_writer_thread_t) (v : Z) : mp4_writer_thread_t :=
  mkThread v (th_shutdown_requested t) (th_rtsp_url t).

Definition set_w_segment_duration (w : mp4_writer_t) (v : Z) : mp4_writer_t :=
  mkWriter (w_stream_name w) (w_output_dir w) (w_output_path w) v
    (w_has_audio w) (w_last_rotation_time w) (w_last_packet_time w)
    (w_current_recording_id w) (w_is_rotating w) (w_thread_ctx w)
    (w_shutdown_component_id w).

Definition set_w_has_audio (w : mp4_writer_t) (v : Z) : mp4_writer_t :=
  mkWriter (w_stream_name w) (w_output_dir w) (w_output_path w)
    (w_segment_duration w) v (w_last_rotation_time w) (w_last_packet_time w)
    (w_current_recording_id w) (w_is_rotating w) (w_thread_ctx w)
    (w_shutdown_component_id w).

Definition set_w_rotation (w : mp4_writer_t) (path : string) (id t : Z)
  : mp4_writer_t :=
  mkWriter (w_stream_name w) (w_output_dir w) path
    (w_segment_duration w) (w_has_audio w) t (w_last_packet_time w)
    id (w_is_rotating w) (w_thread_ctx w) (w_shutdown_component_id w).

Definition set_w_current_recording_id (w : mp4_writer_t) (id : Z) : mp4_writer_t :=
  mkWriter (w_stream_name w) (w_output_dir w) (w_output_path w)
    (w_segment_duration w) (w_has_audio w) (w_last_rotation_time w)
    (w_last_packet_time w) id (w_is_rotating w) (w_thread_ctx w)
    (w_shutdown_component_id w).

Definition set_w_last_packet_time (w : mp4_writer_t) (t : Z) : mp4_writer_t :=
  mkWriter (w_stream_name w) (w_output_dir w) (w_output_path w)
    (w_segment_duration w) (w_has_audio w) (w_last_rotation_time w) t
    (w_current_recording_id w) (w_is_rotating w) (w_thread_ctx w)
    (w_shutdown_component_id w).

(** [strncpy(dst, src, n)] into a zeroed or afterwards terminated buffer,
    and [snprintf(dst, n, ...)]: the first [n], respectively [n - 1],
    characters. *)
Definition strncpy (n : nat) (src : string) : string := substring 0 n src.
Definition snprintf (n : nat) (text : string) : string :=
  substring 0 (n - 1)%nat text.

(* ================================================================== *)
(** * [mp4_writer_rtsp_thread] *)

Section Worker.

Variable av_rescale_q : Z -> AVRational -> AVRational -> Z.

(** Buffer sizes from headers that are not part of [mp4_writer.c]:
    [MAX_PATH_LENGTH], [MAX_STREAM_NAME], and [sizeof] of the two string
    fields of [recording_metadata_t]. *)
Variable MAX_PATH_LENGTH : nat.
Variable MAX_STREAM_NAME : nat.
Variable sizeof_md_stream_name : nat.
Variable sizeof_md_file_path : nat.

(** "Make a local copy of the stream name for thread safety". *)
Definition local_stream_name (w : mp4_writer_t) : string :=
  if negb (String.eqb (w_stream_name w) "")
  then strncpy (MAX_STREAM_NAME - 1)%nat (w_stream_name w)
  else strncpy (MAX_STREAM_NAME - 1)%nat "unknown".

(** The metadata record of a file that starts at [t]. *)
Definition new_metadata (stream_name path : string) (t : Z)
  : recording_metadata_t :=
  mkMetadata (strncpy (sizeof_md_stream_name - 1)%nat stream_name)
    (strncpy (sizeof_md_file_path - 1)%nat path) t 0 0 false.

Definition sup_emit (s : sup_state) (op : sup_op) : sup_state :=
  mkSup (sp_thread s) (sp_writer s) (sp_input_ctx s) (sp_segment_info s)
    (sp_trace s ++ [op]).
Definition sup_set_writer (s : sup_state) (w : mp4_writer_t) : sup_state :=
  mkSup (sp_thread s) w (sp_input_ctx s) (sp_segment_info s) (sp_trace s).
Definition sup_set_thread (s : sup_state) (t : mp4_writer_thread_t) : sup_state :=
  mkSup t (sp_writer s) (sp_input_ctx s) (sp_segment_info s) (sp_trace s).
Definition sup_set_input (s : sup_state) (i : option AVFormatContext) : sup_state :=
  mkSup (sp_thread s) (sp_writer s) i (sp_segment_info s) (sp_trace s).
Definition sup_set_segment_info (s : sup_state) (i : segment_info_t) : sup_state :=
  mkSup (sp_thread s) (sp_writer s) (sp_input_ctx s) i (sp_trace s).

(** "Update configuration from database if available": the local
    [segment_duration] and the writer. *)
Definition apply_db_config (e : sup_event) (w : mp4_writer_t) : Z * mp4_writer_t :=
  let segment_duration := w_segment_duration w in
  match sv_db_config e with
  | Some db_stream_config =>
      let '(segment_duration1, w1) :=
        if cfg_segment_duration db_stream_config >? 0 then
          let d := cfg_segment_duration db_stream_config in
          (d, if negb (w_segment_duration w =? d)
              then set_w_segment_duration w d else w)
        else (segment_duration, w) in
      let has_audio_flag := if cfg_record_audio db_stream_config then 1 else 0 in
      (segment_duration1,
       if negb (w_has_audio w1 =? has_audio_flag)
       then set_w_has_audio w1 has_audio_flag else w1)
  | None => (segment_duration, w)
  end.

(** The new file name of a rotation. *)
Definition rotation_path (e : sup_event) (w : mp4_writer_t) : string :=
  snprintf MAX_PATH_LENGTH
    (w_output_dir w ++ "/recording_" ++ sv_timestamp e ++ ".mp4")%string.

(** The body of [if (elapsed_time >= segment_duration)]. *)
Definition rotate (stream_name : string) (e : sup_event) (s : sup_state)
  : sup_state :=
  let w := sp_writer s in
  let current_time := sv_now e in
  let new_path := rotation_path e w in
  let current_path := strncpy (MAX_PATH_LENGTH - 1)%nat (w_output_path w) in
  let metadata := new_metadata stream_name new_path current_time in
  let new_recording_id := sv_add_id e in
  let s1 := sup_emit s (CatAdd metadata new_recording_id) in
  let s2 :=
    if w_current_recording_id w >? 0 then
      match sv_stat_rotate e current_path with
      | Some st_size =>
          sup_emit s1 (CatUpdate (w_current_recording_id w) current_time st_size true)
      | None =>
          sup_emit s1 (CatUpdate (w_current_recording_id w) current_time 0 true)
      end
    else s1 in
  sup_set_writer s2
    (set_w_rotation w (strncpy (MAX_PATH_LENGTH - 1)%nat new_path)
       (if new_recording_id >? 0 then new_recording_id
        else w_current_recording_id w)
       current_time).

(** "Check if it's time to create a new segment based on segment
    duration". *)
Definition rotation_check (stream_name : string) (segment_duration : Z)
  (e : sup_event) (s : sup_state) : sup_state :=
  if segment_duration >? 0 then
    let elapsed_time := wrap64 (sv_now e - w_last_rotation_time (sp_writer s)) in
    if elapsed_time >=? segment_duration then rotate stream_name e s else s
  else s.

(** "Use the segment duration from the database or writer", else 30. *)
Definition effective_duration (segment_duration : Z) : Z :=
  if segment_duration >? 0 then segment_duration else 30.

(** The retry strategy after [record_segment] returned [r]. *)
Definition after_segment (r : Z) (e : sup_event) (g : statics) (s : sup_state)
  : statics * sup_state :=
  if r <? 0 then
    let backoff_seconds :=
      Z.shiftl 1 (if segment_retry_count g >? 4 then 4 else segment_retry_count g) in
    let backoff_seconds1 := if backoff_seconds >? 30 then 30 else backoff_seconds in
    let count := wrap32 (segment_retry_count g + 1) in
    let g1 := mkStatics count (sv_retry_time e) (static_waiting_start_time g) in
    let '(s1, backoff_seconds2) :=
      if count >? 5 then
        (match sp_input_ctx s with
         | Some _ => sup_set_input (sup_emit s CloseInput) None
         | None => s
         end, 5)
      else (s, backoff_seconds1) in
    (g1, sup_emit s1 (SupSleep (wrap32 (backoff_seconds2 * 1000000))))
  else
    (if segment_retry_count g >? 0
     then mkStatics 0 (last_segment_retry_time g) (static_waiting_start_time g)
     else g, s).

(** "Update the recording metadata with the current file size". *)
Definition interim_update (e : sup_event) (s : sup_state) : sup_state :=
  let w := sp_writer s in
  if w_current_recording_id w >? 0 then
    match sv_stat_after e (w_output_path w) with
    | Some st_size => sup_emit s (CatUpdate (w_current_recording_id w) 0 st_size false)
    | None => s
    end
  else s.

(** One pass through [while (running && !shutdown_requested)]. *)
Definition sup_iter (stream_name : string) (e : sup_event) (g : statics)
  (s : sup_state) : statics * sup_state * sup_status :=
  let s0 := if sv_stop e then sup_set_thread s (signal_stop (sp_thread s)) else s in
  if negb (negb (th_running (sp_thread s0) =? 0)
           && (th_shutdown_requested (sp_thread s0) =? 0))
  then (g, s0, SupExit)
  else if sv_shutdown e
  then (g, sup_set_thread s0 (set_running (sp_thread s0) 0), SupExit)
  else
    let '(segment_duration, w1) := apply_db_config e (sp_writer s0) in
    let s1 := rotation_check stream_name segment_duration e (sup_set_writer s0 w1) in
    let duration_s := effective_duration segment_duration in
    let w := sp_writer s1 in
    let s2 := sup_emit s1 (SegCall (w_output_path w) duration_s (w_has_audio w)
                             (sp_segment_info s1)) in
    match record_segment av_rescale_q (sv_seg e) duration_s (sp_input_ctx s2)
            (w_has_audio w) (Some (sp_segment_info s2))
            (static_waiting_start_time g) with
    | None => (g, s2, SupInSegment)
    | Some res =>
        let g1 := mkStatics (segment_retry_count g) (last_segment_retry_time g)
                    (r_waiting_start_time res) in
        let s3 :=
          sup_emit
            (sup_set_segment_info (sup_set_input s2 (r_input_ctx res))
               (match r_prev_segment_info res with
                | Some i => i
                | None => sp_segment_info s2
                end))
            (SegReturn res) in
        let '(g2, s4) := after_segment (r_ret res) e g1 s3 in
        let s5 := sup_set_writer s4
                    (set_w_last_packet_time (sp_writer s4) (sv_now_after e)) in
        (g2, interim_update e s5, SupContinue)
    end.

(** The loop over the iterations the environment supplies; the boolean is
    [true] when the loop was left. *)
Fixpoint sup_loop (stream_name : string) (evs : list sup_event) (g : statics)
  (s : sup_state) : statics * sup_state * bool :=
  match evs with
  | [] => (g, s, false)
  | e :: evs' =>
      match sup_iter stream_name e g s with
      | (g', s', SupContinue) => sup_loop stream_name evs' g' s'
      | (g', s', SupExit) => (g', s', true)
      | (g', s', SupInSegment) => (g', s', false)
      end
  end.

(** "Add initial recording metadata to the database". *)
Definition initial_record (stream_name : string) (init : sup_init)
  (s : sup_state) : sup_state :=
  let w := sp_writer s in
  if negb (String.eqb (w_output_path w) "") then
    let metadata := new_metadata stream_name (w_output_path w) (si_start_time init) in
    let recording_id := si_add_id init in
    let s1 := sup_emit s (CatAdd metadata recording_id) in
    if recording_id =? 0 then s1
    else sup_set_writer s1 (set_w_current_recording_id w recording_id)
  else s.

(** "Clean up resources" after the loop. *)
Definition close_input (s : sup_state) : sup_state :=
  match sp_input_ctx s with
  | Some _ => sup_set_input (sup_emit s CloseInput) None
  | None => s
  end.

(** The worker started on [thread_ctx] for [writer]; the boolean is [true]
    when the thread function has returned. *)
Definition mp4_writer_rtsp_thread (init : sup_init) (evs : list sup_event)
  (g : statics) (thread_ctx : mp4_writer_thread_t) (writer : mp4_writer_t)
  : statics * sup_state * bool :=
  let stream_name := local_stream_name writer in
  let s0 := mkSup thread_ctx writer None (mkSegInfo 0 false false) [] in
  let s1 := initial_record stream_name init s0 in
  let s2 := if si_stop init
            then sup_set_thread s1 (signal_stop (sp_thread s1)) else s1 in
  if (th_running (sp_thread s2) =? 0)
     || negb (th_shutdown_requested (sp_thread s2) =? 0)
  then (g, s2, true)
  else
    let '(g', s3, exited) := sup_loop stream_name evs g s2 in
    if exited then (g', close_input s3, true) else (g', s3, false).

End Worker.

(* ================================================================== *)
(** * Properties of traces *)

(** The values of [int64_t]. *)
Definition in_int64 (z : Z) : Prop := - 2 ^ 63 <= z < 2 ^ 63.

(** A packet as [av_read_frame] delivers it: 64-bit timestamps. *)
Definition wf_packet (p : AVPacket) : Prop :=
  in_int64 (dts p) /\ in_int64 (pts p).
Definition wf_event (e : loop_event) : Prop := wf_packet (ev_pkt e).

Definition is_trailer (op : io_op) : bool :=
  match op with OpWriteTrailer _ => true | _ => false end.
Definition is_close (op : io_op) : bool :=
  match op with OpAvioClose => true | _ => false end.
Definition is_open_ok (op : io_op) : bool :=
  match op with OpAvioOpen r => 0 <=? r | _ => false end.

(** How many times the trailer was written and the file closed, and whether
    [avio_open] succeeded. *)
Definition count_trailers (tr : list io_op) : nat := List.length (filter is_trailer tr).
Definition count_closes (tr : list io_op) : nat := List.length (filter is_close tr).
Definition avio_opened (tr : list io_op) : bool := existsb is_open_ok tr.

(** Effects that the loop itself can add. *)
Definition is_loop_op (op : io_op) : bool :=
  match op with OpSleep _ | OpWriteFrame _ _ _ => true | _ => false end.

Fixpoint nondecreasing (l : list Z) : bool :=
  match l with
  | a :: (b :: _) as t => (a <=? b) && nondecreasing t
  | _ => true
  end.

(** The invariant of one output file as the specification words it: DTS
    never decreases from one written packet to the next, DTS and PTS are at
    most 2^31 - 1, and PTS is at least DTS. *)
Definition file_timestamps_ok (ws : list (write_path * AVPacket)) : bool :=
  nondecreasing (map (fun wp => dts (snd wp)) ws)
  && forallb (fun wp => (dts (snd wp) <=? MP4_DTS_LIMIT)
                        && (pts (snd wp) <=? MP4_DTS_LIMIT)
                        && (dts (snd wp) <=? pts (snd wp))) ws.

(** What the code guarantees of a submitted packet, by the place that
    submits it. *)
Definition packet_ok (wp : write_path * AVPacket) : Prop :=
  let p := snd wp in
  has_ts (dts p) = true ->
  match fst wp with
  | VideoCopy => has_ts (pts p) = true -> dts p <= pts p
  | VideoFinal =>
      dts p <= MP4_DTS_SAFE /\ (has_ts (pts p) = true -> dts p <= pts p)
  | AudioCopy => dts p <= MP4_DTS_SAFE
  end.

(** What the code guarantees of an audio packet relative to the audio
    packets before it. *)
Definition audio_step_ok (s : loop_state) (p : AVPacket) : Prop :=
  has_ts (dts p) = true ->
  (last_audio_dts s < dts p \/ dts p = 1000)
  /\ (has_ts (pts p) = true -> dts p <= pts p).

(** An iteration that reads a packet of stream [a]. *)
Definition reads_stream (a : Z) (e : loop_event) : bool :=
  (0 <=? ev_read_ret e) && (stream_index (ev_pkt e) =? a).

(** The audio packets among the submissions, each with the muxer's return
    value. *)
Definition audio_of (subs : list (write_path * AVPacket * Z))
  : list (AVPacket * Z) :=
  flat_map (fun x => match x with
                     | (AudioCopy, p, r) => [(p, r)]
                     | _ => []
                     end) subs.

(** After the audio submissions [l]: how many audio packets the muxer has
    accepted, starting from [n] (the code's [audio_packet_count]), and the
    DTS of the last audio packet submitted with one, starting from [d] (the
    code's [last_audio_dts]). *)
Fixpoint audio_accepted (n : nat) (l : list (AVPacket * Z)) : nat :=
  match l with
  | [] => n
  | (_, r) :: l' => audio_accepted (if 0 <=? r then S n else n) l'
  end.

Fixpoint audio_last (d : Z) (l : list (AVPacket * Z)) : Z :=
  match l with
  | [] => d
  | (p, _) :: l' => audio_last (if has_ts (dts p) then dts p else d) l'
  end.

(** What the code guarantees of the audio packets of one file, in the order
    of submission: once the muxer has accepted an audio packet, an audio
    packet that carries a DTS has a DTS above that of the last audio packet
    that carried one, unless the overflow guard made it 1000, and a PTS, if
    it carries one, of at least its DTS. *)
Fixpoint audio_ordered (n : nat) (d : Z) (l : list (AVPacket * Z)) : Prop :=
  match l with
  | [] => True
  | (p, r) :: l' =>
      ((0 < n)%nat -> has_ts (dts p) = true ->
       (d < dts p \/ dts p = 1000)
       /\ (has_ts (pts p) = true -> dts p <= pts p))
      /\ audio_ordered (if 0 <=? r then S n else n)
           (if has_ts (dts p) then dts p else d) l'
  end.

(** Effects of the worker by kind. *)
Definition seg_calls (tr : list sup_op) : list (string * Z) :=
  flat_map (fun op => match op with
                      | SegCall f d _ _ => [(f, d)]
                      | _ => []
                      end) tr.
Definition cat_adds (tr : list sup_op) : list recording_metadata_t :=
  flat_map (fun op => match op with CatAdd m _ => [m] | _ => [] end) tr.
Definition cat_updates (tr : list sup_op) : list (Z * bool) :=
  flat_map (fun op => match op with
                      | CatUpdate id _ _ c => [(id, c)]
                      | _ => []
                      end) tr.
Definition backoffs (tr : list sup_op) : list Z :=
  flat_map (fun op => match op with SupSleep u => [u] | _ => [] end) tr.
Definition forced_closes (tr : list sup_op) : nat :=
  List.length (filter (fun op => match op with CloseInput => true | _ => false end) tr).



(** The packets written by the calls of a worker that have returned, call
    by call. *)
Definition session_written (tr : list sup_op)
  : list (list (write_path * AVPacket)) :=
  flat_map (fun op => match op with
                      | SegReturn res => [written (r_trace res)]
                      | _ => []
                      end) tr.

(** The configuration store has no positive segment duration for the
    stream at this iteration. *)
Definition no_db_duration (e : sup_event) : Prop :=
  match sv_db_config e with
  | Some db_stream_config => cfg_segment_duration db_stream_config <= 0
  | None => True
  end.

(** The whole of the specification's boundary case for a segment duration
    of zero, on the effects of a worker whose first file is [path]: every
    call of [record_segment] writes to [path] with duration 0, and at most
    the initial metadata record is published. *)
Definition zero_duration_as_specified (path : string) (tr : list sup_op) : Prop :=
  Forall (fun fd => fd = (path, 0)) (seg_calls tr)
  /\ (List.length (cat_adds tr) <= 1)%nat.

(* ================================================================== *)
(** * Two workers in one process *)

Section TwoWorkers.

Variable av_rescale_q : Z -> AVRational -> AVRational -> Z.
Variable MAX_PATH_LENGTH : nat.
Variable sizeof_md_stream_name : nat.
Variable sizeof_md_file_path : nat.

(** Which of the two workers runs its next loop iteration. *)
Inductive worker_id := WorkerA | WorkerB.

(** Two worker threads take turns, one loop iteration at a time.  Each has
    its own [sup_state]; the function-statics [g] are the same cells for
    both. *)
Fixpoint two_workers (name_a name_b : string)
  (schedule : list (worker_id * sup_event)) (g : statics) (a b : sup_state)
  : statics * sup_state * sup_state :=
  match schedule with
  | [] => (g, a, b)
  | (WorkerA, e) :: rest =>
      let '(g', a', _) :=
        sup_iter av_rescale_q MAX_PATH_LENGTH sizeof_md_stream_name
          sizeof_md_file_path name_a e g a in
      two_workers name_a name_b rest g' a' b
  | (WorkerB, e) :: rest =>
      let '(g', b', _) :=
        sup_iter av_rescale_q MAX_PATH_LENGTH sizeof_md_stream_name
          sizeof_md_file_path name_b e g b in
      two_workers name_a name_b rest g' a b'
  end.

End TwoWorkers.

(* ================================================================== *)
(** * Concrete inputs *)

Module Sample.

(** A stand-in for [av_rescale_q]: [a * bq / cq] rounded to nearest. *)
Definition rescale (a : Z) (bq cq : AVRational) : Z :=
  (a * num bq * den cq + (num cq * den bq) / 2) / (num cq * den bq).

(** A camera with one video stream at 25 fps in a 90 kHz time base and one
    16-bit mono audio stream at 8 kHz. *)
Definition cam : AVFormatContext :=
  mkInput
    [mkStream AVMEDIA_TYPE_VIDEO (mkRational 25 1) (mkRational 1 90000) 0 0 0;
     mkStream AVMEDIA_TYPE_AUDIO (mkRational 0 0) (mkRational 1 8000) 8000 1 16].

Definition video_pkt (key : bool) (d p : Z) : AVPacket :=
  mkPacket 0 (if key then AV_PKT_FLAG_KEY else 0) d p 0 100.
Definition audio_pkt (d p : Z) : AVPacket := mkPacket 1 0 d p 0 320.

(** An iteration at clock [t] (microseconds) that reads [p] and writes it
    without error; an iteration that reads the end of the stream. *)
Definition read_at (t : Z) (p : AVPacket) : loop_event :=
  mkEvent false t 0 p t t t 0.
Definition eof_at (t : Z) : loop_event :=
  mkEvent false t AVERROR_EOF (video_pkt false 0 0) t t t 0.

(** A call in which every library call succeeds. *)
Definition seg_ok (t0 : Z) (evs : list loop_event) : seg_env :=
  mkSegEnv (0, cam) 0 (0, true) true 0 true 0 0 0 t0 evs 0 0 false.

(** A call whose [avformat_open_input] fails with [-5]. *)
Definition seg_open_fails : seg_env :=
  mkSegEnv (-5, cam) 0 (0, true) true 0 true 0 0 0 0 [] 0 0 false.

(** A call whose [avformat_alloc_output_context2] fails with [-12]. *)
Definition seg_alloc_fails : seg_env :=
  mkSegEnv (0, cam) 0 (-12, false) true 0 true 0 0 0 0 [] 0 0 false.

(** A call whose trailer cannot be written. *)
Definition seg_trailer_fails (evs : list loop_event) : seg_env :=
  mkSegEnv (0, cam) 0 (0, true) true 0 true 0 0 0 0 evs (-28) 0 true.

Definition no_stat : string -> option Z := fun _ => None.

Definition writer0 (path : string) (segment_duration : Z) : mp4_writer_t :=
  mkWriter "cam1" "/rec" path segment_duration 1 0 0 0 0 None 0.

Definition thread0 : mp4_writer_thread_t := mkThread 1 0 "rtsp://cam/1".

Definition init0 : sup_init := mkSupInit 0 7 false.

(** A worker iteration at wall-clock second [now] around the call [seg]. *)
Definition iter_at (now : Z) (add_id : Z) (seg : seg_env) : sup_event :=
  mkSupEvent false false now None "20240101_000000" add_id no_stat seg
    now now no_stat.

(** The statics of a fresh process. *)
Definition statics0 : statics := mkStatics 0 0 0.

(** The segment information the worker starts a session with. *)
Definition first_info : segment_info_t := mkSegInfo 0 false false.

(** Audio that reaches 0x70000001 ticks after a key frame. *)
Definition audio_reaches_guard : list loop_event :=
  [read_at 0 (video_pkt true 0 0);
   read_at 10 (audio_pkt 0 0);
   read_at 20 (audio_pkt 5000 5000);
   read_at 30 (audio_pkt 0x70000001 0x70000001)].

(** Video whose second packet lies 2^31 + 100 ticks after the first. *)
Definition video_passes_limit : list loop_event :=
  [read_at 0 (video_pkt true 0 0);
   read_at 40000 (video_pkt false (2 ^ 31 + 100) (2 ^ 31 + 100))].

(** A session whose first packet has a DTS just below 2^31. *)
Definition first_dts_near_limit : list loop_event :=
  [read_at 0 (video_pkt true (2 ^ 31 - 5) (2 ^ 31 - 5)); eof_at 100].

(** Two consecutive 30 s segments of one source, clocks in microseconds:
    the first ends on the key frame at 29.04 s, the second starts at
    29.1 s and is within one second of its limit at 58.1 s, when a frame
    that is not a key frame arrives. *)
Definition first_call : seg_env :=
  seg_ok 0
    [read_at 0 (video_pkt true 0 0);
     read_at 29000000 (video_pkt false 3600 3600);
     read_at 29040000 (video_pkt true 7200 7200)].
Definition second_call_before_limit : list loop_event :=
  [read_at 29100000 (video_pkt false 10800 10800)].
Definition second_call : seg_env :=
  seg_ok 29100000
    (second_call_before_limit ++ [read_at 58100000 (video_pkt false 14400 14400)]).

(** A worker that holds an open input, and an iteration whose segment
    fails. *)
Definition worker0 (name : string) : sup_state :=
  mkSup thread0
    (mkWriter name "/rec" "/rec/a.mp4" 30 1 0 0 0 0 None 0)
    (Some cam) first_info [].
Definition failing_iter : sup_event := iter_at 5 0 seg_alloc_fails.

(** A worker whose file is 40 s old and has the catalog record 7, and an
    iteration at second 40 in which the catalog refuses the new record and
    the new file has 4096 bytes afterwards. *)
Definition rotating_worker : sup_state :=
  mkSup thread0
    (mkWriter "cam1" "/rec" "/rec/a.mp4" 30 1 0 0 7 0 None 0)
    (Some cam) (mkSegInfo 1 true true) [].
Definition rotation_add_fails : sup_event :=
  mkSupEvent false false 40 None "20240101_000040" 0 (fun _ => Some 1000)
    (seg_ok 0 first_dts_near_limit) 40 41 (fun _ => Some 4096).

(** A session of two iterations without configured segment duration. *)
Definition unconfigured_session : list sup_event :=
  [iter_at 100 8 (seg_ok 0 first_dts_near_limit);
   iter_at 200 9 (seg_ok 0 first_dts_near_limit)].

End Sample.

(* ================================================================== *)
(** * Arithmetic of the machine integers *)

Lemma wrap64_range (z : Z) : - 2 ^ 63 <= wrap64 z < 2 ^ 63.
Proof. unfold wrap64. pose proof (Z.mod_pos_bound (z + 2 ^ 63) (2 ^ 64)). lia. Qed.

Lemma wrap64_id (z : Z) : - 2 ^ 63 <= z < 2 ^ 63 -> wrap64 z = z.
Proof.
  intros H. unfold wrap64. rewrite Z.mod_small; lia.
Qed.

Lemma wrap32_id (z : Z) : - 2 ^ 31 <= z < 2 ^ 31 -> wrap32 z = z.
Proof.
  intros H. unfold wrap32. rewrite Z.mod_small; lia.
Qed.

Lemma has_ts_true (t : Z) : has_ts t = true <-> t <> AV_NOPTS_VALUE.
Proof.
  unfold has_ts. rewrite negb_true_iff, Z.eqb_neq. tauto.
Qed.

Lemma has_ts_false (t : Z) : has_ts t = false <-> t = AV_NOPTS_VALUE.
Proof.
  unfold has_ts. rewrite negb_false_iff, Z.eqb_eq. tauto.
Qed.

(* ================================================================== *)
(** * [mp4_writer_is_recording] *)

(** C10: [mp4_writer_is_recording] returns 0 for a NULL writer and for a
    writer without worker context, except that a writer whose [is_rotating]
    flag is set makes it return 1 whatever its worker context is (absent,
    or present with any value of [running]). *)
Theorem C10_is_recording :
  mp4_writer_is_recording None = 0
  /\ (forall w, w_is_rotating w = 0 -> w_thread_ctx w = None ->
                mp4_writer_is_recording (Some w) = 0)
  /\ (forall w, w_is_rotating w <> 0 -> mp4_writer_is_recording (Some w) = 1).
Proof.
  split; [reflexivity|]. split.
  - intros w Hrot Hctx. unfold mp4_writer_is_recording.
    rewrite Hrot, Hctx. reflexivity.
  - intros w Hrot. unfold mp4_writer_is_recording.
    apply Z.eqb_neq in Hrot. rewrite Hrot. reflexivity.
Qed.

Lemma C10_is_recording_witness :
  mp4_writer_is_recording (Some (mkWriter "cam1" "/rec" "/rec/a.mp4" 30 0 0 0 1 0 None 0)) = 0
  /\ mp4_writer_is_recording
       (Some (mkWriter "cam1" "/rec" "/rec/a.mp4" 30 0 0 0 1 1 None 0)) = 1
  /\ mp4_writer_is_recording
       (Some (mkWriter "cam1" "/rec" "/rec/a.mp4" 30 0 0 0 1 1
                (Some (mkThread 0 1 "rtsp://cam/1")) 0)) = 1.
Proof.
  destruct C10_is_recording as [_ [H0 H1]].
  split; [apply H0; reflexivity|].
  split; apply H1; simpl; discriminate.
Defined.

(* ================================================================== *)
(** * What the loop leaves alone *)

Ltac break_if :=
  match goal with
  | |- context [if ?b then _ else _] => destruct b eqn:?
  | |- context [match ?x with Some _ => _ | None => _ end] => destruct x eqn:?
  | |- context [let '(_, _) := ?x in _] => destruct x eqn:?
  end.

(** The loop only adds sleeps and frame writes to the effects, and a NULL
    [prev_segment_info] stays NULL while a struct stays a struct. *)
Definition loop_frame (s s' : loop_state) : Prop :=
  (exists ops, trace s' = trace s ++ ops /\ forallb is_loop_op ops = true)
  /\ (prev_segment_info s = None <-> prev_segment_info s' = None).

Lemma loop_frame_refl (s : loop_state) : loop_frame s s.
Proof.
  split; [exists []; rewrite app_nil_r; auto | tauto].
Qed.

Lemma loop_frame_trans (s1 s2 s3 : loop_state) :
  loop_frame s1 s2 -> loop_frame s2 s3 -> loop_frame s1 s3.
Proof.
  intros [[o1 [E1 F1]] P1] [[o2 [E2 F2]] P2]. split; [|tauto].
  exists (o1 ++ o2). rewrite E2, E1, app_assoc. split; [reflexivity|].
  rewrite forallb_app, F1, F2. reflexivity.
Qed.

Lemma loop_frame_same (s s' : loop_state) :
  trace s' = trace s -> prev_segment_info s' = prev_segment_info s ->
  loop_frame s s'.
Proof.
  intros Ht Hp. split; [exists []; rewrite app_nil_r; auto | rewrite Hp; tauto].
Qed.

Lemma loop_frame_emit (s s' : loop_state) (op : io_op) :
  is_loop_op op = true ->
  trace s' = trace s ++ [op] ->
  (prev_segment_info s = None <-> prev_segment_info s' = None) ->
  loop_frame s s'.
Proof.
  intros Hop Ht Hp. split; [|exact Hp].
  exists [op]. split; [exact Ht | simpl; rewrite Hop; reflexivity].
Qed.

Lemma store_last_frame_was_key_none (pi : option segment_info_t) (b : bool) :
  pi = None <-> store_last_frame_was_key pi b = None.
Proof. destruct pi; simpl; split; congruence. Qed.

Section LoopFacts.

Variable av_rescale_q : Z -> AVRational -> AVRational -> Z.

Lemma check_shutdown_frame e s : loop_frame s (check_shutdown e s).
Proof.
  unfold check_shutdown. break_if; [|apply loop_frame_refl].
  apply loop_frame_same; reflexivity.
Qed.

Lemma check_duration_frame c e s : loop_frame s (check_duration c e s).
Proof.
  unfold check_duration.
  repeat break_if; try apply loop_frame_refl; apply loop_frame_same; reflexivity.
Qed.

Lemma video_copy_frame c e s pkt : loop_frame s (video_copy av_rescale_q c e s pkt).
Proof.
  unfold video_copy. destruct (init_first _ _ pkt) as [fd fp].
  break_if; (eapply loop_frame_emit; [| simpl; reflexivity | simpl; tauto]);
    reflexivity.
Qed.

Lemma final_video_frame_frame c e s pkt k :
  loop_frame s (final_video_frame av_rescale_q c e s pkt k).
Proof.
  unfold final_video_frame.
  destruct (init_first _ _ pkt) as [fd fp].
  eapply loop_frame_emit; [| simpl; reflexivity |]; [reflexivity|].
  simpl. apply store_last_frame_was_key_none.
Qed.

Lemma audio_packet_frame c e s pkt : loop_frame s (audio_packet av_rescale_q c e s pkt).
Proof.
  unfold audio_packet. break_if; [apply loop_frame_refl|].
  destruct (init_first _ _ pkt) as [fd fp].
  break_if; (eapply loop_frame_emit; [| simpl; reflexivity | simpl; tauto]);
    reflexivity.
Qed.

Lemma video_packet_frame c e s pkt :
  loop_frame s (fst (video_packet av_rescale_q c e s pkt)).
Proof.
  unfold video_packet.
  set (k := negb (Z.land (flags pkt) AV_PKT_FLAG_KEY =? 0)).
  assert (Hfound : forall t, loop_frame s (set_found_first s t))
    by (intro t; apply loop_frame_same; reflexivity).
  assert (Hrest : forall s1, loop_frame s s1 ->
    loop_frame s
      (fst (if waiting_for_final_keyframe s1
            then
              let s2 := if waiting_start_time s1 =? 0
                        then set_waiting_start s1 (ev_t_wait0 e) else s1 in
              if k || (Z.quot (wrap64 (ev_t_wait e - waiting_start_time s2)) 1000000 >? 2)
              then (final_video_frame av_rescale_q c e s2 pkt k, true)
              else (video_copy av_rescale_q c e s2 pkt, false)
            else (video_copy av_rescale_q c e s1 pkt, false)))).
  { intros s1 H1.
    destruct (waiting_for_final_keyframe s1).
    - cbv zeta.
      assert (H2 : loop_frame s
                (if waiting_start_time s1 =? 0
                 then set_waiting_start s1 (ev_t_wait0 e) else s1)).
      { break_if; [|exact H1].
        eapply loop_frame_trans; [exact H1|]. apply loop_frame_same; reflexivity. }
      break_if; simpl; (eapply loop_frame_trans; [exact H2|]).
      + apply final_video_frame_frame.
      + apply video_copy_frame.
    - simpl. eapply loop_frame_trans; [exact H1|]. apply video_copy_frame. }
  destruct (found_first_keyframe s); simpl.
  - apply Hrest, loop_frame_refl.
  - destruct (prev_last_frame_was_key (prev_segment_info s) && (lc_segment_index c >? 0)).
    + apply Hrest, Hfound.
    + destruct k eqn:Hk.
      * apply Hrest, Hfound.
      * simpl. apply loop_frame_refl.
Qed.

Lemma loop_iter_frame c e s : loop_frame s (fst (loop_iter av_rescale_q c e s)).
Proof.
  unfold loop_iter.
  set (s1 := check_duration c e (check_shutdown e s)).
  assert (H1 : loop_frame s s1).
  { eapply loop_frame_trans; [apply check_shutdown_frame | apply check_duration_frame]. }
  assert (H2 : loop_frame s (set_ret s1 (ev_read_ret e))).
  { eapply loop_frame_trans; [exact H1|]. apply loop_frame_same; reflexivity. }
  repeat break_if; simpl; try exact H2.
  - eapply loop_frame_trans; [exact H2|].
    eapply loop_frame_emit; [| simpl; reflexivity | simpl; tauto]; reflexivity.
  - eapply loop_frame_trans; [exact H2 | apply video_packet_frame].
  - eapply loop_frame_trans; [exact H2 | apply audio_packet_frame].
Qed.

Lemma copy_loop_frame c evs : forall s,
  loop_frame s (fst (copy_loop av_rescale_q c evs s)).
Proof.
  induction evs as [|e evs IH]; intros s; simpl.
  - apply loop_frame_refl.
  - pose proof (loop_iter_frame c e s) as H.
    destruct (loop_iter av_rescale_q c e s) as [s' brk]. simpl in H.
    destruct brk; simpl; [exact H|].
    eapply loop_frame_trans; [exact H | apply IH].
Qed.

(** An iteration that reads the end of the stream leaves the loop. *)
Lemma loop_iter_eof c e s :
  ev_read_ret e = AVERROR_EOF -> snd (loop_iter av_rescale_q c e s) = true.
Proof.
  intros H. unfold loop_iter. rewrite H. reflexivity.
Qed.

(** The loop is left as soon as the source ends: a supplied end of stream
    is enough for the loop to finish. *)
Lemma copy_loop_leaves c evs : forall s,
  Exists (fun e => ev_read_ret e = AVERROR_EOF) evs ->
  snd (copy_loop av_rescale_q c evs s) = true.
Proof.
  induction evs as [|e evs IH]; intros s H.
  - inversion H.
  - simpl. destruct (loop_iter av_rescale_q c e s) as [s' brk] eqn:E.
    destruct brk; [reflexivity|].
    inversion H as [? ? He | ? ? Hrest]; subst.
    + pose proof (loop_iter_eof c e s He) as Hb. rewrite E in Hb. discriminate.
    + apply IH, Hrest.
Qed.

End LoopFacts.

(* ================================================================== *)
(** * Set-up, clean-up and the segment information *)

Lemma count_trailers_app (a b : list io_op) :
  count_trailers (a ++ b) = (count_trailers a + count_trailers b)%nat.
Proof. unfold count_trailers. rewrite filter_app, length_app. reflexivity. Qed.

Lemma count_closes_app (a b : list io_op) :
  count_closes (a ++ b) = (count_closes a + count_closes b)%nat.
Proof. unfold count_closes. rewrite filter_app, length_app. reflexivity. Qed.

Lemma avio_opened_app (a b : list io_op) :
  avio_opened (a ++ b) = avio_opened a || avio_opened b.
Proof. unfold avio_opened. apply existsb_app. Qed.

(** Sleeps and frame writes are neither trailers, nor closes, nor opens. *)
Lemma loop_ops_neutral (ops : list io_op) :
  forallb is_loop_op ops = true ->
  count_trailers ops = 0%nat /\ count_closes ops = 0%nat /\ avio_opened ops = false.
Proof.
  induction ops as [|op ops IH]; intros H; [repeat split|].
  simpl in H. apply andb_true_iff in H as [Hop Hops].
  destruct (IH Hops) as [A [B C]].
  unfold count_trailers, count_closes, avio_opened in *.
  destruct op; simpl in *; try discriminate; auto.
Qed.

(** A trace without frame write, trailer and close, whose [avio_open]
    succeeded iff [opened]. *)
Definition quiet (tr : list io_op) (opened : bool) : Prop :=
  count_trailers tr = 0%nat /\ count_closes tr = 0%nat
  /\ avio_opened tr = opened /\ written tr = [].

Lemma written_app (a b : list io_op) : written (a ++ b) = written a ++ written b.
Proof.
  induction a as [|op a IH]; [reflexivity|].
  destruct op; simpl; rewrite ?IH; reflexivity.
Qed.

Lemma quiet_nil : quiet [] false.
Proof. repeat split. Qed.

Lemma quiet_snoc (tr : list io_op) (op : io_op) (o : bool) :
  quiet tr false -> is_trailer op = false -> is_close op = false ->
  written [op] = [] -> is_open_ok op = o -> quiet (tr ++ [op]) o.
Proof.
  intros [A [B [C D]]] Ht Hc Hw Ho. unfold quiet.
  rewrite count_trailers_app, count_closes_app, avio_opened_app, written_app,
    A, B, C, D, Hw.
  unfold count_trailers, count_closes, avio_opened. simpl.
  rewrite Ht, Hc, Ho. simpl. rewrite orb_false_r. auto.
Qed.

Lemma quiet_snoc_opened (tr : list io_op) (op : io_op) :
  quiet tr true -> is_trailer op = false -> is_close op = false ->
  written [op] = [] -> quiet (tr ++ [op]) true.
Proof.
  intros [A [B [C D]]] Ht Hc Hw. unfold quiet.
  rewrite count_trailers_app, count_closes_app, avio_opened_app, written_app,
    A, B, C, D, Hw.
  unfold count_trailers, count_closes. simpl.
  rewrite Ht, Hc. auto.
Qed.

(** The outcome of the set-up: before the loop there is neither trailer nor
    close; [pb] is set exactly when [avio_open] succeeded, and then
    [output_ctx] is set too and a failure has a negative return value. *)
Definition setup_facts (r : setup_result) : Prop :=
  match r with
  | SetupFailed ret _ output_ctx pb tr =>
      quiet tr pb /\ (pb = true -> output_ctx = true /\ ret < 0)
  | SetupReady _ _ _ _ tr => quiet tr true
  end.

Lemma setup_output_facts env input_ctx ha tr :
  quiet tr false -> setup_facts (setup_output env input_ctx ha tr).
Proof.
  intros Q. unfold setup_output.
  destruct (find_streams input_ctx) as [v a].
  destruct (v <? 0); [simpl; split; [exact Q | discriminate]|].
  destruct (se_alloc_output env) as [r_alloc o].
  assert (Q1 : quiet (tr ++ [OpAllocOutput r_alloc]) false)
    by (apply quiet_snoc; auto).
  destruct ((r_alloc <? 0) || negb o); [simpl; split; [exact Q1 | discriminate]|].
  destruct (negb (se_new_video_stream env)); [simpl; split; [exact Q1 | discriminate]|].
  destruct (se_copy_video_params env <? 0); [simpl; split; [exact Q1 | discriminate]|].
  destruct (((a >=? 0) && negb (ha =? 0)) && negb (se_new_audio_stream env));
    [simpl; split; [exact Q1 | discriminate]|].
  destruct (((a >=? 0) && negb (ha =? 0)) && (se_copy_audio_params env <? 0));
    [simpl; split; [exact Q1 | discriminate]|].
  destruct (se_avio_open env <? 0) eqn:Hopen.
  - simpl. split; [|discriminate].
    apply quiet_snoc; auto. simpl. apply Z.ltb_lt in Hopen. apply Z.leb_gt. lia.
  - assert (Q2 : quiet ((tr ++ [OpAllocOutput r_alloc]) ++ [OpAvioOpen (se_avio_open env)]) true).
    { apply quiet_snoc; auto. simpl. apply Z.ltb_ge in Hopen. apply Z.leb_le. lia. }
    destruct (se_write_header env <? 0) eqn:Hhdr; simpl.
    + split; [apply quiet_snoc_opened; auto|].
      intros _. apply Z.ltb_lt in Hhdr. auto.
    + apply quiet_snoc_opened; auto.
Qed.

Lemma setup_has_facts env slot ha : setup_facts (setup env slot ha).
Proof.
  unfold setup. destruct slot as [input_ctx|].
  - apply setup_output_facts, quiet_nil.
  - destruct (se_open_input env) as [r_open input_ctx].
    destruct (r_open <? 0); [simpl; split; [repeat split | discriminate]|].
    destruct (se_find_stream_info env <? 0);
      [simpl; split; [repeat split | discriminate]|].
    apply setup_output_facts. repeat split.
Qed.

Section SegmentFacts.

Variable av_rescale_q : Z -> AVRational -> AVRational -> Z.

(** [record_segment] returns whenever the source eventually ends. *)
Lemma record_segment_returns env d slot ha prev wst :
  Exists (fun e => ev_read_ret e = AVERROR_EOF) (se_events env) ->
  exists res, record_segment av_rescale_q env d slot ha prev wst = Some res.
Proof.
  intros H. unfold record_segment.
  destruct (setup env slot ha) as [r s o pb tr | ictx v a oa tr]; [eauto|].
  match goal with |- context [copy_loop ?f ?c ?evs ?s0] =>
    pose proof (copy_loop_leaves f c evs s0 H) as Hb;
    destruct (copy_loop f c evs s0) as [s brk] end.
  simpl in Hb. subst brk. eauto.
Qed.

(** C7: in every execution of [record_segment] that returns, the trailer is
    written at most once, counting the main path and the clean-up together;
    and if [avio_open] succeeded, the effects end with the close of the I/O
    handle followed by the release of the output context, the close being
    the only one.  This holds whatever [av_write_trailer] returned. *)
Theorem C7_trailer_once_and_closed env d slot ha prev wst res :
  record_segment av_rescale_q env d slot ha prev wst = Some res ->
  (count_trailers (r_trace res) <= 1)%nat
  /\ (avio_opened (r_trace res) = true ->
      exists tr', r_trace res = tr' ++ [OpAvioClose; OpFreeOutput]
                  /\ count_closes tr' = 0%nat).
Proof.
  unfold record_segment.
  pose proof (setup_has_facts env slot ha) as F.
  destruct (setup env slot ha) as [r s o pb tr | ictx v a oa tr]; simpl in F.
  - destruct F as [[A [B [C _]]] Hpb]. intros H. injection H as <-. simpl.
    unfold cleanup. destruct pb.
    + destruct (Hpb eq_refl) as [Ho Hr]. subst o.
      assert (Hge : (r >=? 0) = false) by (rewrite Z.geb_leb; apply Z.leb_gt; lia).
      rewrite Hge. simpl. split.
      * rewrite !count_trailers_app, A. unfold count_trailers. simpl. lia.
      * intros _. exists tr. rewrite <- app_assoc. auto.
    + simpl. destruct o.
      * split.
        -- rewrite count_trailers_app, A. unfold count_trailers. simpl. lia.
        -- rewrite avio_opened_app, C. unfold avio_opened. simpl. discriminate.
      * split; [rewrite A; lia | rewrite C; discriminate].
  - destruct F as [A [B [C _]]].
    match goal with |- context [copy_loop ?f ?c ?evs ?s0] =>
      pose proof (copy_loop_frame f c evs s0) as Hf;
      destruct (copy_loop f c evs s0) as [s brk] end.
    simpl in Hf. destruct Hf as [[ops [Ht Hops]] _]. simpl in Ht.
    destruct (loop_ops_neutral ops Hops) as [A' [B' C']].
    destruct brk; [|discriminate].
    intros H. injection H as <-. simpl.
    unfold cleanup. simpl.
    assert (Hno : (se_write_trailer env >=? 0)
                  && negb (negb (se_write_trailer env <? 0)) = false).
    { rewrite negb_involutive.
      destruct (se_write_trailer env <? 0) eqn:E.
      - apply Z.ltb_lt in E. rewrite andb_true_r, Z.geb_leb. apply Z.leb_gt. lia.
      - apply andb_false_r. }
    rewrite Hno. split.
    + rewrite Ht, !count_trailers_app, A, A'. unfold count_trailers. simpl. lia.
    + intros _. exists (trace s ++ [OpWriteTrailer (se_write_trailer env)]).
      rewrite <- app_assoc. split; [reflexivity|].
      rewrite Ht, !count_closes_app, B, B'. reflexivity.
Qed.

(** C8: a call with segment information [i] that reaches the packet loop
    and returns leaves [segment_index i + 1] in the segment information,
    whatever it returns; a call that leaves through [goto cleanup] before
    the loop leaves the segment information as it was. *)
Theorem C8_segment_index env d slot ha i wst res :
  - 2 ^ 31 <= segment_index i < 2 ^ 31 - 1 ->
  record_segment av_rescale_q env d slot ha (Some i) wst = Some res ->
  match segment_loop av_rescale_q env d slot ha (Some i) wst with
  | Some _ =>
      exists i', r_prev_segment_info res = Some i'
                 /\ segment_index i' = segment_index i + 1
  | None => r_prev_segment_info res = Some i
  end.
Proof.
  intros Hrange. unfold record_segment, segment_loop.
  destruct (setup env slot ha) as [r s o pb tr | ictx v a oa tr].
  - intros H. injection H as <-. reflexivity.
  - match goal with |- context [copy_loop ?f ?c ?evs ?s0] =>
      pose proof (copy_loop_frame f c evs s0) as Hf;
      destruct (copy_loop f c evs s0) as [s brk] end.
    simpl in Hf. destruct Hf as [_ Hp].
    destruct brk; [|discriminate].
    intros H. injection H as <-. simpl.
    destruct (prev_segment_info s) as [j|] eqn:Ej.
    + simpl. eexists. split; [reflexivity|]. simpl.
      apply wrap32_id. lia.
    + assert (Some i = None) by (apply Hp; reflexivity). discriminate.
Qed.

End SegmentFacts.

(* ================================================================== *)
(** * The rebaser *)

Ltac zprop :=
  repeat match goal with
  | H : (_ <? _) = true |- _ => apply Z.ltb_lt in H
  | H : (_ <? _) = false |- _ => apply Z.ltb_ge in H
  | H : (_ <=? _) = true |- _ => apply Z.leb_le in H
  | H : (_ <=? _) = false |- _ => apply Z.leb_gt in H
  | H : (_ >? _) = _ |- _ => rewrite Z.gtb_ltb in H
  | H : (_ >=? _) = _ |- _ => rewrite Z.geb_leb in H
  | H : (_ =? _) = true |- _ => apply Z.eqb_eq in H
  | H : (_ =? _) = false |- _ => apply Z.eqb_neq in H
  | H : has_ts _ = true |- _ => apply has_ts_true in H
  | H : has_ts _ = false |- _ => apply has_ts_false in H
  | H : is_nopts _ = true |- _ => apply Z.eqb_eq in H
  | H : is_nopts _ = false |- _ => apply Z.eqb_neq in H
  | H : _ && _ = true |- _ => apply andb_true_iff in H as [? ?]
  | H : _ || _ = false |- _ => apply orb_false_iff in H as [? ?]
  end.

Ltac consts := unfold MP4_DTS_SAFE, MP4_DTS_LIMIT, AV_NOPTS_VALUE, in_int64 in *.

Lemma fix_pts_ge_dts_spec (p : AVPacket) :
  dts (fix_pts_ge_dts p) = dts p
  /\ (has_ts (pts (fix_pts_ge_dts p)) = true -> has_ts (dts p) = true ->
      dts p <= pts (fix_pts_ge_dts p))
  /\ (pts (fix_pts_ge_dts p) = pts p \/ pts (fix_pts_ge_dts p) = dts p).
Proof.
  unfold fix_pts_ge_dts.
  destruct (has_ts (pts p) && has_ts (dts p) && (pts p <? dts p)) eqn:E; simpl.
  - split; [reflexivity|]. split; [lia | auto].
  - split; [reflexivity|]. split; [|auto].
    intros Hp Hd. rewrite Hp, Hd in E. simpl in E. zprop. lia.
Qed.

(** The three ways through the overflow guard for a packet with a DTS. *)
Lemma overflow_guard_spec (p : AVPacket) :
  has_ts (dts p) = true ->
  (dts p <= MP4_DTS_SAFE /\ overflow_guard p = p)
  \/ (MP4_DTS_SAFE < dts p <= MP4_DTS_LIMIT
      /\ dts (overflow_guard p) = 1000
      /\ pts (overflow_guard p) = (if has_ts (pts p) then 1001 else 1000))
  \/ (MP4_DTS_LIMIT < dts p
      /\ dts (overflow_guard p) = 1000
      /\ pts (overflow_guard p) =
           (if has_ts (pts p) then
              if wrap64 (pts p - 1000) >=? 0
              then wrap64 (1000 + wrap64 (pts p - 1000)) else 1000
            else 1000)).
Proof.
  intros Hd. unfold overflow_guard. rewrite Hd.
  destruct (dts p >? MP4_DTS_LIMIT) eqn:E1.
  - right; right. zprop. split; [lia|].
    destruct (has_ts (pts p)) eqn:Hp; simpl; rewrite ?Hp; simpl.
    + destruct (wrap64 (pts p - 1000) >=? 0); simpl; auto.
    + auto.
  - cbv zeta. destruct (dts p >? MP4_DTS_SAFE) eqn:E2.
    + right; left. zprop. split; [lia|].
      simpl. destruct (has_ts (pts p)); simpl; auto.
    + left. zprop. split; [lia | reflexivity].
Qed.

Lemma overflow_guard_keeps_nopts (p : AVPacket) :
  has_ts (dts p) = false -> overflow_guard p = p.
Proof. intros H. unfold overflow_guard. rewrite H. reflexivity. Qed.

(** After the guard a DTS is at most [0x70000000]. *)
Lemma overflow_guard_dts_bound (p : AVPacket) :
  has_ts (dts (overflow_guard p)) = true -> dts (overflow_guard p) <= MP4_DTS_SAFE.
Proof.
  intros H. destruct (has_ts (dts p)) eqn:Hd.
  - destruct (overflow_guard_spec p Hd) as [[Hs E] | [[_ [E _]] | [_ [E _]]]].
    + rewrite E. exact Hs.
    + rewrite E. consts. lia.
    + rewrite E. consts. lia.
  - rewrite (overflow_guard_keeps_nopts p Hd) in H. congruence.
Qed.

(** The guard keeps PTS >= DTS. *)
Lemma overflow_guard_pts_ge_dts (p : AVPacket) :
  in_int64 (pts p) ->
  (has_ts (pts p) = true -> has_ts (dts p) = true -> dts p <= pts p) ->
  has_ts (pts (overflow_guard p)) = true ->
  has_ts (dts (overflow_guard p)) = true ->
  dts (overflow_guard p) <= pts (overflow_guard p).
Proof.
  intros Hr Hge Hp' Hd'. destruct (has_ts (dts p)) eqn:Hd.
  - destruct (overflow_guard_spec p Hd) as [[Hs E] | [[_ [E1 E2]] | [Hl [E1 E2]]]].
    + rewrite E in *. auto.
    + rewrite E1, E2. destruct (has_ts (pts p)); lia.
    + rewrite E1, E2. destruct (has_ts (pts p)) eqn:Hp; [|lia].
      specialize (Hge eq_refl eq_refl).
      assert (Hw : wrap64 (pts p - 1000) = pts p - 1000)
        by (apply wrap64_id; consts; lia).
      rewrite Hw.
      assert (Hge0 : (pts p - 1000 >=? 0) = true)
        by (rewrite Z.geb_leb; apply Z.leb_le; consts; lia).
      rewrite Hge0. replace (1000 + (pts p - 1000)) with (pts p) by lia.
      rewrite wrap64_id by exact Hr. consts. lia.
  - rewrite (overflow_guard_keeps_nopts p Hd) in Hd'. congruence.
Qed.

Lemma cap_duration_ts (p : AVPacket) :
  dts (cap_duration p) = dts p /\ pts (cap_duration p) = pts p.
Proof. unfold cap_duration. destruct (duration p >? 10000000); auto. Qed.

(** Rebasing by segment index keeps timestamps 64-bit. *)
Lemma rebase_by_index_int64 (k fd fp : Z) (p : AVPacket) :
  wf_packet p -> wf_packet (rebase_by_index k fd fp p).
Proof.
  intros [Hd Hp]. unfold rebase_by_index, wf_packet.
  pose proof (wrap64_range (dts p - fd)).
  pose proof (wrap64_range (pts p - fp)).
  pose proof (wrap64_range (wrap64 (dts p - fd) + 1)).
  pose proof (wrap64_range (wrap64 (pts p - fp) + 1)).
  repeat break_if; simpl in *; zprop; unfold in_int64 in *; split; lia.
Qed.

Lemma fix_pts_ge_dts_int64 (p : AVPacket) :
  wf_packet p -> wf_packet (fix_pts_ge_dts p).
Proof.
  intros [Hd Hp]. unfold fix_pts_ge_dts, wf_packet.
  break_if; simpl; auto.
Qed.

(** A copied video packet: PTS >= DTS. *)
Lemma rebase_video_copy_ok (c : loop_ctx) (fd fp : Z) (pkt p : AVPacket) :
  dts p = dts (rebase_video_copy c fd fp pkt) ->
  pts p = pts (rebase_video_copy c fd fp pkt) ->
  packet_ok (VideoCopy, p).
Proof.
  intros Ed Ep. unfold packet_ok, rebase_video_copy in *. simpl.
  rewrite Ed, Ep.
  destruct (fix_pts_ge_dts_spec (rebase_by_index (lc_segment_index c) fd fp pkt))
    as [E [H _]].
  rewrite E. intros Hd Hp. apply H; assumption.
Qed.

(** The packet that ends the recording: DTS bounded and PTS >= DTS. *)
Lemma rebase_video_final_ok (c : loop_ctx) (fd fp : Z) (pkt p : AVPacket) :
  wf_packet pkt ->
  dts p = dts (rebase_video_final c fd fp pkt) ->
  pts p = pts (rebase_video_final c fd fp pkt) ->
  packet_ok (VideoFinal, p).
Proof.
  intros Hwf Ed Ep. unfold packet_ok, rebase_video_final in *. simpl.
  rewrite Ed, Ep.
  set (q := fix_pts_ge_dts (rebase_by_index (lc_segment_index c) fd fp pkt)).
  destruct (cap_duration_ts (overflow_guard q)) as [Cd Cp]. rewrite Cd, Cp.
  intros Hd. split.
  - apply overflow_guard_dts_bound, Hd.
  - intros Hp. apply overflow_guard_pts_ge_dts; auto.
    + apply fix_pts_ge_dts_int64, rebase_by_index_int64, Hwf.
    + subst q.
      destruct (fix_pts_ge_dts_spec (rebase_by_index (lc_segment_index c) fd fp pkt))
        as [E [H _]].
      rewrite E. exact H.
Qed.

(** The monotonicity step of the audio path, once an audio packet has been
    counted. *)
Lemma audio_monotonic_spec (n ld lp : Z) (p : AVPacket) :
  n > 0 -> ld <= MP4_DTS_SAFE -> wf_packet p ->
  wf_packet (audio_monotonic n ld lp p)
  /\ (has_ts (dts (audio_monotonic n ld lp p)) = true ->
      ld < dts (audio_monotonic n ld lp p))
  /\ (has_ts (pts (audio_monotonic n ld lp p)) = true ->
      has_ts (dts (audio_monotonic n ld lp p)) = true ->
      dts (audio_monotonic n ld lp p) <= pts (audio_monotonic n ld lp p)).
Proof.
  intros Hn Hld [Hd Hp]. unfold audio_monotonic, wf_packet.
  assert (En : (n >? 0) = true) by (rewrite Z.gtb_ltb; apply Z.ltb_lt; lia).
  rewrite En.
  pose proof (wrap64_range (ld + 1)) as R1.
  pose proof (wrap64_range (lp + 1)) as R2.
  assert (W : - 2 ^ 63 <= ld -> wrap64 (ld + 1) = ld + 1).
  { intros Hl. apply wrap64_id. unfold MP4_DTS_SAFE in Hld. lia. }
  cbv zeta.
  destruct (has_ts (dts p) && (dts p <=? ld)) eqn:E1; simpl.
  - zprop.
    destruct (has_ts (pts p) && (pts p <=? lp)) eqn:E2; simpl.
    + destruct (has_ts (wrap64 (lp + 1)) && has_ts (wrap64 (ld + 1))
                && (wrap64 (lp + 1) <? wrap64 (ld + 1))) eqn:E3; simpl.
      * split; [unfold in_int64; split; lia|]. split.
        -- intros _. zprop. unfold in_int64 in Hd. rewrite W; lia.
        -- lia.
      * split; [unfold in_int64; split; lia|]. split.
        -- intros _. zprop. unfold in_int64 in Hd. rewrite W; lia.
        -- intros H3 H4. rewrite H3, H4 in E3. simpl in E3. zprop. lia.
    + destruct (has_ts (pts p) && has_ts (wrap64 (ld + 1))
                && (pts p <? wrap64 (ld + 1))) eqn:E3; simpl.
      * split; [unfold in_int64; split; lia|]. split.
        -- intros _. zprop. unfold in_int64 in Hd. rewrite W; lia.
        -- lia.
      * split; [unfold in_int64 in *; split; lia|]. split.
        -- intros _. zprop. unfold in_int64 in Hd. rewrite W; lia.
        -- intros H3 H4. rewrite H3, H4 in E3. simpl in E3. zprop. lia.
  - assert (Hgt : has_ts (dts p) = true -> ld < dts p).
    { intros H. rewrite H in E1. simpl in E1. zprop. lia. }
    destruct (has_ts (pts p) && (pts p <=? lp)) eqn:E2; simpl.
    + destruct (has_ts (wrap64 (lp + 1)) && has_ts (dts p)
                && (wrap64 (lp + 1) <? dts p)) eqn:E3; simpl.
      * split; [unfold in_int64 in *; split; lia|]. split; [exact Hgt | lia].
      * split; [unfold in_int64 in *; split; lia|]. split; [exact Hgt|].
        intros H3 H4. rewrite H3, H4 in E3. simpl in E3. zprop. lia.
    + destruct (has_ts (pts p) && has_ts (dts p) && (pts p <? dts p)) eqn:E3; simpl.
      * split; [unfold in_int64 in *; split; lia|]. split; [exact Hgt | lia].
      * split; [unfold in_int64 in *; split; lia|]. split; [exact Hgt|].
        intros H3 H4. rewrite H3, H4 in E3. simpl in E3. zprop. lia.
Qed.

(** An audio packet has a bounded DTS; once an audio packet has been
    counted, its DTS exceeds the last audio DTS unless the guard resets it,
    and its PTS is at least its DTS. *)
Lemma rebase_audio_dts_bound (c : loop_ctx) (s : loop_state) (fd fp : Z)
  (pkt : AVPacket) :
  has_ts (dts (rebase_audio c s fd fp pkt)) = true ->
  dts (rebase_audio c s fd fp pkt) <= MP4_DTS_SAFE.
Proof. unfold rebase_audio. apply overflow_guard_dts_bound. Qed.

Lemma rebase_audio_step (c : loop_ctx) (s : loop_state) (fd fp : Z)
  (pkt : AVPacket) :
  wf_packet pkt -> audio_packet_count s > 0 ->
  last_audio_dts s <= MP4_DTS_SAFE ->
  audio_step_ok s (rebase_audio c s fd fp pkt).
Proof.
  intros Hwf Hn Hl. unfold audio_step_ok, rebase_audio.
  set (r := rebase_by_index (lc_segment_index c) fd fp pkt).
  assert (Hr : wf_packet r) by (apply rebase_by_index_int64, Hwf).
  destruct (audio_monotonic_spec (audio_packet_count s) (last_audio_dts s)
              (last_audio_pts s) r Hn Hl Hr) as [Hq [Hgt Hge]].
  set (q := audio_monotonic (audio_packet_count s) (last_audio_dts s)
              (last_audio_pts s) r) in *.
  intros Hd. split.
  - destruct (has_ts (dts q)) eqn:Hdq.
    + destruct (overflow_guard_spec q Hdq) as [[_ E] | [[_ [E _]] | [_ [E _]]]].
      * rewrite E. left. apply Hgt. reflexivity.
      * right. exact E.
      * right. exact E.
    + rewrite (overflow_guard_keeps_nopts q Hdq) in Hd. congruence.
  - intros Hp. apply overflow_guard_pts_ge_dts; auto. apply Hq.
Qed.

(* ================================================================== *)
(** * The invariant of the packet loop *)

(** Every packet submitted so far is as [packet_ok] says, and the last audio
    DTS is below the guard's threshold. *)
Definition loop_inv (s : loop_state) : Prop :=
  Forall packet_ok (written (trace s)) /\ last_audio_dts s <= MP4_DTS_SAFE.

Lemma loop_inv_same (s s' : loop_state) :
  trace s' = trace s -> last_audio_dts s' = last_audio_dts s ->
  loop_inv s -> loop_inv s'.
Proof. unfold loop_inv. intros -> ->. auto. Qed.

Lemma loop_inv_write (s s' : loop_state) (w : write_path) (p : AVPacket) (r : Z) :
  trace s' = trace s ++ [OpWriteFrame w p r] ->
  last_audio_dts s' <= MP4_DTS_SAFE ->
  packet_ok (w, p) ->
  loop_inv s -> loop_inv s'.
Proof.
  unfold loop_inv. intros -> Hl Hp [Hall _]. split; [|exact Hl].
  rewrite written_app. apply Forall_app. split; [exact Hall|].
  simpl. constructor; [exact Hp | constructor].
Qed.

Section LoopInvariant.

Variable av_rescale_q : Z -> AVRational -> AVRational -> Z.

Lemma video_duration_ts st p :
  dts (video_duration av_rescale_q st p) = dts p
  /\ pts (video_duration av_rescale_q st p) = pts p.
Proof. unfold video_duration. repeat break_if; simpl; auto. Qed.

Lemma audio_duration_ts st p :
  dts (audio_duration av_rescale_q st p) = dts p
  /\ pts (audio_duration av_rescale_q st p) = pts p.
Proof. unfold audio_duration. repeat break_if; simpl; auto. Qed.

Lemma video_copy_inv c e s pkt :
  loop_inv s -> loop_inv (video_copy av_rescale_q c e s pkt).
Proof.
  intros Hinv. unfold video_copy. destruct (init_first _ _ pkt) as [fd fp].
  set (st := stream_at (lc_input c) (lc_video_stream_idx c)).
  destruct (video_duration_ts st (rebase_video_copy c fd fp pkt)) as [Ed Ep].
  break_if;
    (eapply loop_inv_write; [simpl; reflexivity | simpl; apply Hinv | | exact Hinv]);
    (eapply rebase_video_copy_ok; simpl; [exact Ed | exact Ep]).
Qed.

Lemma final_video_frame_inv c e s pkt k :
  wf_packet pkt -> loop_inv s ->
  loop_inv (final_video_frame av_rescale_q c e s pkt k).
Proof.
  intros Hwf Hinv. unfold final_video_frame.
  destruct (init_first _ _ pkt) as [fd fp].
  set (st := stream_at (lc_input c) (lc_video_stream_idx c)).
  destruct (video_duration_ts st (rebase_video_final c fd fp pkt)) as [Ed Ep].
  eapply loop_inv_write; [simpl; reflexivity | simpl; apply Hinv | | exact Hinv].
  eapply rebase_video_final_ok; simpl; [exact Hwf | exact Ed | exact Ep].
Qed.

Lemma audio_packet_inv c e s pkt :
  loop_inv s -> loop_inv (audio_packet av_rescale_q c e s pkt).
Proof.
  intros Hinv. unfold audio_packet. break_if; [exact Hinv|].
  destruct (init_first _ _ pkt) as [fd fp].
  set (s1 := set_first_audio s fd fp).
  set (st := stream_at (lc_input c) (lc_audio_stream_idx c)).
  destruct (audio_duration_ts st (rebase_audio c s1 fd fp pkt)) as [Ed Ep].
  pose proof (rebase_audio_dts_bound c s1 fd fp pkt) as Hb.
  assert (Hlast :
    (if has_ts (dts (rebase_audio c s1 fd fp pkt))
     then dts (rebase_audio c s1 fd fp pkt) else last_audio_dts s1)
    <= MP4_DTS_SAFE).
  { destruct (has_ts (dts (rebase_audio c s1 fd fp pkt))); [auto | apply Hinv]. }
  assert (Hok : packet_ok
    (AudioCopy,
     set_stream_index (audio_duration av_rescale_q st (rebase_audio c s1 fd fp pkt))
       out_audio_index)).
  { unfold packet_ok. simpl. rewrite Ed. exact Hb. }
  break_if;
    (eapply loop_inv_write; [simpl; reflexivity | simpl; exact Hlast | exact Hok | exact Hinv]).
Qed.

Lemma video_packet_inv c e s pkt :
  wf_packet pkt -> loop_inv s ->
  loop_inv (fst (video_packet av_rescale_q c e s pkt)).
Proof.
  intros Hwf Hinv. unfold video_packet.
  set (k := negb (Z.land (flags pkt) AV_PKT_FLAG_KEY =? 0)).
  assert (Hfound : forall t, loop_inv (set_found_first s t))
    by (intro t; eapply loop_inv_same; [| | exact Hinv]; reflexivity).
  assert (Hrest : forall s1, loop_inv s1 ->
    loop_inv
      (fst (if waiting_for_final_keyframe s1
            then
              let s2 := if waiting_start_time s1 =? 0
                        then set_waiting_start s1 (ev_t_wait0 e) else s1 in
              if k || (Z.quot (wrap64 (ev_t_wait e - waiting_start_time s2)) 1000000 >? 2)
              then (final_video_frame av_rescale_q c e s2 pkt k, true)
              else (video_copy av_rescale_q c e s2 pkt, false)
            else (video_copy av_rescale_q c e s1 pkt, false)))).
  { intros s1 H1.
    destruct (waiting_for_final_keyframe s1).
    - cbv zeta.
      assert (H2 : loop_inv (if waiting_start_time s1 =? 0
                             then set_waiting_start s1 (ev_t_wait0 e) else s1)).
      { break_if; [|exact H1]. eapply loop_inv_same; [| | exact H1]; reflexivity. }
      break_if; simpl.
      + apply final_video_frame_inv; assumption.
      + apply video_copy_inv; assumption.
    - simpl. apply video_copy_inv; assumption. }
  destruct (found_first_keyframe s); simpl.
  - apply Hrest, Hinv.
  - destruct (prev_last_frame_was_key (prev_segment_info s) && (lc_segment_index c >? 0)).
    + apply Hrest, Hfound.
    + destruct k eqn:Hk.
      * apply Hrest, Hfound.
      * simpl. exact Hinv.
Qed.

Lemma loop_iter_inv c e s :
  wf_event e -> loop_inv s -> loop_inv (fst (loop_iter av_rescale_q c e s)).
Proof.
  intros Hwf Hinv. unfold loop_iter.
  set (s1 := check_duration c e (check_shutdown e s)).
  assert (H1 : loop_inv s1).
  { subst s1. unfold check_duration, check_shutdown.
    repeat break_if; try exact Hinv;
      (eapply loop_inv_same; [| | exact Hinv]; reflexivity). }
  assert (H2 : loop_inv (set_ret s1 (ev_read_ret e)))
    by (eapply loop_inv_same; [| | exact H1]; reflexivity).
  repeat break_if; simpl; try exact H2.
  - destruct H2 as [Ha Hb]. split; [|exact Hb].
    simpl. rewrite written_app. simpl. rewrite app_nil_r. exact Ha.
  - apply video_packet_inv; assumption.
  - apply audio_packet_inv; assumption.
Qed.

Lemma copy_loop_inv c evs : forall s,
  Forall wf_event evs -> loop_inv s ->
  loop_inv (fst (copy_loop av_rescale_q c evs s)).
Proof.
  induction evs as [|e evs IH]; intros s Hwf Hinv; simpl; [exact Hinv|].
  inversion Hwf as [|? ? He Hrest]; subst.
  pose proof (loop_iter_inv c e s He Hinv) as H.
  destruct (loop_iter av_rescale_q c e s) as [s' brk]. simpl in H.
  destruct brk; simpl; [exact H | apply IH; assumption].
Qed.

(** The loop of any call starts from, and stays in, the invariant. *)
Lemma segment_loop_inv env d slot ha prev wst c s brk :
  Forall wf_event (se_events env) ->
  segment_loop av_rescale_q env d slot ha prev wst = Some (c, (s, brk)) ->
  loop_inv s.
Proof.
  intros Hwf. unfold segment_loop.
  pose proof (setup_has_facts env slot ha) as F.
  destruct (setup env slot ha) as [r sl o pb tr | ictx v a oa tr]; [discriminate|].
  simpl in F. destruct F as [_ [_ [_ Hw]]].
  intros H. injection H as <- H.
  pose proof (copy_loop_inv
    (mkCtx ictx v a ha oa d (next_segment_index prev)) (se_events env)
    (initial_state env prev wst tr) Hwf) as Hinv.
  rewrite H in Hinv. apply Hinv.
  split; simpl; [rewrite Hw; constructor | unfold MP4_DTS_SAFE; lia].
Qed.

End LoopInvariant.

(* ================================================================== *)
(** * The order of the audio packets of one file *)

Lemma submitted_app (a b : list io_op) :
  submitted (a ++ b) = submitted a ++ submitted b.
Proof.
  induction a as [|op a IH]; [reflexivity|].
  destruct op; simpl; rewrite ?IH; reflexivity.
Qed.

(** The submissions are the written packets with their return values. *)
Lemma submitted_written (tr : list io_op) :
  map fst (submitted tr) = written tr.
Proof.
  induction tr as [|op tr IH]; [reflexivity|].
  destruct op; simpl; rewrite ?IH; reflexivity.
Qed.

Lemma audio_of_app (a b : list (write_path * AVPacket * Z)) :
  audio_of (a ++ b) = audio_of a ++ audio_of b.
Proof. unfold audio_of. apply flat_map_app. Qed.

Lemma audio_accepted_app (a b : list (AVPacket * Z)) : forall n,
  audio_accepted n (a ++ b) = audio_accepted (audio_accepted n a) b.
Proof.
  induction a as [|[p r] a IH]; intros n; simpl; [reflexivity | apply IH].
Qed.

Lemma audio_last_app (a b : list (AVPacket * Z)) : forall d,
  audio_last d (a ++ b) = audio_last (audio_last d a) b.
Proof.
  induction a as [|[p r] a IH]; intros d; simpl; [reflexivity | apply IH].
Qed.

Lemma audio_ordered_app (a b : list (AVPacket * Z)) : forall n d,
  audio_ordered n d a ->
  audio_ordered (audio_accepted n a) (audio_last d a) b ->
  audio_ordered n d (a ++ b).
Proof.
  induction a as [|[p r] a IH]; intros n d Ha Hb; simpl in *; [exact Hb|].
  destruct Ha as [H1 H2]. split; [exact H1 | apply IH; assumption].
Qed.

(** The audio state of the loop is the one its audio submissions give:
    they are ordered, [last_audio_dts] is the DTS of the last of them that
    carried one, [audio_packet_count] counts those the muxer accepted, and
    [last_audio_dts] is below the guard's threshold. *)
Definition audio_inv (s : loop_state) : Prop :=
  let l := audio_of (submitted (trace s)) in
  audio_ordered 0 0 l
  /\ last_audio_dts s = audio_last 0 l
  /\ audio_packet_count s = Z.of_nat (audio_accepted 0 l)
  /\ last_audio_dts s <= MP4_DTS_SAFE.

(** A step that submits no audio packet and leaves the audio state. *)
Definition audio_same (s s' : loop_state) : Prop :=
  audio_of (submitted (trace s')) = audio_of (submitted (trace s))
  /\ last_audio_dts s' = last_audio_dts s
  /\ audio_packet_count s' = audio_packet_count s.

Lemma audio_same_refl s : audio_same s s.
Proof. repeat split. Qed.

Lemma audio_same_trans s1 s2 s3 :
  audio_same s1 s2 -> audio_same s2 s3 -> audio_same s1 s3.
Proof.
  unfold audio_same. intros [A [B C]] [A' [B' C']].
  repeat split; congruence.
Qed.

Lemma audio_same_inv s s' : audio_same s s' -> audio_inv s -> audio_inv s'.
Proof.
  unfold audio_same, audio_inv. intros [A [B C]]. cbv zeta.
  rewrite A, B, C. auto.
Qed.

Section AudioOrder.

Variable av_rescale_q : Z -> AVRational -> AVRational -> Z.

Lemma video_copy_audio_same c e s pkt :
  audio_same s (video_copy av_rescale_q c e s pkt).
Proof.
  unfold video_copy. destruct (init_first _ _ pkt) as [fd fp].
  break_if; unfold audio_same; simpl;
    rewrite submitted_app, audio_of_app; simpl; rewrite app_nil_r; auto.
Qed.

Lemma final_video_frame_audio_same c e s pkt k :
  audio_same s (final_video_frame av_rescale_q c e s pkt k).
Proof.
  unfold final_video_frame. destruct (init_first _ _ pkt) as [fd fp].
  unfold audio_same; simpl.
  rewrite submitted_app, audio_of_app; simpl; rewrite app_nil_r; auto.
Qed.

Lemma video_packet_audio_same c e s pkt :
  audio_same s (fst (video_packet av_rescale_q c e s pkt)).
Proof.
  unfold video_packet.
  set (k := negb (Z.land (flags pkt) AV_PKT_FLAG_KEY =? 0)).
  assert (Hfound : forall t, audio_same s (set_found_first s t))
    by (intro t; repeat split).
  assert (Hrest : forall s1, audio_same s s1 ->
    audio_same s
      (fst (if waiting_for_final_keyframe s1
            then
              let s2 := if waiting_start_time s1 =? 0
                        then set_waiting_start s1 (ev_t_wait0 e) else s1 in
              if k || (Z.quot (wrap64 (ev_t_wait e - waiting_start_time s2)) 1000000 >? 2)
              then (final_video_frame av_rescale_q c e s2 pkt k, true)
              else (video_copy av_rescale_q c e s2 pkt, false)
            else (video_copy av_rescale_q c e s1 pkt, false)))).
  { intros s1 H1.
    destruct (waiting_for_final_keyframe s1).
    - cbv zeta.
      assert (H2 : audio_same s (if waiting_start_time s1 =? 0
                                 then set_waiting_start s1 (ev_t_wait0 e) else s1)).
      { break_if; [|exact H1].
        eapply audio_same_trans; [exact H1 | repeat split]. }
      break_if; simpl.
      + eapply audio_same_trans; [exact H2 | apply final_video_frame_audio_same].
      + eapply audio_same_trans; [exact H2 | apply video_copy_audio_same].
    - simpl. eapply audio_same_trans; [exact H1 | apply video_copy_audio_same]. }
  destruct (found_first_keyframe s); simpl.
  - apply Hrest, audio_same_refl.
  - destruct (prev_last_frame_was_key (prev_segment_info s) && (lc_segment_index c >? 0)).
    + apply Hrest, Hfound.
    + destruct k eqn:Hk.
      * apply Hrest, Hfound.
      * simpl. apply audio_same_refl.
Qed.

(** An audio packet is submitted in order, and the count of accepted audio
    packets goes up by one exactly when the muxer accepted it. *)
Lemma audio_packet_audio_inv c e s pkt :
  wf_packet pkt -> audio_packet_count s < 2 ^ 31 - 1 -> audio_inv s ->
  audio_inv (audio_packet av_rescale_q c e s pkt)
  /\ audio_packet_count (audio_packet av_rescale_q c e s pkt)
     <= audio_packet_count s + 1.
Proof.
  intros Hwf Hlt Hinv. unfold audio_packet.
  break_if; [split; [exact Hinv | lia]|].
  destruct (init_first _ _ pkt) as [fd fp].
  set (s1 := set_first_audio s fd fp).
  set (st := stream_at (lc_input c) (lc_audio_stream_idx c)).
  set (p1 := rebase_audio c s1 fd fp pkt).
  destruct (audio_duration_ts av_rescale_q st p1) as [Ed Ep].
  destruct Hinv as [Hord [Hlast [Hcnt Hsafe]]]. cbv zeta in *.
  set (l := audio_of (submitted (trace s))) in *.
  assert (Hn0 : 0 <= audio_packet_count s) by lia.
  assert (Hstep : (0 < audio_accepted 0 l)%nat -> audio_step_ok s1 p1).
  { intros Hpos. apply rebase_audio_step; [exact Hwf | simpl; lia | exact Hsafe]. }
  assert (Hb : has_ts (dts p1) = true -> dts p1 <= MP4_DTS_SAFE)
    by apply rebase_audio_dts_bound.
  assert (Hw : wrap32 (audio_packet_count s + 1) = audio_packet_count s + 1).
  { apply wrap32_id. lia. }
  assert (Hone : forall r,
    audio_ordered 0 0
      (l ++ [(set_stream_index (audio_duration av_rescale_q st p1) out_audio_index, r)])).
  { intros r. apply audio_ordered_app; [exact Hord|].
    simpl. split; [|exact I]. rewrite Ed, Ep. intros Hpos Hd.
    rewrite <- Hlast. apply (Hstep Hpos Hd). }
  destruct (ev_write_ret e <? 0) eqn:Hr; unfold audio_inv; simpl;
    rewrite submitted_app, audio_of_app; simpl; fold l;
    rewrite audio_last_app, audio_accepted_app; simpl; rewrite Ed;
    (split; [split; [apply Hone|] | ]).
  - split; [rewrite Hlast; reflexivity|].
    split.
    + apply Z.ltb_lt in Hr.
      destruct (0 <=? ev_write_ret e) eqn:Hr'; [apply Z.leb_le in Hr'; lia|].
      exact Hcnt.
    + destruct (has_ts (dts p1)); [apply Hb; reflexivity | exact Hsafe].
  - lia.
  - split; [rewrite Hlast; reflexivity|].
    split.
    + apply Z.ltb_ge in Hr.
      destruct (0 <=? ev_write_ret e) eqn:Hr'; [|apply Z.leb_gt in Hr'; lia].
      rewrite Hw, Hcnt. lia.
    + destruct (has_ts (dts p1)); [apply Hb; reflexivity | exact Hsafe].
  - rewrite Hw. lia.
Qed.

Lemma loop_iter_audio_inv c e s :
  wf_event e -> audio_packet_count s < 2 ^ 31 - 1 -> audio_inv s ->
  audio_inv (fst (loop_iter av_rescale_q c e s))
  /\ audio_packet_count (fst (loop_iter av_rescale_q c e s))
     <= audio_packet_count s + 1.
Proof.
  intros Hwf Hlt Hinv. unfold loop_iter.
  set (s1 := check_duration c e (check_shutdown e s)).
  assert (H1 : audio_same s s1).
  { subst s1. unfold check_duration, check_shutdown.
    repeat break_if; repeat split. }
  set (s2 := set_ret s1 (ev_read_ret e)).
  assert (H2 : audio_same s s2)
    by (eapply audio_same_trans; [exact H1 | repeat split]).
  assert (Hsame : forall s', audio_same s s' ->
    audio_inv s' /\ audio_packet_count s' <= audio_packet_count s + 1).
  { intros s' H. split; [exact (audio_same_inv s s' H Hinv)|].
    destruct H as [_ [_ ->]]. lia. }
  repeat break_if; cbn [fst]; try (apply Hsame; exact H2).
  - apply Hsame. eapply audio_same_trans; [exact H2|].
    unfold audio_same; simpl.
    rewrite submitted_app, audio_of_app; simpl; rewrite app_nil_r; auto.
  - apply Hsame. eapply audio_same_trans; [exact H2|].
    apply video_packet_audio_same.
  - pose proof (audio_same_inv s s2 H2 Hinv) as I2.
    destruct H2 as [_ [_ C]].
    destruct (audio_packet_audio_inv c e s2 (ev_pkt e) Hwf) as [Ha Hb];
      [rewrite C; exact Hlt | exact I2 |].
    split; [exact Ha | rewrite <- C; exact Hb].
Qed.

Lemma copy_loop_audio_inv c evs : forall s,
  Forall wf_event evs ->
  audio_packet_count s + Z.of_nat (List.length evs) < 2 ^ 31 ->
  audio_inv s ->
  audio_inv (fst (copy_loop av_rescale_q c evs s)).
Proof.
  induction evs as [|e evs IH]; intros s Hwf Hlen Hinv; simpl; [exact Hinv|].
  inversion Hwf as [|? ? He Hrest]; subst.
  simpl List.length in Hlen.
  destruct (loop_iter_audio_inv c e s He) as [Ha Hb]; [lia | exact Hinv |].
  destruct (loop_iter av_rescale_q c e s) as [s' brk]. simpl in Ha, Hb.
  destruct brk; simpl; [exact Ha | apply IH; [assumption | lia | exact Ha]].
Qed.

(** Which iterations submit an audio packet: only one that read a packet of
    the audio stream while audio is enabled. *)
Lemma loop_iter_audio_source c e s :
  audio_of (submitted (trace (fst (loop_iter av_rescale_q c e s))))
  = audio_of (submitted (trace s))
  \/ (0 <= ev_read_ret e
      /\ stream_index (ev_pkt e) = lc_audio_stream_idx c
      /\ lc_has_audio c <> 0 /\ 0 <= lc_audio_stream_idx c
      /\ exists p,
           audio_of (submitted (trace (fst (loop_iter av_rescale_q c e s))))
           = audio_of (submitted (trace s)) ++ [(p, ev_write_ret e)]).
Proof.
  unfold loop_iter.
  set (s1 := check_duration c e (check_shutdown e s)).
  assert (H1 : audio_same s s1).
  { subst s1. unfold check_duration, check_shutdown.
    repeat break_if; repeat split. }
  set (s2 := set_ret s1 (ev_read_ret e)).
  assert (H2 : audio_same s s2)
    by (eapply audio_same_trans; [exact H1 | repeat split]).
  clearbody s2. clear H1 s1.
  destruct (ev_read_ret e <? 0) eqn:Hneg.
  - left. repeat break_if; cbn [fst]; try apply H2.
    unfold emit. cbn [trace]. rewrite submitted_app, audio_of_app. simpl.
    rewrite app_nil_r. apply H2.
  - destruct (stream_index (ev_pkt e) =? lc_video_stream_idx c).
    + left. apply (audio_same_trans s s2 _ H2), video_packet_audio_same.
    + destruct (negb (lc_has_audio c =? 0) && (lc_audio_stream_idx c >=? 0)
                && (stream_index (ev_pkt e) =? lc_audio_stream_idx c)
                && lc_out_audio_stream c) eqn:Ha; cbn [fst]; [|left; apply H2].
      apply andb_true_iff in Ha as [Ha _].
      apply andb_true_iff in Ha as [Ha Ha3].
      apply andb_true_iff in Ha as [Ha1 Ha2].
      apply negb_true_iff in Ha1. zprop.
      destruct H2 as [A _]. unfold audio_packet.
      destruct (negb (found_first_keyframe s2)); [left; exact A|].
      destruct (init_first _ _ (ev_pkt e)) as [fd fp].
      right. split; [lia|]. split; [exact Ha3|]. split; [exact Ha1|].
      split; [lia|].
      break_if; eexists; simpl; rewrite submitted_app, audio_of_app, A;
        simpl; reflexivity.
Qed.

Lemma copy_loop_audio_source c evs : forall s,
  exists more,
    audio_of (submitted (trace (fst (copy_loop av_rescale_q c evs s))))
    = audio_of (submitted (trace s)) ++ more
    /\ (more <> [] -> lc_has_audio c <> 0 /\ 0 <= lc_audio_stream_idx c)
    /\ (List.length more
        <= List.length (filter (reads_stream (lc_audio_stream_idx c)) evs))%nat.
Proof.
  induction evs as [|e evs IH]; intros s; simpl.
  - exists []. rewrite app_nil_r. split; [reflexivity|].
    split; [intros H; contradiction | simpl; lia].
  - pose proof (loop_iter_audio_source c e s) as He.
    destruct (loop_iter av_rescale_q c e s) as [s' brk]. cbn [fst] in He.
    assert (Hrest : exists more,
      audio_of (submitted (trace (fst (if brk then (s', true)
                                       else copy_loop av_rescale_q c evs s'))))
      = audio_of (submitted (trace s')) ++ more
      /\ (more <> [] -> lc_has_audio c <> 0 /\ 0 <= lc_audio_stream_idx c)
      /\ (List.length more
          <= List.length (filter (reads_stream (lc_audio_stream_idx c)) evs))%nat).
    { destruct brk; [|apply IH].
      exists []. rewrite app_nil_r. split; [reflexivity|].
      split; [intros H; contradiction | simpl; lia]. }
    destruct Hrest as [more [Hm [Hen Hlen]]].
    destruct He as [He | [Hret [Hidx [Hha [Ha [p Hp]]]]]].
    + exists more. rewrite Hm, He. split; [reflexivity|]. split; [exact Hen|].
      destruct (reads_stream (lc_audio_stream_idx c) e); simpl; lia.
    + exists ((p, ev_write_ret e) :: more). rewrite Hm, Hp, <- app_assoc.
      split; [reflexivity|]. split; [auto|].
      assert (Hr : reads_stream (lc_audio_stream_idx c) e = true).
      { unfold reads_stream. apply andb_true_iff. split.
        - apply Z.leb_le. exact Hret.
        - apply Z.eqb_eq. exact Hidx. }
      rewrite Hr. simpl. lia.
Qed.

(** The loop of any call keeps its audio submissions in order as long as
    the counter of accepted audio packets cannot overflow. *)
Lemma segment_loop_audio_inv env d slot ha prev wst c s brk :
  Forall wf_event (se_events env) ->
  Z.of_nat (List.length (se_events env)) < 2 ^ 31 ->
  segment_loop av_rescale_q env d slot ha prev wst = Some (c, (s, brk)) ->
  audio_inv s.
Proof.
  intros Hwf Hlen. unfold segment_loop.
  pose proof (setup_has_facts env slot ha) as F.
  destruct (setup env slot ha) as [r sl o pb tr | ictx v a oa tr]; [discriminate|].
  simpl in F. destruct F as [_ [_ [_ Hw]]].
  intros H. injection H as <- H.
  pose proof (copy_loop_audio_inv
    (mkCtx ictx v a ha oa d (next_segment_index prev)) (se_events env)
    (initial_state env prev wst tr) Hwf) as Hinv.
  rewrite H in Hinv. apply Hinv; [simpl; lia|].
  assert (Hs : submitted tr = []).
  { apply map_eq_nil with (f := fst). rewrite submitted_written. exact Hw. }
  unfold audio_inv. simpl. rewrite Hs. simpl.
  repeat split; unfold MP4_DTS_SAFE; lia.
Qed.

End AudioOrder.

(* ================================================================== *)
(** * Timestamps of the packets written to one file *)

Section WrittenPackets.

Variable av_rescale_q : Z -> AVRational -> AVRational -> Z.

Lemma written_cleanup env o pb r tw tr :
  written (cleanup env o pb r tw tr) = written tr.
Proof.
  unfold cleanup. repeat break_if; rewrite ?written_app; simpl;
    rewrite ?app_nil_r; reflexivity.
Qed.

(** The packets of a call that has returned are those of its loop. *)
Lemma record_segment_written env d slot ha prev wst res :
  record_segment av_rescale_q env d slot ha prev wst = Some res ->
  written (r_trace res) = segment_written av_rescale_q env d slot ha prev wst.
Proof.
  unfold record_segment, segment_written, segment_loop.
  pose proof (setup_has_facts env slot ha) as F.
  destruct (setup env slot ha) as [r sl o pb tr | ictx v a oa tr]; simpl in F.
  - intros H. injection H as <-. simpl. rewrite written_cleanup. apply F.
  - destruct (copy_loop _ _ _ _) as [s brk]. destruct brk; [|discriminate].
    intros H. injection H as <-. cbv beta zeta iota delta [r_trace andb].
    repeat break_if; rewrite !written_app; simpl; rewrite ?app_nil_r; reflexivity.
Qed.

(** C1 (as the code has it): of the packets a call submits to the muxer,
    those that carry a DTS satisfy: an audio packet and the packet that ends
    the recording have DTS <= 0x70000000, which is below 2^31 - 1; a video
    packet, copied or final, that carries a PTS has PTS >= DTS.  Of the
    audio packets among them, taken in the order of submission in a call
    of fewer than 2^31 loop iterations: once the muxer has accepted an
    audio packet, every audio packet submitted with a DTS has a DTS greater
    than that of the last audio packet submitted with one (than 0 when
    there was none), unless the overflow guard reset it to 1000, and
    PTS >= DTS when it carries a PTS.
    Nothing is said of the DTS order between video packets or between a
    video and an audio packet, of a bound on the DTS of copied video
    packets, or of a bound on PTS. *)
Theorem C1_written_timestamps env d slot ha prev wst :
  Forall wf_event (se_events env) ->
  Forall packet_ok (segment_written av_rescale_q env d slot ha prev wst)
  /\ map fst (segment_submitted av_rescale_q env d slot ha prev wst)
     = segment_written av_rescale_q env d slot ha prev wst
  /\ (Z.of_nat (List.length (se_events env)) < 2 ^ 31 ->
      audio_ordered 0 0
        (audio_of (segment_submitted av_rescale_q env d slot ha prev wst))).
Proof.
  intros Hwf. unfold segment_written, segment_submitted.
  destruct (segment_loop av_rescale_q env d slot ha prev wst)
    as [[c [s brk]]|] eqn:E; [|repeat split; constructor].
  split; [|split].
  - apply (segment_loop_inv av_rescale_q env d slot ha prev wst c s brk Hwf E).
  - apply submitted_written.
  - intros Hlen.
    apply (segment_loop_audio_inv av_rescale_q env d slot ha prev wst c s brk
             Hwf Hlen E).
Qed.

End WrittenPackets.

(* ================================================================== *)
(** * The code on concrete inputs *)

Lemma C1_written_timestamps_witness :
  Forall wf_event (se_events (Sample.seg_ok 0 Sample.audio_reaches_guard))
  /\ Forall packet_ok
       (segment_written Sample.rescale (Sample.seg_ok 0 Sample.audio_reaches_guard)
          30 None 1 (Some Sample.first_info) 0)
  /\ map fst
       (segment_submitted Sample.rescale (Sample.seg_ok 0 Sample.audio_reaches_guard)
          30 None 1 (Some Sample.first_info) 0)
     = segment_written Sample.rescale (Sample.seg_ok 0 Sample.audio_reaches_guard)
         30 None 1 (Some Sample.first_info) 0
  /\ audio_ordered 0 0
       (audio_of
          (segment_submitted Sample.rescale
             (Sample.seg_ok 0 Sample.audio_reaches_guard)
             30 None 1 (Some Sample.first_info) 0)).
Proof.
  assert (H : Forall wf_event (se_events (Sample.seg_ok 0 Sample.audio_reaches_guard))).
  { repeat (constructor; [unfold wf_event, wf_packet, in_int64; simpl; lia|]).
    constructor. }
  assert (L : Z.of_nat (List.length
                (se_events (Sample.seg_ok 0 Sample.audio_reaches_guard))) < 2 ^ 31)
    by (vm_compute; reflexivity).
  destruct (C1_written_timestamps Sample.rescale
              (Sample.seg_ok 0 Sample.audio_reaches_guard) 30 None 1
              (Some Sample.first_info) 0 H) as [A [B C]].
  split; [exact H|]. split; [exact A|]. split; [exact B | exact (C L)].
Defined.

(** C1 as the specification states it fails: after a key frame, audio
    packets with DTS 0, 5000 and 0x70000001 are written with DTS 1, 5001 and
    1000, so the DTS of the file decreases. *)
Lemma C1_dts_decreases_at_guard_reset :
  map (fun wp => dts (snd wp))
    (segment_written Sample.rescale (Sample.seg_ok 0 Sample.audio_reaches_guard)
       30 None 1 (Some Sample.first_info) 0) = [1; 1; 5001; 1000]
  /\ file_timestamps_ok
       (segment_written Sample.rescale (Sample.seg_ok 0 Sample.audio_reaches_guard)
          30 None 1 (Some Sample.first_info) 0) = false.
Proof. split; vm_compute; reflexivity. Qed.

(** C2, the code at the failing inputs.  A copied video packet goes from
    the index step and the PTS >= DTS step straight to the muxer: its DTS
    is not guarded, and a packet 2^31 + 100 ticks after the first is
    submitted with DTS 2^31 + 101.  Where the guard is applied, a DTS above
    2^31 - 1 becomes 1000 while a PTS of at least 1000 stays what it was
    (here the gap of 50 becomes 2^31 + 150 - 1000), and the reset above
    0x70000000 sets PTS to 1001 whatever the gap was. *)
Theorem C2_guard_missing_on_video_copy :
  (forall c fd fp pkt,
      dts (rebase_video_copy c fd fp pkt)
      = dts (rebase_by_index (lc_segment_index c) fd fp pkt))
  /\ map (fun wp => (fst wp, dts (snd wp)))
       (segment_written Sample.rescale (Sample.seg_ok 0 Sample.video_passes_limit)
          30 None 0 (Some Sample.first_info) 0)
     = [(VideoCopy, 1); (VideoCopy, 2 ^ 31 + 101)]
  /\ overflow_guard (mkPacket 1 0 (2 ^ 31 + 100) (2 ^ 31 + 150) 0 320)
     = mkPacket 1 0 1000 (2 ^ 31 + 150) 0 320
  /\ overflow_guard (mkPacket 1 0 0x70000001 0x70000051 0 320)
     = mkPacket 1 0 1000 1001 0 320.
Proof.
  split.
  - intros c fd fp pkt. unfold rebase_video_copy.
    apply (fix_pts_ge_dts_spec (rebase_by_index (lc_segment_index c) fd fp pkt)).
  - repeat split; vm_compute; reflexivity.
Qed.

(** C3, the code at the failing input.  The worker starts a session with
    segment index 0 in its segment information; [record_segment] adds one
    before it rebases, so the first segment of the session runs with index
    1 and its first packet, here with input DTS 2^31 - 5, is written with
    DTS 1 and PTS 1, not 0. *)
Theorem C3_first_session_segment_offset :
  next_segment_index (Some Sample.first_info) = 1
  /\ (let '(_, s, _) :=
        mp4_writer_rtsp_thread Sample.rescale 256 64 64 256 Sample.init0
          [Sample.iter_at 5 8 (Sample.seg_ok 0 Sample.first_dts_near_limit)]
          Sample.statics0 Sample.thread0 (Sample.writer0 "/rec/a.mp4" 30) in
      map (map (fun wp => (dts (snd wp), pts (snd wp))))
        (session_written (sp_trace s)) = [[(1, 1)]]).
Proof. split; vm_compute; reflexivity. Qed.

(** C5, the code at the failing input.  The first call of the process
    leaves the static [waiting_start_time] at 29 s.  The second call enters
    the waiting state at 58.1 s, in the iteration that reads a frame which
    is not a key frame; [wait_time] is taken from the stale 29 s, so this
    frame is written as the final packet without any wait. *)
Theorem C5_stale_waiting_start_time :
  exists res1 res2,
    record_segment Sample.rescale Sample.first_call 30 None 0
      (Some Sample.first_info) (static_waiting_start_time Sample.statics0)
    = Some res1
    /\ r_waiting_start_time res1 = 29000000
    /\ option_map (fun x => waiting_for_final_keyframe (fst (snd x)))
         (segment_loop Sample.rescale
            (Sample.seg_ok 29100000 Sample.second_call_before_limit) 30
            (r_input_ctx res1) 0 (r_prev_segment_info res1)
            (r_waiting_start_time res1))
       = Some false
    /\ record_segment Sample.rescale Sample.second_call 30
         (r_input_ctx res1) 0 (r_prev_segment_info res1)
         (r_waiting_start_time res1)
       = Some res2
    /\ map (fun wp => (fst wp, flags (snd wp))) (written (r_trace res2))
       = [(VideoCopy, 0); (VideoFinal, 0)]
    /\ option_map last_frame_was_key (r_prev_segment_info res2) = Some false.
Proof.
  eexists. eexists.
  split; [vm_compute; reflexivity|].
  split; [vm_compute; reflexivity|].
  split; [vm_compute; reflexivity|].
  split; [vm_compute; reflexivity|].
  split; vm_compute; reflexivity.
Qed.

(** C6, the code at the failing input.  Worker B fails once.  On its own
    it sleeps 1 s and keeps its input; after five failures of worker A in
    the same process it sleeps 5 s and its input is closed by force. *)
Theorem C6_retry_counter_is_shared :
  let run sched :=
    two_workers Sample.rescale 256 64 256 "camA" "camB" sched Sample.statics0
      (Sample.worker0 "camA") (Sample.worker0 "camB") in
  let alone := run [(WorkerB, Sample.failing_iter)] in
  let after_a :=
    run (repeat (WorkerA, Sample.failing_iter) 5 ++ [(WorkerB, Sample.failing_iter)]) in
  backoffs (sp_trace (snd alone)) = [1000000]
  /\ forced_closes (sp_trace (snd alone)) = 0%nat
  /\ backoffs (sp_trace (snd after_a)) = [5000000]
  /\ forced_closes (sp_trace (snd after_a)) = 1%nat.
Proof. repeat split; vm_compute; reflexivity. Qed.

Lemma C7_trailer_once_and_closed_witness :
  exists res,
    record_segment Sample.rescale
      (Sample.seg_trailer_fails Sample.first_dts_near_limit) 30 None 1 None 0
    = Some res
    /\ r_ret res = -28
    /\ (count_trailers (r_trace res) <= 1)%nat
    /\ (avio_opened (r_trace res) = true ->
        exists tr', r_trace res = tr' ++ [OpAvioClose; OpFreeOutput]
                    /\ count_closes tr' = 0%nat).
Proof.
  eexists. split; [vm_compute; reflexivity|]. split; [reflexivity|].
  apply (C7_trailer_once_and_closed Sample.rescale
           (Sample.seg_trailer_fails Sample.first_dts_near_limit) 30 None 1 None 0).
  vm_compute. reflexivity.
Defined.

Lemma C8_segment_index_witness :
  exists res,
    record_segment Sample.rescale Sample.second_call 30 (Some Sample.cam) 0
      (Some (mkSegInfo 1 false true)) 29000000 = Some res
    /\ exists i', r_prev_segment_info res = Some i' /\ segment_index i' = 1 + 1.
Proof.
  eexists. split; [vm_compute; reflexivity|].
  apply (C8_segment_index Sample.rescale Sample.second_call 30 (Some Sample.cam) 0
           (mkSegInfo 1 false true) 29000000).
  - simpl. lia.
  - vm_compute. reflexivity.
Defined.

(* ================================================================== *)
(** * The worker's loop *)

Lemma seg_calls_app (a b : list sup_op) : seg_calls (a ++ b) = seg_calls a ++ seg_calls b.
Proof. unfold seg_calls. apply flat_map_app. Qed.

Lemma cat_adds_app (a b : list sup_op) : cat_adds (a ++ b) = cat_adds a ++ cat_adds b.
Proof. unfold cat_adds. apply flat_map_app. Qed.

Lemma cat_updates_app (a b : list sup_op) :
  cat_updates (a ++ b) = cat_updates a ++ cat_updates b.
Proof. unfold cat_updates. apply flat_map_app. Qed.

(** Effects that are neither a call of [record_segment] nor a catalog
    operation. *)
Definition is_plain_op (op : sup_op) : bool :=
  match op with SegReturn _ | SupSleep _ | CloseInput => true | _ => false end.

Lemma plain_ops_neutral (ops : list sup_op) :
  forallb is_plain_op ops = true ->
  seg_calls ops = [] /\ cat_adds ops = [] /\ cat_updates ops = [].
Proof.
  induction ops as [|op ops IH]; intros H; [repeat split|].
  simpl in H. apply andb_true_iff in H as [Hop Hops].
  destruct (IH Hops) as [A [B C]].
  destruct op; simpl in *; try discriminate; auto.
Qed.

Section WorkerFacts.

Variable av_rescale_q : Z -> AVRational -> AVRational -> Z.
Variable MAX_PATH_LENGTH : nat.
Variable MAX_STREAM_NAME : nat.
Variable sizeof_md_stream_name : nat.
Variable sizeof_md_file_path : nat.

Abbreviation sup_iter' := (sup_iter av_rescale_q MAX_PATH_LENGTH sizeof_md_stream_name
                         sizeof_md_file_path).
Abbreviation sup_loop' := (sup_loop av_rescale_q MAX_PATH_LENGTH sizeof_md_stream_name
                         sizeof_md_file_path).
Abbreviation rotation_check' := (rotation_check MAX_PATH_LENGTH sizeof_md_stream_name
                               sizeof_md_file_path).
Abbreviation rotate' := (rotate MAX_PATH_LENGTH sizeof_md_stream_name sizeof_md_file_path).

(** The retry strategy touches neither the writer nor the catalog. *)
Lemma after_segment_frame r e g s :
  sp_writer (snd (after_segment r e g s)) = sp_writer s
  /\ exists ops, sp_trace (snd (after_segment r e g s)) = sp_trace s ++ ops
                 /\ forallb is_plain_op ops = true.
Proof.
  unfold after_segment. destruct (r <? 0).
  - destruct (wrap32 (segment_retry_count g + 1) >? 5).
    + destruct (sp_input_ctx s); simpl; (split; [reflexivity|]).
      * exists [CloseInput; SupSleep (wrap32 (5 * 1000000))].
        rewrite <- app_assoc. auto.
      * eexists [_]. auto.
    + simpl. split; [reflexivity|]. eexists [_]. auto.
  - simpl. split; [reflexivity|]. exists []. rewrite app_nil_r. auto.
Qed.

(** What an iteration that runs to its end has done: the configuration was
    applied, the rotation check ran, [record_segment] was called on the
    writer's path and returned, the retry strategy ran, and the interim
    update was sent. *)
Lemma sup_iter_continue name e g s g' s' :
  sup_iter' name e g s = (g', s', SupContinue) ->
  let s1 := rotation_check' name (fst (apply_db_config e (sp_writer s))) e
              (sup_set_writer s (snd (apply_db_config e (sp_writer s)))) in
  exists mid,
    forallb is_plain_op mid = true
    /\ sp_writer s' = set_w_last_packet_time (sp_writer s1) (sv_now_after e)
    /\ sp_trace s' =
         (sp_trace s1
          ++ SegCall (w_output_path (sp_writer s1))
               (effective_duration (fst (apply_db_config e (sp_writer s))))
               (w_has_audio (sp_writer s1)) (sp_segment_info s1) :: mid)
         ++ (if w_current_recording_id (sp_writer s1) >? 0
             then match sv_stat_after e (w_output_path (sp_writer s1)) with
                  | Some st_size =>
                      [CatUpdate (w_current_recording_id (sp_writer s1)) 0 st_size false]
                  | None => []
                  end
             else []).
Proof.
  unfold sup_iter.
  destruct (sv_stop e); [simpl; discriminate|].
  destruct (negb _); [discriminate|].
  destruct (sv_shutdown e); [discriminate|].
  destruct (apply_db_config e (sp_writer s)) as [sd w1] eqn:Ecfg. simpl fst. simpl snd.
  set (s1 := rotation_check' name sd e (sup_set_writer s w1)).
  cbv zeta.
  destruct (record_segment _ _ _ _ _ _ _) as [res|]; [|discriminate].
  match goal with |- context [after_segment ?r ?e ?g ?s] =>
    pose proof (after_segment_frame r e g s) as [Hw [ops [Ht Hops]]];
    destruct (after_segment r e g s) as [g2 s4] end.
  simpl in Hw, Ht.
  intros H. injection H as <- <-.
  exists (SegReturn res :: ops). split; [simpl; exact Hops|].
  unfold interim_update. simpl. rewrite Hw. split.
  - repeat break_if; reflexivity.
  - repeat break_if; simpl; rewrite Ht, <- ?app_assoc; simpl;
      rewrite <- ?app_assoc, ?app_nil_r; reflexivity.
Qed.

(** Otherwise the iteration changes neither the writer nor the catalog. *)
Lemma sup_iter_stop name e g s g' s' st :
  sup_iter' name e g s = (g', s', st) -> st <> SupContinue ->
  let s1 := rotation_check' name (fst (apply_db_config e (sp_writer s))) e
              (sup_set_writer s (snd (apply_db_config e (sp_writer s)))) in
  (sp_writer s' = sp_writer s /\ sp_trace s' = sp_trace s)
  \/ (sp_writer s' = sp_writer s1
      /\ sp_trace s' =
           sp_trace s1
           ++ [SegCall (w_output_path (sp_writer s1))
                 (effective_duration (fst (apply_db_config e (sp_writer s))))
                 (w_has_audio (sp_writer s1)) (sp_segment_info s1)]).
Proof.
  unfold sup_iter. intros H Hst.
  remember (if sv_stop e then sup_set_thread s (signal_stop (sp_thread s)) else s)
    as s0 eqn:Es0.
  assert (Hs0 : sp_writer s0 = sp_writer s /\ sp_trace s0 = sp_trace s
                /\ sp_input_ctx s0 = sp_input_ctx s
                /\ sp_segment_info s0 = sp_segment_info s)
    by (subst s0; destruct (sv_stop e); simpl; auto).
  destruct Hs0 as [Hw [Ht [Hi Hsi]]]. clear Es0.
  destruct (negb _); [injection H as <- <- <-; left; auto|].
  destruct (sv_shutdown e); [injection H as <- <- <-; left; simpl; auto|].
  destruct (apply_db_config e (sp_writer s0)) as [sd w1] eqn:Ecfg.
  rewrite Hw in Ecfg. rewrite Ecfg. simpl fst. simpl snd.
  cbv zeta in H.
  assert (Hrot : forall a b : sup_state,
            sp_writer a = sp_writer b -> sp_trace a = sp_trace b ->
            sp_segment_info a = sp_segment_info b ->
            sp_writer (rotation_check' name sd e a) = sp_writer (rotation_check' name sd e b)
            /\ sp_trace (rotation_check' name sd e a) = sp_trace (rotation_check' name sd e b)
            /\ sp_segment_info (rotation_check' name sd e a)
               = sp_segment_info (rotation_check' name sd e b)).
  { intros a b Ea Eb Ec. unfold rotation_check, rotate.
    rewrite Ea. repeat break_if; simpl; rewrite ?Ea, ?Eb, ?Ec; auto. }
  destruct (Hrot (sup_set_writer s0 w1) (sup_set_writer s w1)) as [R1 [R2 R3]];
    [reflexivity | simpl; exact Ht | simpl; exact Hsi |].
  destruct (record_segment _ _ _ _ _ _ _) as [res|].
  - destruct (after_segment _ _ _ _) as [g2 s4]. injection H as <- <- <-.
    congruence.
  - injection H as <- <- <-. right. simpl. rewrite R1, R2, R3. auto.
Qed.

(** The configuration store changes only the segment duration and the audio
    flag of the writer. *)
Lemma apply_db_config_frame e w :
  w_output_dir (snd (apply_db_config e w)) = w_output_dir w
  /\ w_output_path (snd (apply_db_config e w)) = w_output_path w
  /\ w_last_rotation_time (snd (apply_db_config e w)) = w_last_rotation_time w
  /\ w_current_recording_id (snd (apply_db_config e w)) = w_current_recording_id w.
Proof.
  unfold apply_db_config. destruct (sv_db_config e) as [cfg|]; [|simpl; auto].
  repeat break_if; simpl; auto.
Qed.

Lemma apply_db_config_no_duration e w :
  no_db_duration e -> w_segment_duration w <= 0 ->
  fst (apply_db_config e w) = w_segment_duration w
  /\ w_segment_duration (snd (apply_db_config e w)) = w_segment_duration w.
Proof.
  unfold no_db_duration, apply_db_config. intros Hdb Hw.
  destruct (sv_db_config e) as [cfg|]; [|simpl; auto].
  assert (E : (cfg_segment_duration cfg >? 0) = false)
    by (rewrite Z.gtb_ltb; apply Z.ltb_ge; lia).
  rewrite E. break_if; simpl; auto.
Qed.

(** Without a positive segment duration: the state of a worker that has
    kept the path [path], has called [record_segment] only on [path] with
    duration 30 and has published at most one record. *)
Definition unrotated (path : string) (s : sup_state) : Prop :=
  w_segment_duration (sp_writer s) <= 0
  /\ w_output_path (sp_writer s) = path
  /\ Forall (fun fd => fd = (path, 30)) (seg_calls (sp_trace s))
  /\ (List.length (cat_adds (sp_trace s)) <= 1)%nat.

Lemma interim_tail_neutral (id : Z) (path : string) (stat : string -> option Z) :
  seg_calls (if id >? 0
             then match stat path with
                  | Some st_size => [CatUpdate id 0 st_size false]
                  | None => []
                  end
             else []) = []
  /\ cat_adds (if id >? 0
               then match stat path with
                    | Some st_size => [CatUpdate id 0 st_size false]
                    | None => []
                    end
               else []) = [].
Proof. destruct (id >? 0); [destruct (stat path)|]; auto. Qed.

Lemma sup_iter_unrotated name path e g s g' s' st :
  no_db_duration e -> unrotated path s ->
  sup_iter' name e g s = (g', s', st) -> unrotated path s'.
Proof.
  intros Hdb [Hd [Hp [Hc Ha]]] H.
  destruct (apply_db_config_no_duration e (sp_writer s) Hdb Hd) as [E1 E2].
  destruct (apply_db_config_frame e (sp_writer s)) as [_ [F2 _]].
  assert (Hsd : (fst (apply_db_config e (sp_writer s)) >? 0) = false)
    by (rewrite E1, Z.gtb_ltb; apply Z.ltb_ge; lia).
  assert (Hrot : rotation_check' name (fst (apply_db_config e (sp_writer s))) e
                   (sup_set_writer s (snd (apply_db_config e (sp_writer s))))
                 = sup_set_writer s (snd (apply_db_config e (sp_writer s))))
    by (unfold rotation_check; rewrite Hsd; reflexivity).
  assert (Heff : effective_duration (fst (apply_db_config e (sp_writer s))) = 30)
    by (unfold effective_duration; rewrite Hsd; reflexivity).
  destruct st.
  - destruct (sup_iter_continue name e g s g' s' H) as [mid [Hmid [Hw Ht]]].
    rewrite Hrot, Heff in *. simpl in Hw, Ht.
    destruct (plain_ops_neutral mid Hmid) as [M1 [M2 _]].
    match type of Ht with _ = _ ++ ?tail =>
      assert (T : seg_calls tail = [] /\ cat_adds tail = [])
        by apply interim_tail_neutral end.
    destruct T as [T1 T2].
    unfold unrotated. rewrite Hw, Ht.
    rewrite !seg_calls_app, !cat_adds_app, T1, T2. simpl.
    rewrite M1, M2, E2, F2, !app_nil_r. repeat split; auto.
    apply Forall_app. split; [exact Hc|]. constructor; [rewrite Hp; reflexivity | constructor].
  - destruct (sup_iter_stop name e g s g' s' SupExit H ltac:(discriminate))
      as [[Hw Ht] | [Hw Ht]].
    + unfold unrotated. rewrite Hw, Ht. auto.
    + rewrite Hrot, Heff in *. simpl in Hw, Ht.
      unfold unrotated. rewrite Hw, Ht, E2, F2, seg_calls_app, cat_adds_app. simpl.
      rewrite app_nil_r. repeat split; auto.
      apply Forall_app. split; [exact Hc|]. constructor; [rewrite Hp; reflexivity | constructor].
  - destruct (sup_iter_stop name e g s g' s' SupInSegment H ltac:(discriminate))
      as [[Hw Ht] | [Hw Ht]].
    + unfold unrotated. rewrite Hw, Ht. auto.
    + rewrite Hrot, Heff in *. simpl in Hw, Ht.
      unfold unrotated. rewrite Hw, Ht, E2, F2, seg_calls_app, cat_adds_app. simpl.
      rewrite app_nil_r. repeat split; auto.
      apply Forall_app. split; [exact Hc|]. constructor; [rewrite Hp; reflexivity | constructor].
Qed.

Lemma sup_loop_unrotated name path evs : forall g s,
  Forall no_db_duration evs -> unrotated path s ->
  unrotated path (snd (fst (sup_loop' name evs g s))).
Proof.
  induction evs as [|e evs IH]; intros g s Hdb Hinv; simpl; [exact Hinv|].
  inversion Hdb as [|? ? He Hrest]; subst.
  destruct (sup_iter' name e g s) as [[g' s'] st] eqn:E.
  pose proof (sup_iter_unrotated name path e g s g' s' st He Hinv E) as H'.
  destruct st; simpl; auto.
Qed.

(** C4 (as the code has it): when the writer's segment duration is not
    positive and the configuration store supplies no positive one, the
    worker never rotates: the writer's output path stays what it was, at
    most the initial metadata record is published, and every call of
    [record_segment] is made on that one path, with the default duration of
    30 seconds. *)
Theorem C4_zero_duration_default_30 init evs g thread_ctx writer :
  w_segment_duration writer <= 0 ->
  Forall no_db_duration evs ->
  let s := snd (fst (mp4_writer_rtsp_thread av_rescale_q MAX_PATH_LENGTH
                       MAX_STREAM_NAME sizeof_md_stream_name sizeof_md_file_path
                       init evs g thread_ctx writer)) in
  w_output_path (sp_writer s) = w_output_path writer
  /\ Forall (fun fd => fd = (w_output_path writer, 30)) (seg_calls (sp_trace s))
  /\ (List.length (cat_adds (sp_trace s)) <= 1)%nat.
Proof.
  intros Hd Hdb. unfold mp4_writer_rtsp_thread.
  set (name := local_stream_name MAX_STREAM_NAME writer).
  set (s0 := mkSup thread_ctx writer None (mkSegInfo 0 false false) []).
  set (s1 := initial_record sizeof_md_stream_name sizeof_md_file_path name init s0).
  assert (H1 : unrotated (w_output_path writer) s1).
  { subst s1. unfold initial_record, unrotated. simpl.
    repeat break_if; simpl; repeat split; auto. }
  set (s2 := if si_stop init then sup_set_thread s1 (signal_stop (sp_thread s1)) else s1).
  assert (H2 : unrotated (w_output_path writer) s2)
    by (subst s2; destruct (si_stop init); exact H1).
  break_if; [simpl; apply H2|].
  pose proof (sup_loop_unrotated name (w_output_path writer) evs g s2 Hdb H2) as H3.
  destruct (sup_loop' name evs g s2) as [[g' s3] exited]. simpl in H3.
  destruct exited; simpl; [|apply H3].
  destruct H3 as [_ [Hp [Hc Ha]]].
  unfold close_input. destruct (sp_input_ctx s3); simpl; auto.
  rewrite seg_calls_app, cat_adds_app. simpl. rewrite !app_nil_r. auto.
Qed.

(** A rotation whose [add_recording_metadata] returns 0. *)
Lemma rotate_add_failed name e s :
  sv_add_id e = 0 ->
  w_current_recording_id (sp_writer (rotate' name e s))
  = w_current_recording_id (sp_writer s)
  /\ w_output_path (sp_writer (rotate' name e s))
     = strncpy (MAX_PATH_LENGTH - 1)%nat (rotation_path MAX_PATH_LENGTH e (sp_writer s))
  /\ exists ops,
       sp_trace (rotate' name e s) = sp_trace s ++ ops
       /\ seg_calls ops = []
       /\ Forall (fun u => fst u = w_current_recording_id (sp_writer s))
            (cat_updates ops)
       /\ (w_current_recording_id (sp_writer s) > 0 ->
           exists st_size,
             ops = [CatAdd (new_metadata sizeof_md_stream_name sizeof_md_file_path
                              name (rotation_path MAX_PATH_LENGTH e (sp_writer s))
                              (sv_now e)) 0;
                    CatUpdate (w_current_recording_id (sp_writer s)) (sv_now e)
                      st_size true]).
Proof.
  intros Hadd. unfold rotate. rewrite Hadd.
  destruct (w_current_recording_id (sp_writer s) >? 0) eqn:Hid.
  - destruct (sv_stat_rotate e _) as [sz|]; simpl; (split; [reflexivity|]);
      (split; [reflexivity|]); eexists; rewrite <- app_assoc;
      (split; [reflexivity|]); (split; [reflexivity|]);
      (split; [repeat constructor|]); intros _; eexists; reflexivity.
  - simpl. split; [reflexivity|]. split; [reflexivity|]. eexists.
    split; [reflexivity|]. split; [reflexivity|]. split; [constructor|].
    intros H. zprop. lia.
Qed.

(** While [add_recording_metadata] returns 0, an iteration keeps the
    writer's recording id and sends every catalog update to it. *)
Lemma sup_iter_add_failed name e g s g' s' st :
  sv_add_id e = 0 ->
  sup_iter' name e g s = (g', s', st) ->
  w_current_recording_id (sp_writer s') = w_current_recording_id (sp_writer s)
  /\ exists ops, sp_trace s' = sp_trace s ++ ops
                 /\ Forall (fun u => fst u = w_current_recording_id (sp_writer s))
                      (cat_updates ops).
Proof.
  intros Hadd H.
  destruct (apply_db_config_frame e (sp_writer s)) as [_ [_ [_ F4]]].
  set (sd := fst (apply_db_config e (sp_writer s))) in *.
  set (w1 := snd (apply_db_config e (sp_writer s))) in *.
  assert (Hrot : w_current_recording_id
                   (sp_writer (rotation_check' name sd e (sup_set_writer s w1)))
                 = w_current_recording_id (sp_writer s)
                 /\ exists ops,
                      sp_trace (rotation_check' name sd e (sup_set_writer s w1))
                      = sp_trace s ++ ops
                      /\ Forall (fun u => fst u = w_current_recording_id (sp_writer s))
                           (cat_updates ops)).
  { unfold rotation_check. repeat break_if;
      try (simpl; split; [exact F4 | exists []; rewrite app_nil_r; split; [reflexivity | constructor]]).
    destruct (rotate_add_failed name e (sup_set_writer s w1) Hadd)
      as [R1 [_ [ops [R3 [_ [R5 _]]]]]].
    change (sp_writer (sup_set_writer s w1)) with w1 in R1, R5.
    change (sp_trace (sup_set_writer s w1)) with (sp_trace s) in R3.
    rewrite F4 in *.
    split; [exact R1 | exists ops; auto]. }
  destruct Hrot as [Rid [rops [Rt Ru]]].
  assert (Hst : st = SupContinue \/ st <> SupContinue)
    by (destruct st; auto; right; discriminate).
  destruct Hst as [-> | Hne].
  - destruct (sup_iter_continue name e g s g' s' H) as [mid [Hmid [Hw Ht]]].
    fold sd w1 in Hw, Ht.
    destruct (plain_ops_neutral mid Hmid) as [_ [_ M3]].
    rewrite Hw, Ht, Rt. simpl. split; [exact Rid|].
    eexists. rewrite <- !app_assoc. split; [reflexivity|].
    rewrite !cat_updates_app. apply Forall_app. split; [exact Ru|].
    change (cat_updates (SegCall _ _ _ _ :: mid)) with (cat_updates mid).
    rewrite M3. simpl. rewrite Rid.
    repeat break_if; simpl; repeat constructor.
  - destruct (sup_iter_stop name e g s g' s' st H Hne) as [[Hw Ht] | [Hw Ht]];
      fold sd w1 in Hw, Ht.
    + rewrite Hw, Ht. split; [reflexivity|].
      exists []. rewrite app_nil_r. split; [reflexivity | constructor].
    + rewrite Hw, Ht, Rt. split; [exact Rid|].
      eexists. rewrite <- app_assoc. split; [reflexivity|].
      rewrite cat_updates_app. simpl. rewrite app_nil_r. exact Ru.
Qed.

Lemma sup_loop_add_failed name evs : forall g s,
  Forall (fun e => sv_add_id e = 0) evs ->
  w_current_recording_id (sp_writer (snd (fst (sup_loop' name evs g s))))
  = w_current_recording_id (sp_writer s)
  /\ exists ops, sp_trace (snd (fst (sup_loop' name evs g s))) = sp_trace s ++ ops
                 /\ Forall (fun u => fst u = w_current_recording_id (sp_writer s))
                      (cat_updates ops).
Proof.
  induction evs as [|e evs IH]; intros g s Hall; simpl.
  - split; [reflexivity|]. exists []. rewrite app_nil_r. split; [reflexivity | constructor].
  - inversion Hall as [|? ? He Hrest]; subst.
    destruct (sup_iter' name e g s) as [[g' s'] st] eqn:E.
    destruct (sup_iter_add_failed name e g s g' s' st He E) as [Hid [ops [Ht Hu]]].
    destruct st; simpl; try (split; [exact Hid | exists ops; auto]).
    destruct (IH g' s' Hrest) as [Hid' [ops' [Ht' Hu']]].
    rewrite Hid', Ht', Ht, Hid. split; [reflexivity|].
    exists (ops ++ ops'). rewrite app_assoc. split; [reflexivity|].
    rewrite cat_updates_app. apply Forall_app. rewrite Hid in Hu'. auto.
Qed.

(** C9: in an iteration that rotates while [add_recording_metadata] returns
    0 and the writer holds the recording id [id > 0], the worker first
    marks record [id] complete, then switches the writer's output path to
    the new file while [current_recording_id] stays [id]; the interim
    update of that iteration is sent to [id] with the size of the new file
    and [is_complete = false]; and in all later iterations, as long as no
    [add_recording_metadata] succeeds, [current_recording_id] stays [id]
    and every catalog update goes to [id]. *)
Theorem C9_failed_add_keeps_recording_id name e g s g' s' id :
  sup_iter' name e g s = (g', s', SupContinue) ->
  fst (apply_db_config e (sp_writer s)) > 0 ->
  wrap64 (sv_now e - w_last_rotation_time (sp_writer s))
    >= fst (apply_db_config e (sp_writer s)) ->
  sv_add_id e = 0 ->
  w_current_recording_id (sp_writer s) = id -> id > 0 ->
  let w1 := snd (apply_db_config e (sp_writer s)) in
  let new_file := rotation_path MAX_PATH_LENGTH e w1 in
  let new_path := strncpy (MAX_PATH_LENGTH - 1)%nat new_file in
  w_output_path (sp_writer s') = new_path
  /\ w_current_recording_id (sp_writer s') = id
  /\ (exists st_size mid,
        forallb is_plain_op mid = true
        /\ sp_trace s' =
             sp_trace s
             ++ [CatAdd (new_metadata sizeof_md_stream_name sizeof_md_file_path
                           name new_file (sv_now e)) 0;
                 CatUpdate id (sv_now e) st_size true;
                 SegCall new_path
                   (effective_duration (fst (apply_db_config e (sp_writer s))))
                   (w_has_audio w1) (sp_segment_info s)]
             ++ mid
             ++ match sv_stat_after e new_path with
                | Some new_size => [CatUpdate id 0 new_size false]
                | None => []
                end)
  /\ (forall evs,
        Forall (fun e' => sv_add_id e' = 0) evs ->
        let s'' := snd (fst (sup_loop' name evs g' s')) in
        w_current_recording_id (sp_writer s'') = id
        /\ exists ops, sp_trace s'' = sp_trace s' ++ ops
                       /\ Forall (fun u => fst u = id) (cat_updates ops)).
Proof.
  intros H Hsd Hdue Hadd Hid Hpos. cbv zeta.
  destruct (apply_db_config_frame e (sp_writer s)) as [_ [_ [F3 F4]]].
  destruct (sup_iter_continue name e g s g' s' H) as [mid [Hmid [Hw Ht]]].
  set (sd := fst (apply_db_config e (sp_writer s))) in *.
  set (w1 := snd (apply_db_config e (sp_writer s))) in *.
  assert (Hrot : rotation_check' name sd e (sup_set_writer s w1)
                 = rotate' name e (sup_set_writer s w1)).
  { unfold rotation_check.
    assert (E1 : (sd >? 0) = true) by (rewrite Z.gtb_ltb; apply Z.ltb_lt; lia).
    rewrite E1. simpl. rewrite F3.
    assert (E2 : (wrap64 (sv_now e - w_last_rotation_time (sp_writer s)) >=? sd) = true)
      by (rewrite Z.geb_leb; apply Z.leb_le; lia).
    rewrite E2. reflexivity. }
  rewrite Hrot in Hw, Ht.
  destruct (rotate_add_failed name e (sup_set_writer s w1) Hadd)
    as [R1 [R2 [ops [R3 [_ [_ R6]]]]]].
  change (sp_writer (sup_set_writer s w1)) with w1 in R1, R2, R6.
  change (sp_trace (sup_set_writer s w1)) with (sp_trace s) in R3.
  rewrite F4, Hid in *.
  destruct (R6 Hpos) as [st_size Hops]. subst ops.
  assert (Eid : (id >? 0) = true) by (rewrite Z.gtb_ltb; apply Z.ltb_lt; lia).
  assert (Hsi : sp_segment_info (rotate' name e (sup_set_writer s w1)) = sp_segment_info s).
  { unfold rotate. repeat break_if; reflexivity. }
  assert (Hha : w_has_audio (sp_writer (rotate' name e (sup_set_writer s w1)))
                = w_has_audio w1).
  { unfold rotate. repeat break_if; reflexivity. }
  rewrite R1, R2, R3, Hsi, Hha, Eid in Ht.
  split; [rewrite Hw; simpl; exact R2|].
  split; [rewrite Hw; simpl; exact R1|].
  split.
  - exists st_size, mid. split; [exact Hmid|].
    rewrite Ht, <- !app_assoc. reflexivity.
  - intros evs Hall.
    destruct (sup_loop_add_failed name evs g' s' Hall) as [Hid' Hops'].
    assert (Hs' : w_current_recording_id (sp_writer s') = id)
      by (rewrite Hw; simpl; exact R1).
    rewrite Hs' in *. auto.
Qed.

End WorkerFacts.

(** C4 as the specification states it fails: with a segment duration of 0
    the worker calls [record_segment] with duration 30, not 0. *)
Lemma C4_duration_zero_not_passed :
  seg_calls
    (sp_trace (snd (fst (mp4_writer_rtsp_thread Sample.rescale 256 64 64 256
                           Sample.init0 Sample.unconfigured_session
                           Sample.statics0 Sample.thread0
                           (Sample.writer0 "/rec/a.mp4" 0)))))
  = [("/rec/a.mp4"%string, 30); ("/rec/a.mp4"%string, 30)]
  /\ ~ zero_duration_as_specified "/rec/a.mp4"
        (sp_trace (snd (fst (mp4_writer_rtsp_thread Sample.rescale 256 64 64 256
                               Sample.init0 Sample.unconfigured_session
                               Sample.statics0 Sample.thread0
                               (Sample.writer0 "/rec/a.mp4" 0))))).
Proof.
  split; [vm_compute; reflexivity|].
  intros [H _]. vm_compute in H. inversion H as [|? ? Hhd _]. discriminate Hhd.
Qed.

Lemma C4_zero_duration_default_30_witness :
  w_segment_duration (Sample.writer0 "/rec/a.mp4" 0) <= 0
  /\ Forall no_db_duration Sample.unconfigured_session
  /\ (let s := snd (fst (mp4_writer_rtsp_thread Sample.rescale 256 64 64 256
                           Sample.init0 Sample.unconfigured_session
                           Sample.statics0 Sample.thread0
                           (Sample.writer0 "/rec/a.mp4" 0))) in
      w_output_path (sp_writer s) = w_output_path (Sample.writer0 "/rec/a.mp4" 0)
      /\ Forall (fun fd => fd = (w_output_path (Sample.writer0 "/rec/a.mp4" 0), 30))
           (seg_calls (sp_trace s))
      /\ (List.length (cat_adds (sp_trace s)) <= 1)%nat).
Proof.
  assert (H1 : w_segment_duration (Sample.writer0 "/rec/a.mp4" 0) <= 0)
    by (simpl; lia).
  assert (H2 : Forall no_db_duration Sample.unconfigured_session)
    by (repeat constructor).
  split; [exact H1|]. split; [exact H2|].
  exact (C4_zero_duration_default_30 Sample.rescale 256 64 64 256 Sample.init0
           Sample.unconfigured_session Sample.statics0 Sample.thread0
           (Sample.writer0 "/rec/a.mp4" 0) H1 H2).
Defined.

Lemma C9_failed_add_keeps_recording_id_witness :
  exists g' s',
    sup_iter Sample.rescale 256 64 256 "cam1" Sample.rotation_add_fails
      Sample.statics0 Sample.rotating_worker = (g', s', SupContinue)
    /\ w_output_path (sp_writer s') = "/rec/recording_20240101_000040.mp4"%string
    /\ w_current_recording_id (sp_writer s') = 7
    /\ cat_updates (sp_trace s') = [(7, true); (7, false)].
Proof.
  eexists. eexists. split; [vm_compute; reflexivity|].
  match goal with |- context [sp_writer ?s] =>
    destruct (C9_failed_add_keeps_recording_id Sample.rescale 256 64 256 "cam1"
                Sample.rotation_add_fails Sample.statics0 Sample.rotating_worker
                Sample.statics0 s 7) as [Hp [Hid _]]
  end.
  - vm_compute. reflexivity.
  - vm_compute. reflexivity.
  - vm_compute. discriminate.
  - reflexivity.
  - reflexivity.
  - lia.
  - split; [exact Hp|]. split; [exact Hid|]. vm_compute. reflexivity.
Defined.

(* ================================================================== *)
(** * What one packet does to the trace *)

Section PacketEffects.

Variable av_rescale_q : Z -> AVRational -> AVRational -> Z.

Lemma rebase_by_index_flags k fd fp p : flags (rebase_by_index k fd fp p) = flags p.
Proof. unfold rebase_by_index. repeat break_if; reflexivity. Qed.

Lemma fix_pts_ge_dts_flags p : flags (fix_pts_ge_dts p) = flags p.
Proof. unfold fix_pts_ge_dts. break_if; reflexivity. Qed.

Lemma overflow_guard_flags p : flags (overflow_guard p) = flags p.
Proof. unfold overflow_guard. repeat break_if; reflexivity. Qed.

Lemma cap_duration_flags p : flags (cap_duration p) = flags p.
Proof. unfold cap_duration. break_if; reflexivity. Qed.

Lemma video_duration_flags st p : flags (video_duration av_rescale_q st p) = flags p.
Proof. unfold video_duration. repeat break_if; reflexivity. Qed.

(** A copied video packet adds one write to the trace: the packet goes to
    output stream 0 with its flags; the flags of the state and the segment
    information stay. *)
Lemma video_copy_effect c e s pkt :
  exists p,
    trace (video_copy av_rescale_q c e s pkt)
    = trace s ++ [OpWriteFrame VideoCopy p (ev_write_ret e)]
    /\ flags p = flags pkt /\ stream_index p = out_video_index
    /\ found_first_keyframe (video_copy av_rescale_q c e s pkt) = found_first_keyframe s
    /\ prev_segment_info (video_copy av_rescale_q c e s pkt) = prev_segment_info s.
Proof.
  unfold video_copy. destruct (init_first _ _ pkt) as [fd fp].
  exists (set_stream_index
            (video_duration av_rescale_q
               (stream_at (lc_input c) (lc_video_stream_idx c))
               (rebase_video_copy c fd fp pkt)) out_video_index).
  split; [break_if; reflexivity|].
  split.
  - unfold set_stream_index, rebase_video_copy. cbn [flags].
    rewrite video_duration_flags, fix_pts_ge_dts_flags, rebase_by_index_flags.
    reflexivity.
  - split; [reflexivity|]. split; break_if; reflexivity.
Qed.

(** The packet that ends the recording. *)
Lemma final_video_frame_effect c e s pkt k :
  exists p,
    trace (final_video_frame av_rescale_q c e s pkt k)
    = trace s ++ [OpWriteFrame VideoFinal p (ev_write_ret e)]
    /\ flags p = flags pkt /\ stream_index p = out_video_index
    /\ found_first_keyframe (final_video_frame av_rescale_q c e s pkt k)
       = found_first_keyframe s
    /\ prev_segment_info (final_video_frame av_rescale_q c e s pkt k)
       = store_last_frame_was_key (prev_segment_info s) k.
Proof.
  unfold final_video_frame. destruct (init_first _ _ pkt) as [fd fp].
  exists (set_stream_index
            (video_duration av_rescale_q
               (stream_at (lc_input c) (lc_video_stream_idx c))
               (rebase_video_final c fd fp pkt)) out_video_index).
  split; [reflexivity|].
  split.
  - unfold set_stream_index, rebase_video_final. cbn [flags].
    rewrite video_duration_flags, cap_duration_flags, overflow_guard_flags,
      fix_pts_ge_dts_flags, rebase_by_index_flags.
    reflexivity.
  - split; [reflexivity|]. split; reflexivity.
Qed.

(** An audio packet is dropped before the first video frame was accepted
    and written to output stream 1 afterwards. *)
Lemma audio_packet_effect c e s pkt :
  (found_first_keyframe s = false /\ audio_packet av_rescale_q c e s pkt = s)
  \/ (found_first_keyframe s = true
      /\ exists p,
           trace (audio_packet av_rescale_q c e s pkt)
           = trace s ++ [OpWriteFrame AudioCopy p (ev_write_ret e)]
           /\ stream_index p = out_audio_index
           /\ found_first_keyframe (audio_packet av_rescale_q c e s pkt) = true
           /\ prev_segment_info (audio_packet av_rescale_q c e s pkt)
              = prev_segment_info s).
Proof.
  unfold audio_packet. destruct (found_first_keyframe s) eqn:Hf; simpl; [|auto].
  right. split; [reflexivity|].
  destruct (init_first _ _ pkt) as [fd fp].
  eexists. break_if; simpl; rewrite ?Hf; repeat split; reflexivity.
Qed.

(** The two checks at the top of the loop body only set the waiting flags. *)
Lemma checks_effect c e s :
  let s1 := set_ret (check_duration c e (check_shutdown e s)) (ev_read_ret e) in
  trace s1 = trace s
  /\ found_first_keyframe s1 = found_first_keyframe s
  /\ prev_segment_info s1 = prev_segment_info s
  /\ (waiting_for_final_keyframe s = true -> waiting_for_final_keyframe s1 = true)
  /\ waiting_start_time s1 = waiting_start_time s.
Proof.
  unfold check_duration, check_shutdown.
  repeat break_if; simpl; repeat split; auto.
Qed.

(** Whether a packet carries [AV_PKT_FLAG_KEY]. *)
Definition key_flag (p : AVPacket) : bool :=
  negb (Z.land (flags p) AV_PKT_FLAG_KEY =? 0).

(** What one iteration of the loop does, seen from outside: it writes
    nothing, or it writes the video packet it read, or it writes the audio
    packet it read. *)
Definition iter_writes_nothing (e : loop_event) (s s' : loop_state) (brk : bool)
  : Prop :=
  written (trace s') = written (trace s)
  /\ found_first_keyframe s' = found_first_keyframe s
  /\ prev_segment_info s' = prev_segment_info s
  /\ (brk = true -> ev_read_ret e < 0 /\ ev_read_ret e <> AVERROR_EAGAIN).

Definition iter_writes_video (c : loop_ctx) (e : loop_event) (s s' : loop_state)
  (brk : bool) : Prop :=
  0 <= ev_read_ret e
  /\ stream_index (ev_pkt e) = lc_video_stream_idx c
  /\ (found_first_keyframe s = true
      \/ (prev_last_frame_was_key (prev_segment_info s) = true
          /\ lc_segment_index c > 0)
      \/ key_flag (ev_pkt e) = true)
  /\ found_first_keyframe s' = true
  /\ exists w p,
       trace s' = trace s ++ [OpWriteFrame w p (ev_write_ret e)]
       /\ flags p = flags (ev_pkt e)
       /\ stream_index p = out_video_index
       /\ ((w = VideoCopy /\ brk = false
            /\ prev_segment_info s' = prev_segment_info s)
           \/ (w = VideoFinal /\ brk = true
               /\ prev_segment_info s'
                  = store_last_frame_was_key (prev_segment_info s)
                      (key_flag (ev_pkt e)))).

Definition iter_writes_audio (c : loop_ctx) (e : loop_event) (s s' : loop_state)
  (brk : bool) : Prop :=
  0 <= ev_read_ret e
  /\ stream_index (ev_pkt e) <> lc_video_stream_idx c
  /\ lc_has_audio c <> 0 /\ lc_out_audio_stream c = true
  /\ found_first_keyframe s = true /\ found_first_keyframe s' = true
  /\ brk = false
  /\ prev_segment_info s' = prev_segment_info s
  /\ exists p,
       trace s' = trace s ++ [OpWriteFrame AudioCopy p (ev_write_ret e)]
       /\ stream_index p = out_audio_index.

Lemma video_packet_effect c e s0 s :
  trace s = trace s0 -> found_first_keyframe s = found_first_keyframe s0 ->
  prev_segment_info s = prev_segment_info s0 ->
  0 <= ev_read_ret e -> stream_index (ev_pkt e) = lc_video_stream_idx c ->
  let r := video_packet av_rescale_q c e s (ev_pkt e) in
  iter_writes_nothing e s0 (fst r) (snd r)
  \/ iter_writes_video c e s0 (fst r) (snd r).
Proof.
  intros Ht Hf Hp Hret Hidx. unfold video_packet. fold (key_flag (ev_pkt e)).
  set (k := key_flag (ev_pkt e)).
  assert (Hrest : forall s1,
    trace s1 = trace s0 -> prev_segment_info s1 = prev_segment_info s0 ->
    found_first_keyframe s1 = true ->
    (found_first_keyframe s0 = true
     \/ (prev_last_frame_was_key (prev_segment_info s0) = true
         /\ lc_segment_index c > 0)
     \/ k = true) ->
    let r := (if waiting_for_final_keyframe s1
              then
                let s2 := if waiting_start_time s1 =? 0
                          then set_waiting_start s1 (ev_t_wait0 e) else s1 in
                if k || (Z.quot (wrap64 (ev_t_wait e - waiting_start_time s2)) 1000000 >? 2)
                then (final_video_frame av_rescale_q c e s2 (ev_pkt e) k, true)
                else (video_copy av_rescale_q c e s2 (ev_pkt e), false)
              else (video_copy av_rescale_q c e s1 (ev_pkt e), false)) in
    iter_writes_video c e s0 (fst r) (snd r)).
  { intros s1 Ht1 Hp1 Hf1 Hwhy.
    assert (Hcopy : forall s2, trace s2 = trace s0 ->
              prev_segment_info s2 = prev_segment_info s0 ->
              found_first_keyframe s2 = true ->
              iter_writes_video c e s0 (video_copy av_rescale_q c e s2 (ev_pkt e)) false).
    { intros s2 Ht2 Hp2 Hf2.
      destruct (video_copy_effect c e s2 (ev_pkt e)) as [p [E1 [E2 [E3 [E4 E5]]]]].
      unfold iter_writes_video. repeat split; auto; [congruence|].
      exists VideoCopy, p. rewrite E1, Ht2. repeat split; auto.
      left. repeat split; congruence. }
    destruct (waiting_for_final_keyframe s1); cbv zeta.
    - set (s2 := if waiting_start_time s1 =? 0
                 then set_waiting_start s1 (ev_t_wait0 e) else s1).
      assert (H2 : trace s2 = trace s0 /\ prev_segment_info s2 = prev_segment_info s0
                   /\ found_first_keyframe s2 = true)
        by (subst s2; break_if; simpl; auto).
      destruct H2 as [Ht2 [Hp2 Hf2]].
      break_if; simpl.
      + destruct (final_video_frame_effect c e s2 (ev_pkt e) k)
          as [p [E1 [E2 [E3 [E4 E5]]]]].
        unfold iter_writes_video. repeat split; auto; [congruence|].
        exists VideoFinal, p. rewrite E1, Ht2. repeat split; auto.
        right. split; [reflexivity|]. split; [reflexivity|].
        rewrite E5, Hp2. reflexivity.
      + apply Hcopy; auto.
    - simpl. apply Hcopy; auto. }
  destruct (found_first_keyframe s) eqn:Hfs.
  - right. apply Hrest; auto; left; congruence.
  - destruct (prev_last_frame_was_key (prev_segment_info s) && (lc_segment_index c >? 0))
      eqn:Hexc.
    + right. zprop. apply Hrest; auto; right; left.
      rewrite <- Hp. split; [assumption | lia].
    + destruct k eqn:Hk.
      * right. apply Hrest; auto.
      * left. simpl. unfold iter_writes_nothing.
        rewrite Ht. repeat split; auto; try congruence; discriminate.
Qed.

Lemma loop_iter_effect c e s :
  let r := loop_iter av_rescale_q c e s in
  iter_writes_nothing e s (fst r) (snd r)
  \/ iter_writes_video c e s (fst r) (snd r)
  \/ iter_writes_audio c e s (fst r) (snd r).
Proof.
  unfold loop_iter.
  destruct (checks_effect c e s) as [Ht [Hf [Hp _]]].
  set (s1 := set_ret (check_duration c e (check_shutdown e s)) (ev_read_ret e)) in *.
  destruct (ev_read_ret e <? 0) eqn:Hneg.
  - left. zprop.
    destruct (ev_read_ret e =? AVERROR_EOF) eqn:Heof; simpl.
    + zprop. unfold iter_writes_nothing. rewrite Ht. repeat split; auto.
      rewrite Heof. discriminate.
    + destruct (ev_read_ret e =? AVERROR_EAGAIN) eqn:Hag; simpl.
      * unfold iter_writes_nothing. cbn [fst snd]. unfold emit.
        cbn [trace found_first_keyframe prev_segment_info].
        rewrite written_app, Ht. simpl.
        rewrite app_nil_r. repeat split; auto; discriminate.
      * zprop. unfold iter_writes_nothing. rewrite Ht. repeat split; auto.
  - zprop. destruct (stream_index (ev_pkt e) =? lc_video_stream_idx c) eqn:Hv.
    + zprop.
      destruct (video_packet_effect c e s s1 Ht Hf Hp ltac:(lia) Hv) as [H|H]; auto.
    + zprop. destruct (negb (lc_has_audio c =? 0) && (lc_audio_stream_idx c >=? 0)
                && (stream_index (ev_pkt e) =? lc_audio_stream_idx c)
                && lc_out_audio_stream c) eqn:Ha; simpl.
      * apply andb_true_iff in Ha as [Ha Ha4].
        apply andb_true_iff in Ha as [Ha Ha3].
        apply andb_true_iff in Ha as [Ha1 Ha2].
        apply negb_true_iff in Ha1. zprop.
        destruct (audio_packet_effect c e s1 (ev_pkt e)) as [[Hnf E] | [Hfd [p [E1 [E2 [E3 E4]]]]]].
        -- left. rewrite E. unfold iter_writes_nothing. rewrite Ht.
           repeat split; auto; discriminate.
        -- right; right. unfold iter_writes_audio.
           repeat split; auto; try lia; try congruence.
           exists p. rewrite E1, Ht. auto.
      * left. unfold iter_writes_nothing. rewrite Ht. repeat split; auto; discriminate.
Qed.

End PacketEffects.

(* ================================================================== *)
(** * Which packets reach the file *)


(** The set-up never changes an input it was given, and the streams the
    loop works with are those [find_streams] selects. *)
Lemma setup_output_ready env ctx ha tr0 :
  forall ictx v a oa tr,
    setup_output env ctx ha tr0 = SetupReady ictx v a oa tr ->
    ictx = ctx /\ v = fst (find_streams ctx) /\ a = snd (find_streams ctx)
    /\ 0 <= v /\ oa = ((a >=? 0) && negb (ha =? 0)).
Proof.
  intros ictx v a oa tr. unfold setup_output.
  destruct (find_streams ctx) as [v0 a0].
  destruct (v0 <? 0) eqn:Hv; [discriminate|].
  destruct (se_alloc_output env) as [r_alloc o].
  repeat (break_if; try discriminate).
  intros H. injection H as <- <- <- <- _. zprop. simpl. auto.
Qed.

Lemma setup_output_failed env ctx ha tr0 :
  forall r slot o pb tr,
    setup_output env ctx ha tr0 = SetupFailed r slot o pb tr -> slot = Some ctx.
Proof.
  intros r slot o pb tr. unfold setup_output.
  destruct (find_streams ctx) as [v0 a0].
  destruct (se_alloc_output env) as [r_alloc oc].
  repeat (break_if; try discriminate); intros H; injection H as _ <- _ _ _;
    reflexivity.
Qed.

(** The input a call works on: the one its caller hands over or, without
    one, the one [avformat_open_input] gives. *)
Definition input_of (env : seg_env) (input_ctx_ptr : option AVFormatContext)
  : AVFormatContext :=
  match input_ctx_ptr with
  | Some input_ctx => input_ctx
  | None => snd (se_open_input env)
  end.

Lemma setup_ready env slot ha ictx v a oa tr :
  setup env slot ha = SetupReady ictx v a oa tr ->
  ictx = input_of env slot
  /\ v = fst (find_streams (input_of env slot))
  /\ a = snd (find_streams (input_of env slot))
  /\ 0 <= v /\ oa = ((a >=? 0) && negb (ha =? 0)).
Proof.
  unfold setup, input_of. destruct slot as [ctx|].
  - apply setup_output_ready.
  - destruct (se_open_input env) as [r_open ctx]. simpl.
    destruct (r_open <? 0); [discriminate|].
    destruct (se_find_stream_info env <? 0); [discriminate|].
    apply setup_output_ready.
Qed.

Section WhichPackets.

Variable av_rescale_q : Z -> AVRational -> AVRational -> Z.

Lemma segment_submitted_written env d slot ha prev wst :
  map fst (segment_submitted av_rescale_q env d slot ha prev wst)
  = segment_written av_rescale_q env d slot ha prev wst.
Proof.
  unfold segment_submitted, segment_written.
  destruct (segment_loop av_rescale_q env d slot ha prev wst)
    as [[c [s brk]]|]; [apply submitted_written | reflexivity].
Qed.

(** A property of loop states that every kind of iteration keeps is kept by
    the loop. *)
Lemma copy_loop_keeps (c : loop_ctx) (P : loop_state -> Prop) :
  (forall e s s' brk,
      P s ->
      iter_writes_nothing e s s' brk \/ iter_writes_video c e s s' brk
      \/ iter_writes_audio c e s s' brk ->
      P s') ->
  forall evs s, P s -> P (fst (copy_loop av_rescale_q c evs s)).
Proof.
  intros Hstep. induction evs as [|e evs IH]; intros s Hs; simpl; [exact Hs|].
  pose proof (loop_iter_effect av_rescale_q c e s) as He.
  destruct (loop_iter av_rescale_q c e s) as [s' brk]. simpl in He.
  pose proof (Hstep e s s' brk Hs He) as Hs'.
  destruct brk; simpl; [exact Hs' | apply IH, Hs'].
Qed.

(** The head of the written packets: a video packet that is a key frame,
    unless the previous segment ended on a key frame. *)
Definition starts_on_key_frame (c : loop_ctx) (prev : option segment_info_t)
  (ws : list (write_path * AVPacket)) : Prop :=
  match ws with
  | [] => False
  | (w, p) :: _ =>
      w <> AudioCopy
      /\ (key_flag p = true
          \/ (prev_last_frame_was_key prev = true /\ lc_segment_index c > 0))
  end.

Lemma starts_on_key_frame_app c prev ws more :
  starts_on_key_frame c prev ws -> starts_on_key_frame c prev (ws ++ more).
Proof. destruct ws as [|[w p] ws]; simpl; auto. contradiction. Qed.

Definition gate_inv (c : loop_ctx) (prev : option segment_info_t)
  (s : loop_state) : Prop :=
  (found_first_keyframe s = false /\ written (trace s) = []
   /\ prev_segment_info s = prev)
  \/ (found_first_keyframe s = true
      /\ starts_on_key_frame c prev (written (trace s))).

Lemma gate_inv_step c prev e s s' brk :
  gate_inv c prev s ->
  iter_writes_nothing e s s' brk \/ iter_writes_video c e s s' brk
  \/ iter_writes_audio c e s s' brk ->
  gate_inv c prev s'.
Proof.
  intros Hinv [H | [H | H]].
  - destruct H as [Hw [Hf [Hp _]]]. unfold gate_inv. rewrite Hw, Hf, Hp. exact Hinv.
  - destruct H as [_ [_ [Hwhy [Hf' [w [p [Ht [Hfl [_ Hw]]]]]]]]].
    right. split; [exact Hf'|]. rewrite Ht, written_app. simpl.
    destruct Hinv as [[Hf [Hnil Hp]] | [_ Hhead]].
    + rewrite Hnil. simpl. split.
      * destruct Hw as [[-> _] | [-> _]]; discriminate.
      * destruct Hwhy as [Hfound | [Hexc | Hkey]].
        -- congruence.
        -- right. rewrite <- Hp. exact Hexc.
        -- left. unfold key_flag in *. rewrite Hfl. exact Hkey.
    + apply starts_on_key_frame_app, Hhead.
  - destruct H as [_ [_ [_ [_ [Hf [Hf' [_ [_ [p [Ht _]]]]]]]]]].
    right. split; [exact Hf'|]. rewrite Ht, written_app.
    destruct Hinv as [[Hnf _] | [_ Hhead]]; [congruence|].
    apply starts_on_key_frame_app, Hhead.
Qed.

(** The head of the packets of a call, without the return values. *)
Lemma first_written_packet env d slot ha prev wst :
  match segment_written av_rescale_q env d slot ha prev wst with
  | [] => True
  | (w, p) :: _ =>
      w <> AudioCopy
      /\ (key_flag p = true
          \/ (prev_last_frame_was_key prev = true /\ next_segment_index prev > 0))
  end.
Proof.
  unfold segment_written, segment_loop.
  pose proof (setup_has_facts env slot ha) as F.
  destruct (setup env slot ha) as [r sl o pb tr | ictx v a oa tr]; [exact I|].
  simpl in F. destruct F as [_ [_ [_ Hw]]].
  set (c := mkCtx ictx v a ha oa d (next_segment_index prev)).
  pose proof (copy_loop_keeps c (gate_inv c prev) (gate_inv_step c prev)
                (se_events env) (initial_state env prev wst tr)) as Hinv.
  destruct (copy_loop av_rescale_q c (se_events env) (initial_state env prev wst tr))
    as [s brk]. simpl in Hinv.
  destruct Hinv as [[_ [Hnil _]] | [_ Hhead]].
  - left. simpl. auto.
  - rewrite Hnil. exact I.
  - destruct (written (trace s)) as [|[w p] ws]; [exact I | exact Hhead].
Qed.

(** The first packet a call submits to [av_interleaved_write_frame] is a
    video packet, and it is a key frame unless the previous segment ended
    on a key frame and the segment index is positive; so no audio packet is
    submitted before the first video frame.  This holds whatever the muxer
    returns for that packet: a write that fails is only logged and the loop
    goes on, so nothing is said of the first packet the muxer accepts. *)
Theorem first_submitted_packet_is_video_key_frame env d slot ha prev wst :
  match segment_submitted av_rescale_q env d slot ha prev wst with
  | [] => True
  | (w, p, _) :: _ =>
      w <> AudioCopy
      /\ (key_flag p = true
          \/ (prev_last_frame_was_key prev = true /\ next_segment_index prev > 0))
  end.
Proof.
  pose proof (first_written_packet env d slot ha prev wst) as H.
  rewrite <- segment_submitted_written in H.
  destruct (segment_submitted av_rescale_q env d slot ha prev wst)
    as [|[[w p] r] l]; [exact I | exact H].
Qed.

(** An audio packet is submitted only in a call whose caller passed a
    non-zero [has_audio] and whose input has an audio stream, and a call
    submits at most one audio packet for each packet it read from that
    stream, the first audio stream of its input. *)
Theorem audio_comes_from_the_audio_stream env d slot ha prev wst :
  let a := snd (find_streams (input_of env slot)) in
  let audio := audio_of (segment_submitted av_rescale_q env d slot ha prev wst) in
  (audio <> [] -> ha <> 0 /\ 0 <= a)
  /\ (List.length audio
      <= List.length (filter (reads_stream a) (se_events env)))%nat.
Proof.
  cbv zeta. unfold segment_submitted, segment_loop.
  pose proof (setup_has_facts env slot ha) as F.
  destruct (setup env slot ha) as [r sl o pb tr | ictx v a oa tr] eqn:E.
  - simpl. split; [intros H; contradiction | lia].
  - simpl in F. destruct F as [_ [_ [_ Hw]]].
    destruct (setup_ready env slot ha ictx v a oa tr E) as [_ [_ [Ha _]]].
    assert (Hs : submitted tr = []).
    { apply map_eq_nil with (f := fst). rewrite submitted_written. exact Hw. }
    destruct (copy_loop_audio_source av_rescale_q
                (mkCtx ictx v a ha oa d (next_segment_index prev)) (se_events env)
                (initial_state env prev wst tr)) as [more [Hm [Hen Hlen]]].
    destruct (copy_loop av_rescale_q _ (se_events env) _) as [s brk].
    cbn [fst] in Hm. simpl in Hm, Hen, Hlen. rewrite Hs in Hm. simpl in Hm.
    rewrite Hm, <- Ha. split; [exact Hen | exact Hlen].
Qed.

(** An iteration that reads "try again", or a packet of a stream other than
    the video stream, does not end the loop. *)
Definition keeps_looping (video_stream_idx : Z) (e : loop_event) : Prop :=
  ev_read_ret e = AVERROR_EAGAIN
  \/ (0 <= ev_read_ret e /\ stream_index (ev_pkt e) <> video_stream_idx).

Lemma copy_loop_keeps_looping c evs : forall s,
  Forall (keeps_looping (lc_video_stream_idx c)) evs ->
  snd (copy_loop av_rescale_q c evs s) = false.
Proof.
  induction evs as [|e evs IH]; intros s Hall; simpl; [reflexivity|].
  inversion Hall as [|? ? He Hrest]; subst.
  pose proof (loop_iter_effect av_rescale_q c e s) as Heff.
  destruct (loop_iter av_rescale_q c e s) as [s' brk]. simpl in Heff.
  destruct brk; [exfalso | apply IH, Hrest].
  destruct Heff as [H | [H | H]].
  - destruct H as [_ [_ [_ Hb]]]. destruct (Hb eq_refl) as [Hneg Hne].
    destruct He as [He | [He _]]; [congruence | lia].
  - destruct H as [Hret [Hidx _]].
    destruct He as [He | [_ He]]; [|congruence].
    rewrite He in Hret. unfold AVERROR_EAGAIN in Hret. lia.
  - destruct H as [_ [_ [_ [_ [_ [_ [Hb _]]]]]]]. discriminate.
Qed.

(** While the source only answers "try again" or delivers packets of other
    streams than the video stream, a call that has reached its loop does not
    return, whether or not shutdown was initiated or the duration has
    elapsed, and whether the caller handed over an open input or the call
    opened it. *)
Theorem silent_source_never_returns env d slot ha prev wst :
  Forall (keeps_looping (fst (find_streams (input_of env slot)))) (se_events env) ->
  segment_loop av_rescale_q env d slot ha prev wst <> None ->
  record_segment av_rescale_q env d slot ha prev wst = None.
Proof.
  unfold segment_loop, record_segment. intros Hall.
  pose proof (setup_ready env slot ha) as Hready.
  destruct (setup env slot ha) as [r sl o pb tr | ictx v a oa tr].
  - intros Hc. exfalso. apply Hc. reflexivity.
  - intros _. destruct (Hready ictx v a oa tr eq_refl) as [_ [Hv _]].
    rewrite <- Hv in Hall.
    match goal with |- context [copy_loop ?f ?c ?evs ?s0] =>
      pose proof (copy_loop_keeps_looping c evs s0 Hall) as Hb;
      destruct (copy_loop f c evs s0) as [s brk] end.
    simpl in Hb. subst brk. reflexivity.
Qed.

Lemma checks_keep_waiting c e s :
  waiting_for_final_keyframe s = true
  \/ (ev_shutdown e = true /\ shutdown_detected s = false) ->
  waiting_for_final_keyframe
    (set_ret (check_duration c e (check_shutdown e s)) (ev_read_ret e)) = true.
Proof.
  intros H.
  assert (H1 : waiting_for_final_keyframe (check_shutdown e s) = true).
  { unfold check_shutdown. destruct H as [H | [H1 H2]].
    - rewrite H, andb_false_r. exact H.
    - rewrite H1, H2. simpl.
      destruct (waiting_for_final_keyframe s) eqn:Hw; simpl; auto. }
  unfold check_duration. rewrite H1. simpl. rewrite andb_false_r. exact H1.
Qed.

(** Once the loop waits for its final key frame, or in the iteration in
    which shutdown is first seen, a video key frame that is read ends the
    loop: it is written as the final packet and the segment information
    records that the segment ended on a key frame. *)
Theorem key_frame_ends_recording c e s :
  waiting_for_final_keyframe s = true
  \/ (ev_shutdown e = true /\ shutdown_detected s = false) ->
  0 <= ev_read_ret e ->
  stream_index (ev_pkt e) = lc_video_stream_idx c ->
  key_flag (ev_pkt e) = true ->
  snd (loop_iter av_rescale_q c e s) = true
  /\ exists p,
       trace (fst (loop_iter av_rescale_q c e s))
       = trace s ++ [OpWriteFrame VideoFinal p (ev_write_ret e)]
       /\ flags p = flags (ev_pkt e)
       /\ prev_segment_info (fst (loop_iter av_rescale_q c e s))
          = store_last_frame_was_key (prev_segment_info s) true.
Proof.
  intros Hwait Hret Hidx Hkey. unfold loop_iter.
  pose proof (checks_keep_waiting c e s Hwait) as Hw.
  destruct (checks_effect c e s) as [Ht [_ [Hp _]]].
  set (s1 := set_ret (check_duration c e (check_shutdown e s)) (ev_read_ret e)) in *.
  assert (E1 : (ev_read_ret e <? 0) = false) by (apply Z.ltb_ge; lia).
  assert (E2 : (stream_index (ev_pkt e) =? lc_video_stream_idx c) = true)
    by (apply Z.eqb_eq; exact Hidx).
  rewrite E1, E2. unfold video_packet. fold (key_flag (ev_pkt e)). rewrite Hkey.
  assert (Hfin : forall s2, waiting_for_final_keyframe s2 = true ->
            trace s2 = trace s -> prev_segment_info s2 = prev_segment_info s ->
            let r := (if waiting_for_final_keyframe s2
                      then
                        let s3 := if waiting_start_time s2 =? 0
                                  then set_waiting_start s2 (ev_t_wait0 e) else s2 in
                        if true || (Z.quot (wrap64 (ev_t_wait e - waiting_start_time s3)) 1000000 >? 2)
                        then (final_video_frame av_rescale_q c e s3 (ev_pkt e) true, true)
                        else (video_copy av_rescale_q c e s3 (ev_pkt e), false)
                      else (video_copy av_rescale_q c e s2 (ev_pkt e), false)) in
            snd r = true
            /\ exists p, trace (fst r) = trace s ++ [OpWriteFrame VideoFinal p (ev_write_ret e)]
                         /\ flags p = flags (ev_pkt e)
                         /\ prev_segment_info (fst r)
                            = store_last_frame_was_key (prev_segment_info s) true).
  { intros s2 Hw2 Ht2 Hp2. rewrite Hw2. cbv zeta. simpl orb. cbv iota. simpl snd. simpl fst.
    split; [reflexivity|].
    set (s3 := if waiting_start_time s2 =? 0
               then set_waiting_start s2 (ev_t_wait0 e) else s2).
    assert (H3 : trace s3 = trace s /\ prev_segment_info s3 = prev_segment_info s)
      by (subst s3; break_if; simpl; auto).
    destruct H3 as [Ht3 Hp3].
    destruct (final_video_frame_effect av_rescale_q c e s3 (ev_pkt e) true)
      as [p [F1 [F2 [_ [_ F5]]]]].
    exists p. rewrite F1, F5, Ht3, Hp3. auto. }
  destruct (found_first_keyframe s1); simpl negb; cbv iota.
  - apply Hfin; auto.
  - break_if; apply Hfin; auto.
Qed.

End WhichPackets.

(* ================================================================== *)
(** * The result of a call *)

Section CallResult.

Variable av_rescale_q : Z -> AVRational -> AVRational -> Z.

(** A call that has reached its loop returns what [av_write_trailer]
    returned: the results of [av_read_frame] and
    [av_interleaved_write_frame] that [ret] held before are overwritten, so
    a read error or a failed write does not make the call fail. *)
Theorem result_is_trailer_result env d slot ha prev wst res :
  segment_loop av_rescale_q env d slot ha prev wst <> None ->
  record_segment av_rescale_q env d slot ha prev wst = Some res ->
  r_ret res = se_write_trailer env.
Proof.
  unfold segment_loop, record_segment.
  destruct (setup env slot ha) as [r sl o pb tr | ictx v a oa tr].
  - intros Hc. exfalso. apply Hc. reflexivity.
  - intros _. destruct (copy_loop _ _ _ _) as [s brk].
    destruct brk; [|discriminate]. intros H. injection H as <-. reflexivity.
Qed.

(** The input slot after a call: an input that was passed in is still
    there, whatever happened; an empty slot holds the newly opened input
    unless opening or probing failed, in which case it stays empty. *)
Theorem input_slot_after_call env d slot ha prev wst res :
  record_segment av_rescale_q env d slot ha prev wst = Some res ->
  r_input_ctx res =
    match slot with
    | Some ctx => Some ctx
    | None =>
        if (fst (se_open_input env) <? 0) || (se_find_stream_info env <? 0)
        then None else Some (snd (se_open_input env))
    end.
Proof.
  unfold record_segment.
  assert (Hout : forall ctx tr0,
            match setup_output env ctx ha tr0 with
            | SetupFailed _ sl _ _ _ => sl = Some ctx
            | SetupReady ictx _ _ _ _ => ictx = ctx
            end).
  { intros ctx tr0.
    pose proof (setup_output_ready env ctx ha tr0) as H1.
    pose proof (setup_output_failed env ctx ha tr0) as H2.
    destruct (setup_output env ctx ha tr0) as [r sl o pb tr | ictx v a oa tr].
    - eapply H2. reflexivity.
    - eapply H1. reflexivity. }
  assert (Hsetup :
            match setup env slot ha with
            | SetupFailed _ sl _ _ _ =>
                sl = match slot with
                     | Some ctx => Some ctx
                     | None =>
                         if (fst (se_open_input env) <? 0)
                            || (se_find_stream_info env <? 0)
                         then None else Some (snd (se_open_input env))
                     end
            | SetupReady ictx _ _ _ _ =>
                Some ictx = match slot with
                            | Some ctx => Some ctx
                            | None =>
                                if (fst (se_open_input env) <? 0)
                                   || (se_find_stream_info env <? 0)
                                then None else Some (snd (se_open_input env))
                            end
            end).
  { unfold setup. destruct slot as [ctx|].
    - specialize (Hout ctx []). destruct (setup_output env ctx ha []); congruence.
    - destruct (se_open_input env) as [r_open ictx]. simpl.
      destruct (r_open <? 0); [reflexivity|].
      destruct (se_find_stream_info env <? 0); [reflexivity|]. simpl.
      match goal with |- context [setup_output env ictx ha ?t] =>
        specialize (Hout ictx t); destruct (setup_output env ictx ha t) end;
        congruence. }
  destruct (setup env slot ha) as [r sl o pb tr | ictx v a oa tr].
  - intros H. injection H as <-. exact Hsetup.
  - destruct (copy_loop _ _ _ _) as [s brk]. destruct brk; [|discriminate].
    intros H. injection H as <-. exact Hsetup.
Qed.

End CallResult.

(* ================================================================== *)
(** * More on the rebaser *)

(** Applying the overflow guard twice is the same as applying it once, and
    the guard leaves a packet alone whose DTS is at most [0x70000000]. *)
Theorem overflow_guard_idempotent (p : AVPacket) :
  overflow_guard (overflow_guard p) = overflow_guard p
  /\ (dts p <= MP4_DTS_SAFE -> overflow_guard p = p).
Proof.
  assert (Hsmall : forall q, dts q <= MP4_DTS_SAFE -> overflow_guard q = q).
  { intros q Hq. destruct (has_ts (dts q)) eqn:Hd.
    - destruct (overflow_guard_spec q Hd) as [[_ E] | [[H _] | [H _]]]; auto;
        consts; lia.
    - apply overflow_guard_keeps_nopts, Hd. }
  split; [|apply Hsmall].
  destruct (has_ts (dts (overflow_guard p))) eqn:Hd.
  - apply Hsmall, overflow_guard_dts_bound, Hd.
  - apply overflow_guard_keeps_nopts, Hd.
Qed.


(* ================================================================== *)
(** * Stream selection *)

(** [i] is the position of the first stream of kind [k] in [l], or [-1]
    when [l] has none. *)
Definition first_of (k : AVMediaType) (l : list AVStream) (i : Z) : Prop :=
  (i = -1 /\ Forall (fun st => codec_type st <> k) l)
  \/ (exists pre st post,
         l = pre ++ st :: post /\ i = Z.of_nat (List.length pre)
         /\ codec_type st = k /\ Forall (fun st' => codec_type st' <> k) pre).

Lemma first_of_snoc_other k l i st :
  first_of k l i -> (i = -1 -> codec_type st <> k) -> first_of k (l ++ [st]) i.
Proof.
  intros [[Hi Hall] | [pre [st0 [post [Hl [Hi [Hk Hpre]]]]]]] Hst.
  - left. split; [exact Hi|]. apply Forall_app. split; [exact Hall|].
    constructor; [auto | constructor].
  - right. exists pre, st0, (post ++ [st]). subst l.
    rewrite <- app_assoc. simpl. auto.
Qed.

Lemma first_of_snoc_found k l st :
  Forall (fun st' => codec_type st' <> k) l -> codec_type st = k ->
  first_of k (l ++ [st]) (Z.of_nat (List.length l)).
Proof. intros Hall Hk. right. exists l, st, []. auto. Qed.

Lemma find_streams_fold l : forall pre v a,
  first_of AVMEDIA_TYPE_VIDEO pre v -> first_of AVMEDIA_TYPE_AUDIO pre a ->
  let r := fold_left find_streams_step l (v, a, Z.of_nat (List.length pre)) in
  first_of AVMEDIA_TYPE_VIDEO (pre ++ l) (fst (fst r))
  /\ first_of AVMEDIA_TYPE_AUDIO (pre ++ l) (snd (fst r)).
Proof.
  induction l as [|st l IH]; intros pre v a Hv Ha; simpl.
  - rewrite app_nil_r. auto.
  - assert (Hlen : Z.of_nat (List.length pre) + 1 = Z.of_nat (List.length (pre ++ [st])))
      by (rewrite length_app; simpl; lia).
    assert (Hneg : forall k i, first_of k pre i -> (i <? 0) = true ->
                     i = -1 /\ Forall (fun st' => codec_type st' <> k) pre).
    { intros k i [[Hi Hall] | [p0 [s0 [q0 [_ [Hi _]]]]]] Hlt; [auto|].
      zprop. lia. }
    assert (Hpos : forall k i, first_of k pre i -> (i <? 0) = false -> i <> -1).
    { intros k i _ Hge. zprop. lia. }
    replace (pre ++ st :: l) with ((pre ++ [st]) ++ l)
      by (rewrite <- app_assoc; reflexivity).
    destruct (codec_type st) eqn:Hk.
    + destruct (v <? 0) eqn:Hlt; rewrite Hlen; apply IH.
      * destruct (Hneg _ _ Hv Hlt) as [_ Hall].
        apply first_of_snoc_found; assumption.
      * apply first_of_snoc_other; [exact Ha | rewrite Hk; discriminate].
      * apply first_of_snoc_other; [exact Hv|]. intros Hi.
        exfalso. exact (Hpos _ _ Hv Hlt Hi).
      * apply first_of_snoc_other; [exact Ha | rewrite Hk; discriminate].
    + destruct (a <? 0) eqn:Hlt; rewrite Hlen; apply IH.
      * apply first_of_snoc_other; [exact Hv | rewrite Hk; discriminate].
      * destruct (Hneg _ _ Ha Hlt) as [_ Hall].
        apply first_of_snoc_found; assumption.
      * apply first_of_snoc_other; [exact Hv | rewrite Hk; discriminate].
      * apply first_of_snoc_other; [exact Ha|]. intros Hi.
        exfalso. exact (Hpos _ _ Ha Hlt Hi).
    + rewrite Hlen. apply IH; apply first_of_snoc_other; auto;
        rewrite Hk; discriminate.
Qed.

(** [find_streams] returns the position of the first video stream and of
    the first audio stream of the input, and [-1] for a kind the input does
    not have. *)
Theorem find_streams_first (ctx : AVFormatContext) :
  first_of AVMEDIA_TYPE_VIDEO (streams ctx) (fst (find_streams ctx))
  /\ first_of AVMEDIA_TYPE_AUDIO (streams ctx) (snd (find_streams ctx)).
Proof.
  unfold find_streams.
  apply (find_streams_fold (streams ctx) [] (-1) (-1)); left; auto.
Qed.

(* ================================================================== *)
(** * The retry strategy *)

(** After a failed segment the worker sleeps 1, 2, 4, 8 and 16 seconds for
    the first five consecutive failures and keeps its input; from the sixth
    on it closes the input, if it holds one, and sleeps 5 seconds.  It never
    sleeps longer than 16 seconds.  After a successful segment the counter
    is back at 0 and nothing else happens. *)
Theorem retry_backoff_schedule (r : Z) (e : sup_event) (g : statics) (s : sup_state) :
  0 <= segment_retry_count g < 2 ^ 31 - 1 ->
  let n := segment_retry_count g in
  let g' := fst (after_segment r e g s) in
  let s' := snd (after_segment r e g s) in
  if r <? 0 then
    segment_retry_count g' = n + 1
    /\ sp_input_ctx s' = (if n <? 5 then sp_input_ctx s else None)
    /\ sp_trace s' =
         sp_trace s
         ++ (if n <? 5 then []
             else match sp_input_ctx s with Some _ => [CloseInput] | None => [] end)
         ++ [SupSleep (if n <? 5 then 2 ^ n * 1000000 else 5000000)]
  else
    segment_retry_count g' = 0 /\ s' = s.
Proof.
  intros Hn. cbv zeta. unfold after_segment.
  destruct (r <? 0).
  - rewrite (wrap32_id (segment_retry_count g + 1)) by lia.
    destruct (segment_retry_count g <? 5) eqn:Hlt.
    + zprop.
      assert (Hcases : segment_retry_count g = 0 \/ segment_retry_count g = 1
                       \/ segment_retry_count g = 2 \/ segment_retry_count g = 3
                       \/ segment_retry_count g = 4) by lia.
      destruct Hcases as [E | [E | [E | [E | E]]]]; rewrite E; simpl;
        repeat split; reflexivity.
    + zprop.
      assert (E1 : (segment_retry_count g + 1 >? 5) = true)
        by (rewrite Z.gtb_ltb; apply Z.ltb_lt; lia).
      rewrite E1. destruct (sp_input_ctx s) eqn:Hi; simpl; repeat split;
        rewrite <- ?app_assoc; auto.
  - destruct (segment_retry_count g >? 0) eqn:E; simpl; split; auto.
    zprop. lia.
Qed.

(* ================================================================== *)
(** * Invariants of a session *)

Section SessionInvariants.

Variable av_rescale_q : Z -> AVRational -> AVRational -> Z.
Variable MAX_PATH_LENGTH : nat.
Variable MAX_STREAM_NAME : nat.
Variable sizeof_md_stream_name : nat.
Variable sizeof_md_file_path : nat.

Abbreviation sup_iter_ := (sup_iter av_rescale_q MAX_PATH_LENGTH sizeof_md_stream_name
                            sizeof_md_file_path).
Abbreviation sup_loop_ := (sup_loop av_rescale_q MAX_PATH_LENGTH sizeof_md_stream_name
                            sizeof_md_file_path).
Abbreviation rotation_check_ := (rotation_check MAX_PATH_LENGTH sizeof_md_stream_name
                                  sizeof_md_file_path).

(** Effects in which every call of [record_segment] has a positive
    duration and every catalog update names a positive record id. *)
Definition sane_ops (ops : list sup_op) : Prop :=
  Forall (fun fd => snd fd > 0) (seg_calls ops)
  /\ Forall (fun u => fst u > 0) (cat_updates ops).

Lemma sane_ops_app a b : sane_ops a -> sane_ops b -> sane_ops (a ++ b).
Proof.
  intros [A1 A2] [B1 B2]. unfold sane_ops.
  rewrite seg_calls_app, cat_updates_app. split; apply Forall_app; auto.
Qed.

Lemma sane_ops_nil : sane_ops [].
Proof. split; constructor. Qed.

Lemma sane_ops_plain ops : forallb is_plain_op ops = true -> sane_ops ops.
Proof.
  intros H. destruct (plain_ops_neutral ops H) as [A [_ C]].
  unfold sane_ops. rewrite A, C. split; constructor.
Qed.

Lemma rotation_check_sane name sd e s :
  exists ops, sp_trace (rotation_check_ name sd e s) = sp_trace s ++ ops
              /\ sane_ops ops.
Proof.
  unfold rotation_check.
  destruct (sd >? 0); [|exists []; rewrite app_nil_r; split; [reflexivity | apply sane_ops_nil]].
  destruct (_ >=? sd); [|exists []; rewrite app_nil_r; split; [reflexivity | apply sane_ops_nil]].
  unfold rotate.
  destruct (w_current_recording_id (sp_writer s) >? 0) eqn:Hid.
  - zprop. destruct (sv_stat_rotate e _); simpl; eexists; rewrite <- app_assoc;
      (split; [reflexivity|]); split; simpl; repeat constructor; simpl; lia.
  - simpl. eexists. split; [reflexivity|]. split; simpl; constructor.
Qed.

Lemma effective_duration_pos sd : effective_duration sd > 0.
Proof. unfold effective_duration. destruct (sd >? 0) eqn:E; zprop; lia. Qed.

Lemma sup_iter_sane name e g s g' s' st :
  sup_iter_ name e g s = (g', s', st) ->
  exists ops, sp_trace s' = sp_trace s ++ ops /\ sane_ops ops.
Proof.
  intros H.
  set (sd := fst (apply_db_config e (sp_writer s))).
  set (w1 := snd (apply_db_config e (sp_writer s))).
  destruct (rotation_check_sane name sd e (sup_set_writer s w1)) as [rops [Rt Rs]].
  change (sp_trace (sup_set_writer s w1)) with (sp_trace s) in Rt.
  assert (Hcall : forall f a i, sane_ops [SegCall f (effective_duration sd) a i]).
  { intros f a i. split; simpl; repeat constructor. simpl. apply effective_duration_pos. }
  assert (Hst : st = SupContinue \/ st <> SupContinue)
    by (destruct st; auto; right; discriminate).
  destruct Hst as [-> | Hne].
  - destruct (sup_iter_continue av_rescale_q MAX_PATH_LENGTH sizeof_md_stream_name
                sizeof_md_file_path name e g s g' s' H) as [mid [Hmid [_ Ht]]].
    fold sd w1 in Ht. rewrite Ht, Rt.
    eexists. rewrite <- !app_assoc. split; [reflexivity|].
    apply sane_ops_app; [exact Rs|].
    apply sane_ops_app;
      [apply (sane_ops_app [_] mid); [apply Hcall | apply sane_ops_plain, Hmid]|].
    destruct (_ >? 0) eqn:Hid; [|apply sane_ops_nil].
    destruct (sv_stat_after e _); [|apply sane_ops_nil].
    zprop. split; simpl; repeat constructor. simpl. lia.
  - destruct (sup_iter_stop av_rescale_q MAX_PATH_LENGTH sizeof_md_stream_name
                sizeof_md_file_path name e g s g' s' st H Hne) as [[_ Ht] | [_ Ht]];
      fold sd w1 in Ht.
    + exists []. rewrite app_nil_r. split; [exact Ht | apply sane_ops_nil].
    + rewrite Ht, Rt. eexists. rewrite <- app_assoc. split; [reflexivity|].
      apply sane_ops_app; [exact Rs | apply Hcall].
Qed.

Lemma sup_loop_sane name evs : forall g s,
  exists ops, sp_trace (snd (fst (sup_loop_ name evs g s))) = sp_trace s ++ ops
              /\ sane_ops ops.
Proof.
  induction evs as [|e evs IH]; intros g s; simpl.
  - exists []. rewrite app_nil_r. split; [reflexivity | apply sane_ops_nil].
  - destruct (sup_iter_ name e g s) as [[g' s'] st] eqn:E.
    destruct (sup_iter_sane name e g s g' s' st E) as [ops [Ht Hs]].
    destruct st; simpl; try (exists ops; split; [exact Ht | exact Hs]).
    destruct (IH g' s') as [ops' [Ht' Hs']].
    exists (ops ++ ops'). rewrite Ht', Ht, app_assoc.
    split; [reflexivity | apply sane_ops_app; assumption].
Qed.

(** In every session the worker calls [record_segment] with a positive
    duration only, so the unbounded duration 0 is never used, and it never
    sends a catalog update for record id 0, the id of a failed add. *)
Theorem session_calls_are_sane init evs g thread_ctx writer :
  sane_ops
    (sp_trace (snd (fst (mp4_writer_rtsp_thread av_rescale_q MAX_PATH_LENGTH
                           MAX_STREAM_NAME sizeof_md_stream_name
                           sizeof_md_file_path init evs g thread_ctx writer)))).
Proof.
  unfold mp4_writer_rtsp_thread.
  set (name := local_stream_name MAX_STREAM_NAME writer).
  set (s0 := mkSup thread_ctx writer None (mkSegInfo 0 false false) []).
  set (s1 := initial_record sizeof_md_stream_name sizeof_md_file_path name init s0).
  assert (H1 : sane_ops (sp_trace s1)).
  { subst s1. unfold initial_record. repeat break_if; simpl;
      split; simpl; constructor. }
  set (s2 := if si_stop init then sup_set_thread s1 (signal_stop (sp_thread s1)) else s1).
  assert (H2 : sp_trace s2 = sp_trace s1) by (subst s2; destruct (si_stop init); reflexivity).
  break_if; [simpl; rewrite H2; exact H1|].
  destruct (sup_loop_sane name evs g s2) as [ops [Ht Hs]].
  destruct (sup_loop_ name evs g s2) as [[g' s3] exited]. simpl in Ht.
  assert (H3 : sane_ops (sp_trace s3))
    by (rewrite Ht, H2; apply sane_ops_app; assumption).
  destruct exited; simpl; [|exact H3].
  unfold close_input. destruct (sp_input_ctx s3); simpl; [|exact H3].
  apply sane_ops_app; [exact H3 | split; simpl; constructor].
Qed.











(** The iteration that sees the stop signal or the shutdown leaves the
    loop without calling [record_segment] or touching the catalog. *)
Lemma stop_ends_the_loop name e g s :
  sv_stop e = true \/ sv_shutdown e = true ->
  exists s', sup_iter_ name e g s = (g, s', SupExit)
             /\ sp_trace s' = sp_trace s /\ sp_writer s' = sp_writer s
             /\ (th_running (sp_thread s') = 0 \/ th_shutdown_requested (sp_thread s') <> 0).
Proof.
  intros H. unfold sup_iter.
  destruct (sv_stop e) eqn:Hstop.
  - simpl. eexists. split; [reflexivity|]. simpl. auto.
  - destruct H as [H|H]; [discriminate|]. rewrite H.
    destruct (negb _) eqn:Hrun.
    + eexists. split; [reflexivity|]. repeat split.
      apply negb_true_iff, andb_false_iff in Hrun.
      destruct Hrun as [Hr | Hs].
      * left. apply negb_false_iff in Hr. zprop. exact Hr.
      * right. zprop. exact Hs.
    + eexists. split; [reflexivity|]. simpl. auto.
Qed.

Lemma sup_loop_after_stop name e evs2 : forall evs1 g s,
  sv_stop e = true \/ sv_shutdown e = true ->
  sup_loop_ name (evs1 ++ e :: evs2) g s = sup_loop_ name (evs1 ++ [e]) g s.
Proof.
  induction evs1 as [|e1 evs1 IH]; intros g s He; simpl.
  - destruct (stop_ends_the_loop name e g s He) as [s' [E _]]. rewrite E. reflexivity.
  - destruct (sup_iter_ name e1 g s) as [[g' s'] st]. destruct st; auto.
Qed.

(** Once [mp4_writer_stop_recording_thread] has signalled the worker, or
    the shutdown coordinator reports shutdown, at the loop test, the
    session is over: whatever the environment would have supplied to later
    iterations has no effect on the writer, the catalog, the input or the
    statics. *)
Theorem nothing_happens_after_stop init evs1 e evs2 g thread_ctx writer :
  sv_stop e = true \/ sv_shutdown e = true ->
  mp4_writer_rtsp_thread av_rescale_q MAX_PATH_LENGTH MAX_STREAM_NAME
    sizeof_md_stream_name sizeof_md_file_path init (evs1 ++ e :: evs2) g
    thread_ctx writer
  = mp4_writer_rtsp_thread av_rescale_q MAX_PATH_LENGTH MAX_STREAM_NAME
      sizeof_md_stream_name sizeof_md_file_path init (evs1 ++ [e]) g
      thread_ctx writer.
Proof.
  intros He. unfold mp4_writer_rtsp_thread.
  break_if; [reflexivity|].
  rewrite (sup_loop_after_stop _ e evs2 evs1 _ _ He). reflexivity.
Qed.

End SessionInvariants.

(* ================================================================== *)
(** * Starting and stopping the worker *)







(* ================================================================== *)
(** * The flag handed to the next segment *)

Section LastFrameFlag.

Variable av_rescale_q : Z -> AVRational -> AVRational -> Z.

Definition no_packet : write_path * AVPacket := (VideoCopy, mkPacket 0 0 0 0 0 0).

(** The flag that [record_segment] leaves for the next segment, read off
    the packets it wrote: the key flag of the final packet when the loop
    ended on one, and the flag it was given otherwise. *)
Definition flag_after (given : bool) (ws : list (write_path * AVPacket)) : bool :=
  match last ws no_packet with
  | (VideoFinal, p) => key_flag p
  | _ => given
  end.

(** No final packet yet and the flag untouched. *)
Definition still_copying (given : bool) (s : loop_state) : Prop :=
  Forall (fun wp => fst wp <> VideoFinal) (written (trace s))
  /\ option_map last_frame_was_key (prev_segment_info s) = Some given.

Lemma flag_after_copying given ws :
  Forall (fun wp => fst wp <> VideoFinal) ws -> flag_after given ws = given.
Proof.
  intros H. unfold flag_after.
  assert (Hl : fst (last ws no_packet) <> VideoFinal).
  { induction H as [|x l Hx Hl IH]; [simpl; discriminate|].
    destruct l; [exact Hx | exact IH]. }
  destruct (last ws no_packet) as [[| |] p]; simpl in *; congruence.
Qed.

Lemma copy_loop_flag c given evs : forall s,
  still_copying given s ->
  option_map last_frame_was_key
    (prev_segment_info (fst (copy_loop av_rescale_q c evs s)))
  = Some (flag_after given (written (trace (fst (copy_loop av_rescale_q c evs s))))).
Proof.
  induction evs as [|e evs IH]; intros s [Hall Hflag]; simpl.
  - rewrite flag_after_copying; assumption.
  - pose proof (loop_iter_effect av_rescale_q c e s) as He.
    destruct (loop_iter av_rescale_q c e s) as [s' brk]. simpl in He.
    assert (Hnext : still_copying given s'
                    \/ (brk = true
                        /\ option_map last_frame_was_key (prev_segment_info s')
                           = Some (flag_after given (written (trace s'))))).
    { destruct He as [H | [H | H]].
      - destruct H as [Hw [_ [Hp _]]]. left. unfold still_copying.
        rewrite Hw, Hp. auto.
      - destruct H as [_ [_ [_ [_ [w [p [Ht [Hfl [_ Hw]]]]]]]]].
        destruct Hw as [[-> [_ Hp]] | [-> [Hb Hp]]].
        + left. unfold still_copying. rewrite Ht, written_app, Hp. split; [|exact Hflag].
          apply Forall_app. split; [exact Hall|]. simpl.
          constructor; [discriminate | constructor].
        + right. split; [exact Hb|]. rewrite Ht, written_app, Hp. simpl.
          unfold flag_after. rewrite last_last. unfold key_flag. rewrite Hfl.
          destruct (prev_segment_info s); simpl in *; [reflexivity | discriminate].
      - destruct H as [_ [_ [_ [_ [_ [_ [_ [Hp [p [Ht _]]]]]]]]]].
        left. unfold still_copying. rewrite Ht, written_app, Hp. split; [|exact Hflag].
        apply Forall_app. split; [exact Hall|]. simpl.
        constructor; [discriminate | constructor]. }
    destruct Hnext as [Hc | [Hb Hf]].
    + destruct brk; simpl; [|apply IH, Hc].
      destruct Hc as [Ha Hfl]. rewrite flag_after_copying; assumption.
    + subst brk. simpl. exact Hf.
Qed.

(** [last_frame_was_key] after a call that reached its loop says whether
    the final packet was a key frame when the loop ended on a final packet;
    when the loop ended on the end of the stream or a read error, the flag
    is the one the call was given, not a fact about this file. *)
Theorem last_frame_flag_after_call env d slot ha i wst res :
  segment_loop av_rescale_q env d slot ha (Some i) wst <> None ->
  record_segment av_rescale_q env d slot ha (Some i) wst = Some res ->
  option_map last_frame_was_key (r_prev_segment_info res)
  = Some (flag_after (last_frame_was_key i) (written (r_trace res))).
Proof.
  intros Hreach Hres.
  rewrite (record_segment_written av_rescale_q env d slot ha (Some i) wst res Hres).
  revert Hreach Hres. unfold segment_written, segment_loop, record_segment.
  pose proof (setup_has_facts env slot ha) as F.
  destruct (setup env slot ha) as [r sl o pb tr | ictx v a oa tr].
  - intros Hc. exfalso. apply Hc. reflexivity.
  - intros _. simpl in F. destruct F as [_ [_ [_ Hw]]].
    match goal with |- context [copy_loop ?f ?c ?evs ?s0] =>
      pose proof (copy_loop_flag c (last_frame_was_key i) evs s0) as Hflag;
      destruct (copy_loop f c evs s0) as [s brk] end.
    simpl in Hflag. destruct brk; [|discriminate].
    intros H. injection H as <-. simpl.
    assert (H0 : option_map last_frame_was_key (prev_segment_info s)
                 = Some (flag_after (last_frame_was_key i) (written (trace s)))).
    { apply Hflag. split; simpl; [rewrite Hw; constructor | reflexivity]. }
    destruct (prev_segment_info s); simpl in *; [exact H0 | discriminate].
Qed.

End LastFrameFlag.

(* ================================================================== *)
(** * The shape of the effects *)

Section TraceShape.

Variable av_rescale_q : Z -> AVRational -> AVRational -> Z.

(** A set-up that reaches the loop has just written the header, with
    success. *)
Lemma setup_output_header env ctx ha tr0 ictx v a oa tr :
  setup_output env ctx ha tr0 = SetupReady ictx v a oa tr ->
  0 <= se_write_header env
  /\ exists pre, tr = pre ++ [OpWriteHeader (se_write_header env)].
Proof.
  unfold setup_output.
  destruct (find_streams ctx) as [v0 a0].
  destruct (se_alloc_output env) as [r_alloc o].
  repeat (break_if; try discriminate).
  intros H. injection H as _ _ _ _ <-. zprop. split; [lia|].
  eexists. reflexivity.
Qed.

Lemma setup_header env slot ha ictx v a oa tr :
  setup env slot ha = SetupReady ictx v a oa tr ->
  0 <= se_write_header env
  /\ exists pre, tr = pre ++ [OpWriteHeader (se_write_header env)].
Proof.
  unfold setup. destruct slot as [ctx|].
  - apply setup_output_header.
  - destruct (se_open_input env) as [r_open ctx].
    repeat (break_if; try discriminate). apply setup_output_header.
Qed.

(** The effects of a call that has written a packet: a prefix without any
    write, the header written with success, then only frame writes and
    10 ms sleeps, then the trailer, the close of the file and the release
    of the output context.  No packet is written before the header or
    after the trailer. *)
Theorem frames_between_header_and_trailer env d slot ha prev wst res :
  record_segment av_rescale_q env d slot ha prev wst = Some res ->
  written (r_trace res) <> [] ->
  exists pre ops,
    r_trace res
    = pre ++ [OpWriteHeader (se_write_header env)] ++ ops
      ++ [OpWriteTrailer (se_write_trailer env); OpAvioClose; OpFreeOutput]
    /\ written pre = [] /\ 0 <= se_write_header env
    /\ forallb is_loop_op ops = true.
Proof.
  unfold record_segment.
  pose proof (setup_has_facts env slot ha) as F.
  pose proof (setup_header env slot ha) as Hh.
  destruct (setup env slot ha) as [r sl o pb tr | ictx v a oa tr]; simpl in F.
  - intros H. injection H as <-. simpl. rewrite written_cleanup.
    destruct F as [[_ [_ [_ Hw]]] _]. rewrite Hw. intros Hc. exfalso. apply Hc. reflexivity.
  - destruct (Hh ictx v a oa tr eq_refl) as [Hpos [pre Htr]].
    destruct F as [_ [_ [_ Hw]]].
    match goal with |- context [copy_loop ?f ?c ?evs ?s0] =>
      pose proof (copy_loop_frame f c evs s0) as Hf;
      destruct (copy_loop f c evs s0) as [s brk] end.
    simpl in Hf. destruct Hf as [[ops [Ht Hops]] _]. simpl in Ht.
    destruct brk; [|discriminate].
    intros H. injection H as <-. intros _. simpl.
    exists pre, ops. split; [|split; [|split; [exact Hpos | exact Hops]]].
    + unfold cleanup. simpl.
      assert (Hno : (se_write_trailer env >=? 0)
                    && negb (negb (se_write_trailer env <? 0)) = false).
      { rewrite negb_involutive.
        destruct (se_write_trailer env <? 0) eqn:E.
        - zprop. rewrite andb_true_r, Z.geb_leb. apply Z.leb_gt. lia.
        - apply andb_false_r. }
      rewrite Hno, Ht, Htr, <- !app_assoc. reflexivity.
    + rewrite Htr, written_app in Hw. apply app_eq_nil in Hw. apply Hw.
Qed.

End TraceShape.

(* ================================================================== *)
(** * The order of catalog operations *)

Definition is_completion (op : sup_op) : bool :=
  match op with CatUpdate _ _ _ true => true | _ => false end.

(** Traces in which a record is only ever marked complete right after
    [add_recording_metadata] was called with the record of the next file,
    whatever id that call returned, with the start time of that record as
    its end time; the record of the next file is open: it has no end time
    and is not complete. *)
Inductive handed_over : list sup_op -> Prop :=
| ho_nil : handed_over []
| ho_other tr op :
    handed_over tr -> is_completion op = false -> handed_over (tr ++ [op])
| ho_rotation tr m new_id id st_size :
    handed_over tr -> md_end_time m = 0 -> md_is_complete m = false ->
    handed_over (tr ++ [CatAdd m new_id; CatUpdate id (md_start_time m) st_size true]).

Lemma handed_over_app tr ops :
  handed_over tr -> forallb (fun op => negb (is_completion op)) ops = true ->
  handed_over (tr ++ ops).
Proof.
  intros Htr. induction ops as [|op ops IH] using rev_ind; intros H.
  - rewrite app_nil_r. exact Htr.
  - rewrite forallb_app in H. apply andb_true_iff in H as [H1 H2].
    simpl in H2. rewrite andb_true_r in H2. apply negb_true_iff in H2.
    rewrite app_assoc. apply ho_other; auto.
Qed.

Lemma plain_not_completion ops :
  forallb is_plain_op ops = true ->
  forallb (fun op => negb (is_completion op)) ops = true.
Proof.
  induction ops as [|op ops IH]; intros H; [reflexivity|].
  simpl in *. apply andb_true_iff in H as [H1 H2]. rewrite (IH H2), andb_true_r.
  destruct op; try discriminate; reflexivity.
Qed.

(** What [handed_over] says of any completion in the trace. *)
Lemma handed_over_spec tr :
  handed_over tr ->
  forall pre id t st_size post,
    tr = pre ++ CatUpdate id t st_size true :: post ->
    exists pre' m new_id,
      pre = pre' ++ [CatAdd m new_id] /\ md_start_time m = t
      /\ md_end_time m = 0 /\ md_is_complete m = false.
Proof.
  induction 1 as [|tr op Htr IH Hop | tr m new_id id0 sz0 Htr IH Hend Hinc];
    intros pre id t st_size post E.
  - destruct pre; discriminate.
  - destruct post as [|x post _] using rev_ind.
    + apply app_inj_tail in E as [_ E]. subst op. discriminate.
    + change (pre ++ CatUpdate id t st_size true :: post ++ [x])
        with (pre ++ (CatUpdate id t st_size true :: post) ++ [x]) in E.
      rewrite app_assoc in E. apply app_inj_tail in E as [E _].
      eapply IH. exact E.
  - destruct post as [|x post _] using rev_ind.
    + change [CatAdd m new_id; CatUpdate id0 (md_start_time m) sz0 true]
        with ([CatAdd m new_id] ++ [CatUpdate id0 (md_start_time m) sz0 true]) in E.
      rewrite app_assoc in E. apply app_inj_tail in E as [E1 E2].
      injection E2 as _ Ht _. exists tr, m, new_id.
      split; [symmetry; exact E1|]. split; [exact Ht|]. split; assumption.
    + destruct post as [|y post _] using rev_ind.
      * change [CatAdd m new_id; CatUpdate id0 (md_start_time m) sz0 true]
          with ([CatAdd m new_id] ++ [CatUpdate id0 (md_start_time m) sz0 true]) in E.
        change (pre ++ CatUpdate id t st_size true :: [] ++ [x])
          with (pre ++ [CatUpdate id t st_size true] ++ [x]) in E.
        rewrite !app_assoc in E. apply app_inj_tail in E as [E _].
        apply app_inj_tail in E as [_ E]. discriminate.
      * change [CatAdd m new_id; CatUpdate id0 (md_start_time m) sz0 true]
          with ([CatAdd m new_id] ++ [CatUpdate id0 (md_start_time m) sz0 true]) in E.
        change (pre ++ CatUpdate id t st_size true :: (post ++ [y]) ++ [x])
          with (pre ++ ((CatUpdate id t st_size true :: post) ++ [y]) ++ [x]) in E.
        rewrite !app_assoc in E. apply app_inj_tail in E as [E _].
        apply app_inj_tail in E as [E _].
        eapply IH. exact E.
Qed.

Section CatalogOrder.

Variable av_rescale_q : Z -> AVRational -> AVRational -> Z.
Variable MAX_PATH_LENGTH : nat.
Variable MAX_STREAM_NAME : nat.
Variable sizeof_md_stream_name : nat.
Variable sizeof_md_file_path : nat.

Lemma rotation_check_handed_over name sd e s :
  handed_over (sp_trace s) ->
  handed_over (sp_trace (rotation_check MAX_PATH_LENGTH sizeof_md_stream_name
                           sizeof_md_file_path name sd e s)).
Proof.
  intros H. unfold rotation_check.
  destruct (sd >? 0); [|exact H]. destruct (_ >=? sd); [|exact H].
  unfold rotate.
  destruct (w_current_recording_id (sp_writer s) >? 0).
  - destruct (sv_stat_rotate e _); simpl; rewrite <- app_assoc;
      apply (ho_rotation _ (new_metadata sizeof_md_stream_name sizeof_md_file_path
                              name _ (sv_now e))); first [exact H | reflexivity].
  - simpl. apply ho_other; [exact H | reflexivity].
Qed.

Lemma sup_iter_handed_over name e g s g' s' st :
  sup_iter av_rescale_q MAX_PATH_LENGTH sizeof_md_stream_name sizeof_md_file_path
    name e g s = (g', s', st) ->
  handed_over (sp_trace s) -> handed_over (sp_trace s').
Proof.
  intros H Hs.
  set (sd := fst (apply_db_config e (sp_writer s))).
  set (w1 := snd (apply_db_config e (sp_writer s))).
  pose proof (rotation_check_handed_over name sd e (sup_set_writer s w1) Hs) as Hr.
  assert (Hst : st = SupContinue \/ st <> SupContinue)
    by (destruct st; auto; right; discriminate).
  destruct Hst as [-> | Hne].
  - destruct (sup_iter_continue av_rescale_q MAX_PATH_LENGTH sizeof_md_stream_name
                sizeof_md_file_path name e g s g' s' H) as [mid [Hmid [_ Ht]]].
    fold sd w1 in Ht. rewrite Ht.
    apply handed_over_app.
    + change (?a ++ ?x :: mid) with (a ++ [x] ++ mid). rewrite app_assoc.
      apply handed_over_app; [|apply plain_not_completion, Hmid].
      apply ho_other; [exact Hr | reflexivity].
    + repeat break_if; reflexivity.
  - destruct (sup_iter_stop av_rescale_q MAX_PATH_LENGTH sizeof_md_stream_name
                sizeof_md_file_path name e g s g' s' st H Hne) as [[_ Ht] | [_ Ht]];
      fold sd w1 in Ht; rewrite Ht; [exact Hs|].
    apply ho_other; [exact Hr | reflexivity].
Qed.

Lemma session_handed_over init evs g thread_ctx writer :
  handed_over
    (sp_trace (snd (fst (mp4_writer_rtsp_thread av_rescale_q MAX_PATH_LENGTH
                           MAX_STREAM_NAME sizeof_md_stream_name
                           sizeof_md_file_path init evs g thread_ctx writer)))).
Proof.
  unfold mp4_writer_rtsp_thread.
  set (name := local_stream_name MAX_STREAM_NAME writer).
  set (s0 := mkSup thread_ctx writer None (mkSegInfo 0 false false) []).
  set (s1 := initial_record sizeof_md_stream_name sizeof_md_file_path name init s0).
  assert (H1 : handed_over (sp_trace s1)).
  { subst s1. unfold initial_record.
    repeat break_if; simpl; try apply ho_nil;
      apply (ho_other []); try apply ho_nil; reflexivity. }
  set (s2 := if si_stop init then sup_set_thread s1 (signal_stop (sp_thread s1)) else s1).
  assert (H2 : handed_over (sp_trace s2)) by (subst s2; destruct (si_stop init); exact H1).
  break_if; [exact H2|].
  assert (Hloop : forall evs' g0 s,
            handed_over (sp_trace s) ->
            handed_over
              (sp_trace (snd (fst (sup_loop av_rescale_q MAX_PATH_LENGTH
                                     sizeof_md_stream_name sizeof_md_file_path
                                     name evs' g0 s))))).
  { induction evs' as [|e evs' IH]; intros g0 s Hs; simpl; [exact Hs|].
    destruct (sup_iter _ _ _ _ name e g0 s) as [[g' s'] st] eqn:E.
    pose proof (sup_iter_handed_over name e g0 s g' s' st E Hs) as Hs'.
    destruct st; simpl; auto. }
  specialize (Hloop evs g s2 H2).
  destruct (sup_loop _ _ _ _ name evs g s2) as [[g' s3] exited]. simpl in Hloop.
  destruct exited; simpl; [|exact Hloop].
  unfold close_input. destruct (sp_input_ctx s3); simpl; [|exact Hloop].
  apply ho_other; [exact Hloop | reflexivity].
Qed.

(** In every session, a catalog record is marked complete only immediately
    after [add_recording_metadata] was called for the next file, and its
    end time is the start time in the metadata passed to that call, which
    describes an open record (no end time, not complete).  The id that call
    returned plays no part: the old record is completed also when the add
    failed and returned 0. *)
Theorem records_are_handed_over init evs g thread_ctx writer
  pre id t st_size post :
  sp_trace (snd (fst (mp4_writer_rtsp_thread av_rescale_q MAX_PATH_LENGTH
                        MAX_STREAM_NAME sizeof_md_stream_name
                        sizeof_md_file_path init evs g thread_ctx writer)))
  = pre ++ CatUpdate id t st_size true :: post ->
  exists pre' m new_id,
    pre = pre' ++ [CatAdd m new_id] /\ md_start_time m = t
    /\ md_end_time m = 0 /\ md_is_complete m = false.
Proof.
  apply handed_over_spec, session_handed_over.
Qed.

End CatalogOrder.

(* ================================================================== *)
(** * Further concrete inputs *)

Module Scenario.

(** An iteration in which shutdown is reported and the source answers
    "try again". *)
Definition try_again_at (t : Z) : loop_event :=
  mkEvent true t AVERROR_EAGAIN (Sample.video_pkt false 0 0) t t t 0.

(** An iteration whose read fails with [-5]. *)
Definition read_error_at (t : Z) : loop_event :=
  mkEvent false t (-5) (Sample.video_pkt false 0 0) t t t 0.

(** A source that is silent but for one audio packet, during shutdown. *)
Definition silent : list loop_event :=
  [try_again_at 0; Sample.read_at 10 (Sample.audio_pkt 0 0); try_again_at 40000000].

(** A key frame, then a read error. *)
Definition connection_drops : list loop_event :=
  [Sample.read_at 0 (Sample.video_pkt true 0 0); read_error_at 1000000].

(** The loop of a second segment before its first packet, and an iteration
    in which shutdown is reported and a key frame is read. *)
Definition ctx1 : loop_ctx := mkCtx Sample.cam 0 1 0 false 30 1.
Definition fresh : loop_state :=
  initial_state (Sample.seg_ok 0 []) (Some (mkSegInfo 0 false false)) 0 [].
Definition key_frame_at_shutdown : loop_event :=
  mkEvent true 0 0 (Sample.video_pkt true 9000 9000) 0 0 0 0.

(** A session of one good iteration followed by a stop. *)
Definition stop_iter : sup_event :=
  mkSupEvent true false 10 None "20240101_000010" 0 Sample.no_stat
    (Sample.seg_ok 0 []) 10 10 Sample.no_stat.
Definition stopped_session : list sup_event :=
  [Sample.iter_at 5 8 (Sample.seg_ok 0 Sample.first_dts_near_limit); stop_iter].

End Scenario.

Lemma record_segment_returns_witness :
  Exists (fun e => ev_read_ret e = AVERROR_EOF)
    (se_events (Sample.seg_ok 0 Sample.first_dts_near_limit))
  /\ exists res,
       record_segment Sample.rescale (Sample.seg_ok 0 Sample.first_dts_near_limit)
         30 None 1 (Some Sample.first_info) 0 = Some res.
Proof.
  assert (H : Exists (fun e => ev_read_ret e = AVERROR_EOF)
                (se_events (Sample.seg_ok 0 Sample.first_dts_near_limit)))
    by (apply Exists_cons_tl, Exists_cons_hd; reflexivity).
  split; [exact H|].
  exact (record_segment_returns Sample.rescale
           (Sample.seg_ok 0 Sample.first_dts_near_limit) 30 None 1
           (Some Sample.first_info) 0 H).
Defined.

Lemma audio_comes_from_the_audio_stream_witness :
  audio_of (segment_submitted Sample.rescale
              (Sample.seg_ok 0 Sample.audio_reaches_guard) 30 None 1
              (Some Sample.first_info) 0) <> []
  /\ (1 <> 0
      /\ 0 <= snd (find_streams
                     (input_of (Sample.seg_ok 0 Sample.audio_reaches_guard) None)))
  /\ (List.length
        (audio_of (segment_submitted Sample.rescale
                     (Sample.seg_ok 0 Sample.audio_reaches_guard) 30 None 1
                     (Some Sample.first_info) 0))
      <= List.length
           (filter
              (reads_stream
                 (snd (find_streams
                         (input_of (Sample.seg_ok 0 Sample.audio_reaches_guard)
                            None))))
              (se_events (Sample.seg_ok 0 Sample.audio_reaches_guard))))%nat.
Proof.
  assert (H : audio_of (segment_submitted Sample.rescale
                          (Sample.seg_ok 0 Sample.audio_reaches_guard) 30 None 1
                          (Some Sample.first_info) 0) <> [])
    by (vm_compute; discriminate).
  pose proof (audio_comes_from_the_audio_stream Sample.rescale
                (Sample.seg_ok 0 Sample.audio_reaches_guard) 30 None 1
                (Some Sample.first_info) 0) as T.
  cbv zeta in T. destruct T as [T1 T2].
  split; [exact H|]. split; [exact (T1 H) | exact T2].
Defined.

Lemma silent_source_never_returns_witness :
  Forall (keeps_looping
            (fst (find_streams (input_of (Sample.seg_ok 0 Scenario.silent) None))))
    (se_events (Sample.seg_ok 0 Scenario.silent))
  /\ record_segment Sample.rescale (Sample.seg_ok 0 Scenario.silent) 30
       None 1 (Some Sample.first_info) 0 = None.
Proof.
  assert (H1 : Forall (keeps_looping
                         (fst (find_streams
                                 (input_of (Sample.seg_ok 0 Scenario.silent) None))))
                 (se_events (Sample.seg_ok 0 Scenario.silent))).
  { constructor; [left; reflexivity|].
    constructor; [right; simpl; split; [lia | discriminate]|].
    constructor; [left; reflexivity | constructor]. }
  assert (H2 : segment_loop Sample.rescale (Sample.seg_ok 0 Scenario.silent) 30
                 None 1 (Some Sample.first_info) 0 <> None)
    by (vm_compute; discriminate).
  split; [exact H1|].
  exact (silent_source_never_returns Sample.rescale
           (Sample.seg_ok 0 Scenario.silent) 30 None 1
           (Some Sample.first_info) 0 H1 H2).
Defined.

Lemma key_frame_ends_recording_witness :
  snd (loop_iter Sample.rescale Scenario.ctx1 Scenario.key_frame_at_shutdown
         Scenario.fresh) = true
  /\ exists p,
       trace (fst (loop_iter Sample.rescale Scenario.ctx1
                     Scenario.key_frame_at_shutdown Scenario.fresh))
       = trace Scenario.fresh ++ [OpWriteFrame VideoFinal p 0]
       /\ flags p = 1
       /\ prev_segment_info (fst (loop_iter Sample.rescale Scenario.ctx1
                                    Scenario.key_frame_at_shutdown Scenario.fresh))
          = Some (mkSegInfo 0 false true).
Proof.
  apply (key_frame_ends_recording Sample.rescale Scenario.ctx1
           Scenario.key_frame_at_shutdown Scenario.fresh).
  - right. split; reflexivity.
  - simpl. lia.
  - reflexivity.
  - reflexivity.
Defined.

Lemma result_is_trailer_result_witness :
  exists res,
    record_segment Sample.rescale (Sample.seg_ok 0 Scenario.connection_drops) 30
      None 1 (Some Sample.first_info) 0 = Some res
    /\ r_ret res = 0.
Proof.
  eexists. split; [vm_compute; reflexivity|].
  apply (result_is_trailer_result Sample.rescale
           (Sample.seg_ok 0 Scenario.connection_drops) 30 None 1
           (Some Sample.first_info) 0).
  - vm_compute. discriminate.
  - vm_compute. reflexivity.
Defined.

Lemma input_slot_after_call_witness :
  exists res,
    record_segment Sample.rescale Sample.seg_alloc_fails 30 (Some Sample.cam) 1
      (Some Sample.first_info) 0 = Some res
    /\ r_ret res = -12
    /\ r_input_ctx res = Some Sample.cam.
Proof.
  eexists. split; [vm_compute; reflexivity|]. split; [reflexivity|].
  apply (input_slot_after_call Sample.rescale Sample.seg_alloc_fails 30
           (Some Sample.cam) 1 (Some Sample.first_info) 0).
  vm_compute. reflexivity.
Defined.

Lemma overflow_guard_idempotent_witness :
  overflow_guard (overflow_guard (Sample.audio_pkt 0x70000001 0x70000051))
  = overflow_guard (Sample.audio_pkt 0x70000001 0x70000051)
  /\ overflow_guard (Sample.audio_pkt 5000 5040) = Sample.audio_pkt 5000 5040.
Proof.
  split.
  - apply (overflow_guard_idempotent (Sample.audio_pkt 0x70000001 0x70000051)).
  - apply (overflow_guard_idempotent (Sample.audio_pkt 5000 5040)).
    unfold MP4_DTS_SAFE. simpl. lia.
Defined.


Lemma retry_backoff_schedule_witness :
  backoffs (sp_trace (snd (after_segment (-5) Sample.failing_iter
                             (mkStatics 3 0 0) (Sample.worker0 "camA"))))
  = [8000000]
  /\ segment_retry_count (fst (after_segment (-5) Sample.failing_iter
                                 (mkStatics 3 0 0) (Sample.worker0 "camA"))) = 4.
Proof.
  assert (Hn : 0 <= segment_retry_count (mkStatics 3 0 0) < 2 ^ 31 - 1)
    by (simpl; lia).
  pose proof (retry_backoff_schedule (-5) Sample.failing_iter (mkStatics 3 0 0)
                (Sample.worker0 "camA") Hn) as H.
  cbv zeta in H. change (-5 <? 0) with true in H. cbv iota in H.
  destruct H as [H1 [_ H3]]. split; [rewrite H3; reflexivity | exact H1].
Defined.


Lemma nothing_happens_after_stop_witness :
  mp4_writer_rtsp_thread Sample.rescale 256 64 64 256 Sample.init0
    ([Sample.iter_at 5 8 (Sample.seg_ok 0 Sample.first_dts_near_limit)]
     ++ Scenario.stop_iter :: Sample.unconfigured_session)
    Sample.statics0 Sample.thread0 (Sample.writer0 "/rec/a.mp4" 30)
  = mp4_writer_rtsp_thread Sample.rescale 256 64 64 256 Sample.init0
      Scenario.stopped_session
      Sample.statics0 Sample.thread0 (Sample.writer0 "/rec/a.mp4" 30).
Proof.
  apply (nothing_happens_after_stop Sample.rescale 256 64 64 256 Sample.init0
           [Sample.iter_at 5 8 (Sample.seg_ok 0 Sample.first_dts_near_limit)]
           Scenario.stop_iter Sample.unconfigured_session Sample.statics0
           Sample.thread0 (Sample.writer0 "/rec/a.mp4" 30)).
  left. reflexivity.
Defined.

Lemma last_frame_flag_after_call_witness :
  exists res,
    record_segment Sample.rescale (Sample.seg_ok 0 Scenario.connection_drops) 30
      None 1 (Some (mkSegInfo 1 false true)) 0 = Some res
    /\ map fst (written (r_trace res)) = [VideoCopy]
    /\ option_map last_frame_was_key (r_prev_segment_info res) = Some true.
Proof.
  eexists. split; [vm_compute; reflexivity|]. split; [reflexivity|].
  match goal with |- option_map _ (r_prev_segment_info ?r) = _ =>
    rewrite (last_frame_flag_after_call Sample.rescale
               (Sample.seg_ok 0 Scenario.connection_drops) 30 None 1
               (mkSegInfo 1 false true) 0 r)
  end.
  - vm_compute. reflexivity.
  - vm_compute. discriminate.
  - vm_compute. reflexivity.
Defined.

Lemma frames_between_header_and_trailer_witness :
  exists res,
    record_segment Sample.rescale (Sample.seg_ok 0 Scenario.connection_drops) 30
      None 1 (Some Sample.first_info) 0 = Some res
    /\ exists pre ops,
         r_trace res
         = pre ++ [OpWriteHeader 0] ++ ops
           ++ [OpWriteTrailer 0; OpAvioClose; OpFreeOutput]
         /\ written pre = [] /\ 0 <= 0
         /\ forallb is_loop_op ops = true.
Proof.
  eexists. split; [vm_compute; reflexivity|].
  apply (frames_between_header_and_trailer Sample.rescale
           (Sample.seg_ok 0 Scenario.connection_drops) 30 None 1
           (Some Sample.first_info) 0).
  - vm_compute. reflexivity.
  - vm_compute. discriminate.
Defined.

Lemma records_are_handed_over_witness :
  exists pre' m new_id,
    firstn 2
      (sp_trace (snd (fst (mp4_writer_rtsp_thread Sample.rescale 256 64 64 256
                             Sample.init0
                             [Sample.iter_at 40 0
                                (Sample.seg_ok 0 Sample.first_dts_near_limit)]
                             Sample.statics0 Sample.thread0
                             (Sample.writer0 "/rec/a.mp4" 30)))))
    = pre' ++ [CatAdd m new_id]
    /\ md_start_time m = 40
    /\ md_end_time m = 0 /\ md_is_complete m = false.
Proof.
  apply (records_are_handed_over Sample.rescale 256 64 64 256 Sample.init0
           [Sample.iter_at 40 0 (Sample.seg_ok 0 Sample.first_dts_near_limit)]
           Sample.statics0 Sample.thread0 (Sample.writer0 "/rec/a.mp4" 30)
           _ 7 40 0
           (skipn 3
              (sp_trace (snd (fst (mp4_writer_rtsp_thread Sample.rescale 256 64 64
                                     256 Sample.init0
                                     [Sample.iter_at 40 0
                                        (Sample.seg_ok 0 Sample.first_dts_near_limit)]
                                     Sample.statics0 Sample.thread0
                                     (Sample.writer0 "/rec/a.mp4" 30))))))).
  vm_compute. reflexivity.
Defined.
